(** * CoCo cassette decoder: a model of [cassette/coco_tape.c]

    The program reads a digitised cassette recording, measures the number
    of samples between falling zero crossings, turns every cycle into a
    bit, assembles the bits into bytes, drives a block state machine
    ([process_bit]) with them and finally lists the tokenised BASIC
    program held by the decoded blocks ([print_prog], [asciidump]).

    Integers of the C program are modelled in [Z]; the wrap-around of the
    [uint8_t] fields is written out with [mod 256].  Arrays are lists and
    every access is bounds checked: an access outside the array (or
    through a null pointer) is undefined behaviour in C and is a
    separate outcome here.  Diagnostic output ([PRINT_ERROR], [hexdump],
    the [d_debug] and [v_verbose] traces and the bad-length notice of
    [process_bit]) is not part of the model; the listing printed by
    [print_prog] is. *)

From Stdlib Require Import ZArith List Bool String Ascii Lia.
From Stdlib Require Import DecimalString.
Import ListNotations.
Local Open Scope Z_scope.

(** ** Constants and enumerations *)

(** [enum blocktype] *)
Definition BT_NAME : Z := 0x00.
Definition BT_DATA : Z := 0x01.
Definition BT_EOF : Z := 0xFF.

Definition SYNCBYTE : Z := 0x3C.
Definition LEADERBYTE : Z := 0x55.

Definition PROGNAMELEN : Z := 8.
Definition MLSTARTLEN : Z := 2.
Definition MLLOADLEN : Z := 2.
Definition NAMEBLOCKLEN : Z := 15.

(** [enum block_state] *)
Inductive block_state : Set :=
| BS_NEED_LEADBYTE
| BS_NEED_SYNCBYTE
| BS_NEED_BLOCKTYPE
| BS_NEED_LENGTH
| BS_NEED_DATA
| BS_NEED_NAME
| BS_NEED_FILETYPE
| BS_NEED_ASCIIFLAG
| BS_NEED_GAPFLAG
| BS_NEED_STARTADDR
| BS_NEED_LOADADDR
| BS_NEED_CKSUM
| BS_DONE.

Definition block_state_eqb (a b : block_state) : bool :=
  match a, b with
  | BS_NEED_LEADBYTE, BS_NEED_LEADBYTE
  | BS_NEED_SYNCBYTE, BS_NEED_SYNCBYTE
  | BS_NEED_BLOCKTYPE, BS_NEED_BLOCKTYPE
  | BS_NEED_LENGTH, BS_NEED_LENGTH
  | BS_NEED_DATA, BS_NEED_DATA
  | BS_NEED_NAME, BS_NEED_NAME
  | BS_NEED_FILETYPE, BS_NEED_FILETYPE
  | BS_NEED_ASCIIFLAG, BS_NEED_ASCIIFLAG
  | BS_NEED_GAPFLAG, BS_NEED_GAPFLAG
  | BS_NEED_STARTADDR, BS_NEED_STARTADDR
  | BS_NEED_LOADADDR, BS_NEED_LOADADDR
  | BS_NEED_CKSUM, BS_NEED_CKSUM
  | BS_DONE, BS_DONE => true
  | _, _ => false
  end.

(** ** The block record

    [struct block] without its [b_next] link: a chain of blocks is a list.
    [b_data] is [None] for the null pointer and [Some buf] for an allocated
    buffer; [b_progname] has [PROGNAMELEN+1] bytes, [b_mlstart] and
    [b_mlload] two each. *)
Record block : Set := mkBlock {
  b_state : block_state;
  b_type : Z;
  b_length : Z;
  b_cksum : Z;
  b_data : option (list Z);
  b_progname : list Z;
  b_filetype : Z;
  b_asciiflag : Z;
  b_gapflag : Z;
  b_mlstart : list Z;
  b_mlload : list Z;
  b_byte : Z;
  b_nbit : Z;
  b_data_i : Z;
  b_progname_i : Z;
  b_mlstart_i : Z;
  b_mlload_i : Z
}.

(** Field assignments. *)
Definition set_state (v : block_state) (cb : block) : block :=
  {| b_state := v; b_type := b_type cb; b_length := b_length cb;
     b_cksum := b_cksum cb; b_data := b_data cb; b_progname := b_progname cb;
     b_filetype := b_filetype cb; b_asciiflag := b_asciiflag cb;
     b_gapflag := b_gapflag cb; b_mlstart := b_mlstart cb;
     b_mlload := b_mlload cb; b_byte := b_byte cb; b_nbit := b_nbit cb;
     b_data_i := b_data_i cb; b_progname_i := b_progname_i cb;
     b_mlstart_i := b_mlstart_i cb; b_mlload_i := b_mlload_i cb |}.

Definition set_type (v : Z) (cb : block) : block :=
  {| b_state := b_state cb; b_type := v; b_length := b_length cb;
     b_cksum := b_cksum cb; b_data := b_data cb; b_progname := b_progname cb;
     b_filetype := b_filetype cb; b_asciiflag := b_asciiflag cb;
     b_gapflag := b_gapflag cb; b_mlstart := b_mlstart cb;
     b_mlload := b_mlload cb; b_byte := b_byte cb; b_nbit := b_nbit cb;
     b_data_i := b_data_i cb; b_progname_i := b_progname_i cb;
     b_mlstart_i := b_mlstart_i cb; b_mlload_i := b_mlload_i cb |}.

Definition set_length (v : Z) (cb : block) : block :=
  {| b_state := b_state cb; b_type := b_type cb; b_length := v;
     b_cksum := b_cksum cb; b_data := b_data cb; b_progname := b_progname cb;
     b_filetype := b_filetype cb; b_asciiflag := b_asciiflag cb;
     b_gapflag := b_gapflag cb; b_mlstart := b_mlstart cb;
     b_mlload := b_mlload cb; b_byte := b_byte cb; b_nbit := b_nbit cb;
     b_data_i := b_data_i cb; b_progname_i := b_progname_i cb;
     b_mlstart_i := b_mlstart_i cb; b_mlload_i := b_mlload_i cb |}.

Definition set_cksum (v : Z) (cb : block) : block :=
  {| b_state := b_state cb; b_type := b_type cb; b_length := b_length cb;
     b_cksum := v; b_data := b_data cb; b_progname := b_progname cb;
     b_filetype := b_filetype cb; b_asciiflag := b_asciiflag cb;
     b_gapflag := b_gapflag cb; b_mlstart := b_mlstart cb;
     b_mlload := b_mlload cb; b_byte := b_byte cb; b_nbit := b_nbit cb;
     b_data_i := b_data_i cb; b_progname_i := b_progname_i cb;
     b_mlstart_i := b_mlstart_i cb; b_mlload_i := b_mlload_i cb |}.

Definition set_data (v : option (list Z)) (cb : block) : block :=
  {| b_state := b_state cb; b_type := b_type cb; b_length := b_length cb;
     b_cksum := b_cksum cb; b_data := v; b_progname := b_progname cb;
     b_filetype := b_filetype cb; b_asciiflag := b_asciiflag cb;
     b_gapflag := b_gapflag cb; b_mlstart := b_mlstart cb;
     b_mlload := b_mlload cb; b_byte := b_byte cb; b_nbit := b_nbit cb;
     b_data_i := b_data_i cb; b_progname_i := b_progname_i cb;
     b_mlstart_i := b_mlstart_i cb; b_mlload_i := b_mlload_i cb |}.

Definition set_progname (v : list Z) (cb : block) : block :=
  {| b_state := b_state cb; b_type := b_type cb; b_length := b_length cb;
     b_cksum := b_cksum cb; b_data := b_data cb; b_progname := v;
     b_filetype := b_filetype cb; b_asciiflag := b_asciiflag cb;
     b_gapflag := b_gapflag cb; b_mlstart := b_mlstart cb;
     b_mlload := b_mlload cb; b_byte := b_byte cb; b_nbit := b_nbit cb;
     b_data_i := b_data_i cb; b_progname_i := b_progname_i cb;
     b_mlstart_i := b_mlstart_i cb; b_mlload_i := b_mlload_i cb |}.

Definition set_filetype (v : Z) (cb : block) : block :=
  {| b_state := b_state cb; b_type := b_type cb; b_length := b_length cb;
     b_cksum := b_cksum cb; b_data := b_data cb; b_progname := b_progname cb;
     b_filetype := v; b_asciiflag := b_asciiflag cb;
     b_gapflag := b_gapflag cb; b_mlstart := b_mlstart cb;
     b_mlload := b_mlload cb; b_byte := b_byte cb; b_nbit := b_nbit cb;
     b_data_i := b_data_i cb; b_progname_i := b_progname_i cb;
     b_mlstart_i := b_mlstart_i cb; b_mlload_i := b_mlload_i cb |}.

Definition set_asciiflag (v : Z) (cb : block) : block :=
  {| b_state := b_state cb; b_type := b_type cb; b_length := b_length cb;
     b_cksum := b_cksum cb; b_data := b_data cb; b_progname := b_progname cb;
     b_filetype := b_filetype cb; b_asciiflag := v;
     b_gapflag := b_gapflag cb; b_mlstart := b_mlstart cb;
     b_mlload := b_mlload cb; b_byte := b_byte cb; b_nbit := b_nbit cb;
     b_data_i := b_data_i cb; b_progname_i := b_progname_i cb;
     b_mlstart_i := b_mlstart_i cb; b_mlload_i := b_mlload_i cb |}.

Definition set_gapflag (v : Z) (cb : block) : block :=
  {| b_state := b_state cb; b_type := b_type cb; b_length := b_length cb;
     b_cksum := b_cksum cb; b_data := b_data cb; b_progname := b_progname cb;
     b_filetype := b_filetype cb; b_asciiflag := b_asciiflag cb;
     b_gapflag := v; b_mlstart := b_mlstart cb; b_mlload := b_mlload cb;
     b_byte := b_byte cb; b_nbit := b_nbit cb; b_data_i := b_data_i cb;
     b_progname_i := b_progname_i cb; b_mlstart_i := b_mlstart_i cb;
     b_mlload_i := b_mlload_i cb |}.

Definition set_mlstart (v : list Z) (cb : block) : block :=
  {| b_state := b_state cb; b_type := b_type cb; b_length := b_length cb;
     b_cksum := b_cksum cb; b_data := b_data cb; b_progname := b_progname cb;
     b_filetype := b_filetype cb; b_asciiflag := b_asciiflag cb;
     b_gapflag := b_gapflag cb; b_mlstart := v; b_mlload := b_mlload cb;
     b_byte := b_byte cb; b_nbit := b_nbit cb; b_data_i := b_data_i cb;
     b_progname_i := b_progname_i cb; b_mlstart_i := b_mlstart_i cb;
     b_mlload_i := b_mlload_i cb |}.

Definition set_mlload (v : list Z) (cb : block) : block :=
  {| b_state := b_state cb; b_type := b_type cb; b_length := b_length cb;
     b_cksum := b_cksum cb; b_data := b_data cb; b_progname := b_progname cb;
     b_filetype := b_filetype cb; b_asciiflag := b_asciiflag cb;
     b_gapflag := b_gapflag cb; b_mlstart := b_mlstart cb; b_mlload := v;
     b_byte := b_byte cb; b_nbit := b_nbit cb; b_data_i := b_data_i cb;
     b_progname_i := b_progname_i cb; b_mlstart_i := b_mlstart_i cb;
     b_mlload_i := b_mlload_i cb |}.

Definition set_byte (v : Z) (cb : block) : block :=
  {| b_state := b_state cb; b_type := b_type cb; b_length := b_length cb;
     b_cksum := b_cksum cb; b_data := b_data cb; b_progname := b_progname cb;
     b_filetype := b_filetype cb; b_asciiflag := b_asciiflag cb;
     b_gapflag := b_gapflag cb; b_mlstart := b_mlstart cb;
     b_mlload := b_mlload cb; b_byte := v; b_nbit := b_nbit cb;
     b_data_i := b_data_i cb; b_progname_i := b_progname_i cb;
     b_mlstart_i := b_mlstart_i cb; b_mlload_i := b_mlload_i cb |}.

Definition set_nbit (v : Z) (cb : block) : block :=
  {| b_state := b_state cb; b_type := b_type cb; b_length := b_length cb;
     b_cksum := b_cksum cb; b_data := b_data cb; b_progname := b_progname cb;
     b_filetype := b_filetype cb; b_asciiflag := b_asciiflag cb;
     b_gapflag := b_gapflag cb; b_mlstart := b_mlstart cb;
     b_mlload := b_mlload cb; b_byte := b_byte cb; b_nbit := v;
     b_data_i := b_data_i cb; b_progname_i := b_progname_i cb;
     b_mlstart_i := b_mlstart_i cb; b_mlload_i := b_mlload_i cb |}.

Definition set_data_i (v : Z) (cb : block) : block :=
  {| b_state := b_state cb; b_type := b_type cb; b_length := b_length cb;
     b_cksum := b_cksum cb; b_data := b_data cb; b_progname := b_progname cb;
     b_filetype := b_filetype cb; b_asciiflag := b_asciiflag cb;
     b_gapflag := b_gapflag cb; b_mlstart := b_mlstart cb;
     b_mlload := b_mlload cb; b_byte := b_byte cb; b_nbit := b_nbit cb;
     b_data_i := v; b_progname_i := b_progname_i cb;
     b_mlstart_i := b_mlstart_i cb; b_mlload_i := b_mlload_i cb |}.

Definition set_progname_i (v : Z) (cb : block) : block :=
  {| b_state := b_state cb; b_type := b_type cb; b_length := b_length cb;
     b_cksum := b_cksum cb; b_data := b_data cb; b_progname := b_progname cb;
     b_filetype := b_filetype cb; b_asciiflag := b_asciiflag cb;
     b_gapflag := b_gapflag cb; b_mlstart := b_mlstart cb;
     b_mlload := b_mlload cb; b_byte := b_byte cb; b_nbit := b_nbit cb;
     b_data_i := b_data_i cb; b_progname_i := v;
     b_mlstart_i := b_mlstart_i cb; b_mlload_i := b_mlload_i cb |}.

Definition set_mlstart_i (v : Z) (cb : block) : block :=
  {| b_state := b_state cb; b_type := b_type cb; b_length := b_length cb;
     b_cksum := b_cksum cb; b_data := b_data cb; b_progname := b_progname cb;
     b_filetype := b_filetype cb; b_asciiflag := b_asciiflag cb;
     b_gapflag := b_gapflag cb; b_mlstart := b_mlstart cb;
     b_mlload := b_mlload cb; b_byte := b_byte cb; b_nbit := b_nbit cb;
     b_data_i := b_data_i cb; b_progname_i := b_progname_i cb;
     b_mlstart_i := v; b_mlload_i := b_mlload_i cb |}.

Definition set_mlload_i (v : Z) (cb : block) : block :=
  {| b_state := b_state cb; b_type := b_type cb; b_length := b_length cb;
     b_cksum := b_cksum cb; b_data := b_data cb; b_progname := b_progname cb;
     b_filetype := b_filetype cb; b_asciiflag := b_asciiflag cb;
     b_gapflag := b_gapflag cb; b_mlstart := b_mlstart cb;
     b_mlload := b_mlload cb; b_byte := b_byte cb; b_nbit := b_nbit cb;
     b_data_i := b_data_i cb; b_progname_i := b_progname_i cb;
     b_mlstart_i := b_mlstart_i cb; b_mlload_i := v |}.

(** ** 8-bit arithmetic and array stores *)

Definition add8 (a b : Z) : Z := (a + b) mod 256.
Definition inc8 (a : Z) : Z := (a + 1) mod 256.
Definition dec8 (a : Z) : Z := (a - 1) mod 256.

(** [a[n] = v] on a list; [None] when [n] is outside the array. *)
Fixpoint store_nat (a : list Z) (n : nat) (v : Z) : option (list Z) :=
  match a, n with
  | [], _ => None
  | _ :: t, O => Some (v :: t)
  | x :: t, S n' =>
      match store_nat t n' v with
      | Some t' => Some (x :: t')
      | None => None
      end
  end.

Definition store (a : list Z) (i : Z) (v : Z) : option (list Z) :=
  if i <? 0 then None else store_nat a (Z.to_nat i) v.

(** [a[i]] on a list; [None] when [i] is outside the array. *)
Definition load (a : list Z) (i : Z) : option Z :=
  if i <? 0 then None else nth_error a (Z.to_nat i).

(** [cb->b_data[i]]: the null pointer has no element. *)
Definition data_at (cb : block) (i : Z) : option Z :=
  match b_data cb with
  | Some buf => load buf i
  | None => None
  end.

(** ** The block state machine: [process_bit] *)

Inductive pb_error : Set :=
| DataMallocFailed    (* "Data malloc failed" *)
| DecodeErrorChksum   (* "Decode Error: chksum" *)
| BadBlockState.      (* "Bad Block state" *)

Inductive pb_result : Set :=
| PB_ok (cb : block)          (* return(0), with the block as it is left *)
| PB_error (e : pb_error)     (* return(1) *)
| PB_fault.                   (* a store outside an array *)

(** [cb->b_nbit++] *)
Definition next_bit (cb : block) : block := set_nbit (inc8 (b_nbit cb)) cb.

(** [cb->b_byte = 0; cb->b_nbit = 0;] *)
Definition clear_scratch (cb : block) : block := set_nbit 0 (set_byte 0 cb).

Section ProcessBit.

(** Whether [malloc(n)] for a payload buffer succeeds. *)
Variable data_malloc_ok : Z -> bool.

Definition process_bit (cb : block) : pb_result :=
  match b_state cb with
  | BS_NEED_SYNCBYTE =>
      if b_byte cb =? SYNCBYTE then
        let cb := set_byte 0 cb in
        let cb := set_nbit 1 cb in
        let cb := set_state BS_NEED_BLOCKTYPE cb in
        PB_ok cb
      else PB_ok cb
  | BS_NEED_BLOCKTYPE =>
      if b_nbit cb =? 8 then
        if (b_byte cb =? BT_NAME) || (b_byte cb =? BT_DATA)
           || (b_byte cb =? BT_EOF) then
          let cb := set_type (b_byte cb) cb in
          let cb := set_cksum (b_byte cb) cb in
          let cb := clear_scratch cb in
          let cb := set_state BS_NEED_LENGTH cb in
          PB_ok (next_bit cb)
        else
          let cb := clear_scratch cb in
          let cb := set_state BS_NEED_SYNCBYTE cb in
          PB_ok (next_bit cb)
      else PB_ok (next_bit cb)
  | BS_NEED_LENGTH =>
      if b_nbit cb =? 8 then
        let cb := set_length (b_byte cb) cb in
        let cb := set_cksum (add8 (b_cksum cb) (b_byte cb)) cb in
        let cb := clear_scratch cb in
        if b_type cb =? BT_NAME then
          if negb (b_length cb =? NAMEBLOCKLEN) then
            let cb := clear_scratch cb in
            let cb := set_state BS_NEED_SYNCBYTE cb in
            PB_ok (next_bit cb)
          else PB_ok (next_bit (set_state BS_NEED_NAME cb))
        else if b_type cb =? BT_EOF then
          if negb (b_length cb =? 0) then
            let cb := clear_scratch cb in
            let cb := set_state BS_NEED_SYNCBYTE cb in
            PB_ok (next_bit cb)
          else PB_ok (next_bit (set_state BS_NEED_CKSUM cb))
        else
          let cb := set_state BS_NEED_DATA cb in
          if data_malloc_ok (b_length cb + 1) then
            (* malloc followed by memset(.., 0, b_length+1) *)
            let cb :=
              set_data (Some (repeat 0 (Z.to_nat (b_length cb + 1)))) cb in
            PB_ok (next_bit cb)
          else PB_error DataMallocFailed
      else PB_ok (next_bit cb)
  | BS_NEED_NAME =>
      if b_nbit cb =? 8 then
        match store (b_progname cb) (b_progname_i cb) (b_byte cb) with
        | None => PB_fault
        | Some a =>
            let cb := set_progname a cb in
            let cb := set_progname_i (inc8 (b_progname_i cb)) cb in
            let cb := set_cksum (add8 (b_cksum cb) (b_byte cb)) cb in
            let cb :=
              if b_progname_i cb =? PROGNAMELEN
              then set_state BS_NEED_FILETYPE cb else cb in
            let cb := clear_scratch cb in
            PB_ok (next_bit cb)
        end
      else PB_ok (next_bit cb)
  | BS_NEED_FILETYPE =>
      if b_nbit cb =? 8 then
        let cb := set_filetype (b_byte cb) cb in
        let cb := set_cksum (add8 (b_cksum cb) (b_byte cb)) cb in
        let cb := set_state BS_NEED_ASCIIFLAG cb in
        let cb := clear_scratch cb in
        PB_ok (next_bit cb)
      else PB_ok (next_bit cb)
  | BS_NEED_ASCIIFLAG =>
      if b_nbit cb =? 8 then
        let cb := set_asciiflag (b_byte cb) cb in
        let cb := set_cksum (add8 (b_cksum cb) (b_byte cb)) cb in
        let cb := set_state BS_NEED_GAPFLAG cb in
        let cb := clear_scratch cb in
        PB_ok (next_bit cb)
      else PB_ok (next_bit cb)
  | BS_NEED_GAPFLAG =>
      if b_nbit cb =? 8 then
        let cb := set_gapflag (b_byte cb) cb in
        let cb := set_cksum (add8 (b_cksum cb) (b_byte cb)) cb in
        let cb := set_state BS_NEED_STARTADDR cb in
        let cb := clear_scratch cb in
        PB_ok (next_bit cb)
      else PB_ok (next_bit cb)
  | BS_NEED_STARTADDR =>
      if b_nbit cb =? 8 then
        match store (b_mlstart cb) (b_mlstart_i cb) (b_byte cb) with
        | None => PB_fault
        | Some a =>
            let cb := set_mlstart a cb in
            let cb := set_mlstart_i (inc8 (b_mlstart_i cb)) cb in
            let cb := set_cksum (add8 (b_cksum cb) (b_byte cb)) cb in
            let cb :=
              if b_mlstart_i cb =? MLSTARTLEN
              then set_state BS_NEED_LOADADDR cb else cb in
            let cb := clear_scratch cb in
            PB_ok (next_bit cb)
        end
      else PB_ok (next_bit cb)
  | BS_NEED_LOADADDR =>
      if b_nbit cb =? 8 then
        match store (b_mlload cb) (b_mlload_i cb) (b_byte cb) with
        | None => PB_fault
        | Some a =>
            let cb := set_mlload a cb in
            let cb := set_mlload_i (inc8 (b_mlload_i cb)) cb in
            let cb := set_cksum (add8 (b_cksum cb) (b_byte cb)) cb in
            let cb := set_length (dec8 (b_length cb)) cb in
            let cb :=
              if b_mlload_i cb =? MLLOADLEN
              then set_state BS_NEED_CKSUM cb else cb in
            let cb := clear_scratch cb in
            PB_ok (next_bit cb)
        end
      else PB_ok (next_bit cb)
  | BS_NEED_DATA =>
      if b_nbit cb =? 8 then
        match b_data cb with
        | None => PB_fault
        | Some buf =>
            match store buf (b_data_i cb) (b_byte cb) with
            | None => PB_fault
            | Some buf' =>
                let cb := set_data (Some buf') cb in
                let cb := set_data_i (inc8 (b_data_i cb)) cb in
                let cb := set_cksum (add8 (b_cksum cb) (b_byte cb)) cb in
                let cb :=
                  if b_length cb =? b_data_i cb
                  then set_state BS_NEED_CKSUM cb else cb in
                let cb := clear_scratch cb in
                PB_ok (next_bit cb)
            end
        end
      else PB_ok (next_bit cb)
  | BS_NEED_CKSUM =>
      if b_nbit cb =? 8 then
        if negb (b_byte cb =? b_cksum cb) then PB_error DecodeErrorChksum
        else
          let cb := set_state BS_NEED_LEADBYTE cb in
          let cb := clear_scratch cb in
          PB_ok (next_bit cb)
      else PB_ok (next_bit cb)
  | BS_NEED_LEADBYTE =>
      if b_nbit cb =? 8 then
        let cb := clear_scratch cb in
        let cb := set_state BS_DONE cb in
        PB_ok (next_bit cb)
      else PB_ok (next_bit cb)
  | BS_DONE => PB_error BadBlockState
  end.

End ProcessBit.

(** ** Text output *)

Local Open Scope string_scope.

Definition newline : string := String (ascii_of_N 10) "".

(** [printf("%c", c)] for a byte. *)
Definition char_of_byte (c : Z) : ascii := ascii_of_N (Z.to_N c).

(** [isprint] in the C locale (the program never calls [setlocale]). *)
Definition isprint (c : Z) : bool := (0x20 <=? c)%Z && (c <=? 0x7E)%Z.

Definition hex_digit (n : Z) : ascii :=
  match String.get (Z.to_nat n) "0123456789ABCDEF" with
  | Some c => c
  | None => "?"%char
  end.

(** [printf("\\x%02X", c)] for a byte. *)
Definition escaped_hex (c : Z) : string :=
  "\x" ++ String (hex_digit (c / 16)) (String (hex_digit (c mod 16)) "").

Definition decimal (n : Z) : string :=
  NilZero.string_of_uint (N.to_uint (Z.to_N n)).

Fixpoint spaces (n : nat) : string :=
  match n with
  | O => ""
  | S n' => String " "%char (spaces n')
  end.

(** Right-justify in a field of [w] characters, as [%5d] and [%8s] do. *)
Definition pad_left (w : nat) (s : string) : string :=
  spaces (w - String.length s) ++ s.

(** The characters of a C string: the bytes before the first NUL. *)
Fixpoint c_string (a : list Z) : string :=
  match a with
  | [] => ""
  | c :: t => if (c =? 0)%Z then "" else String (char_of_byte c) (c_string t)
  end.

(** ** Token tables *)

Definition token : list string :=
  [ (* 0x80 *) "FOR"; "GO"; "REM"; "'";
    "ELSE"; "IF"; "DATA"; "PRINT";
    "ON"; "INPUT"; "END"; "NEXT";
    "DIM"; "READ"; "RUN"; "RESTORE";
    (* 0x90 *) "RETURN"; "STOP"; "POKE"; "CONT";
    "LIST"; "CLEAR"; "NEW"; "CLOAD";
    "CSAVE"; "OPEN"; "CLOSE"; "LLIST";
    "SET"; "RESET"; "CLS"; "MOTOR";
    (* 0xa0 *) "SOUND"; "AUDIO"; "EXEC"; "SKIPF";
    "TAB("; "TO"; "SUB"; "THEN";
    "NOT"; "STEP"; "OFF"; "+";
    "-"; "*"; "/"; "^";
    (* 0xb0 *) "AND"; "OR"; ">"; "=";
    "<"; "DEL"; "EDIT"; "TRON";
    "TROFF"; "DEF"; "LET"; "LINE";
    "PCLS"; "PSET"; "PRESET"; "SCREEN";
    (* 0xc0 *) "PCLEAR"; "COLOR"; "CIRCLE"; "PAINT";
    "GET"; "PUT"; "DRAW"; "PCOPY";
    "PMODE"; "PLAY"; "DLOAD"; "RENUM";
    "FN"; "USING";
    "DIR"; "DRIVE";
    (* 0xd0 *) "FIELD"; "FILES"; "KILL"; "LOAD";
    "LSET"; "MERGE"; "RENAME"; "RSET";
    "SAVE"; "WRITE"; "VERIFY"; "UNLOAD";
    "DSKINI"; "BACKUP"; "COPY"; "DSKI$";
    (* 0xe0 *) "DSKO$" ].

Definition ftoken : list string :=
  [ (* 0x80 *) "SGN"; "INT"; "ABS"; "USR";
    "RND"; "SIN"; "PEEK"; "LEN";
    "STR$"; "VAL"; "ASC"; "CHR$";
    "EOF"; "JOYSTK"; "LEFT$"; "RIGHT$";
    (* 0x90 *) "MID$"; "POINT"; "INKEY$"; "MEM";
    "ATN"; "COS"; "TAN"; "EXP";
    "FIX"; "LOG"; "POS"; "SQR";
    "HEX$"; "VARPTR"; "INSTR"; "TIMER";
    (* 0xa0 *) "PPOINT"; "STRING$";
    "CVN"; "FREE";
    "LOC"; "LOF"; "MKN$" ].

(** [table[i]]; [None] outside the table. *)
Definition keyword (table : list string) (i : Z) : option string :=
  if (i <? 0)%Z then None else nth_error table (Z.to_nat i).

(** ** [asciidump]

    [data] holds the [size] bytes handed to the function.  The text printed
    is returned; [None] stands for a read outside the token tables or, after
    a final [0xff], of [data[size]]: in [print_prog] that byte is [line[llen]],
    which is indeterminate for the first line and zero afterwards, and zero
    indexes [ftoken] at [-0x80]. *)
Fixpoint asciidump (data : list Z) : option string :=
  match data with
  | [] => Some ""
  | c :: rest =>
      if isprint c then
        option_map (String (char_of_byte c)) (asciidump rest)
      else if (0x7f <? c)%Z && (c <? 0xe0)%Z then
        match keyword token (c - 0x80) with
        | Some kw => option_map (append kw) (asciidump rest)
        | None => None
        end
      else if (c =? 0xff)%Z then
        match rest with
        | [] => None
        | n :: rest' =>
            match keyword ftoken (n - 0x80) with
            | Some kw => option_map (append kw) (asciidump rest')
            | None => None
            end
        end
      else if negb (c =? 0)%Z then
        option_map (append (escaped_hex c)) (asciidump rest)
      else asciidump rest
  end.

(** ** [print_prog] *)

Definition LINELEN : Z := 4096.

(** The walk position: [cur] is the chain from [cb] on ([[]] for the null
    pointer), [idx] is [i] and [blkn] the running block number. *)
Record cursor : Set := mkCursor {
  cur : list block;
  idx : Z;
  blkn : Z
}.

(** [cb->b_data[i]] at the cursor. *)
Definition peek (c : cursor) : option Z :=
  match cur c with
  | [] => None
  | cb :: _ => data_at cb (idx c)
  end.

(** [i++; if (i == cb->b_length) { i = 0; cb = cb->b_next; blkn++; }] *)
Definition advance (c : cursor) : option cursor :=
  match cur c with
  | [] => None
  | cb :: next =>
      let i := (idx c + 1)%Z in
      if (i =? b_length cb)%Z
      then Some {| cur := next; idx := 0; blkn := inc8 (blkn c) |}
      else Some {| cur := cur c; idx := i; blkn := blkn c |}
  end.

Inductive copy_result : Set :=
| Copied (c : cursor) (line : list Z)
| CopyTooBig
| CopyFault.

(** The loop copying a line body up to its null terminator.  [j] counts the
    bytes copied and the loop leaves through [exit(1)] once [j >= LINELEN],
    so it runs at most [LINELEN] times: [room] bounds the iterations left. *)
Fixpoint copy_line (room : nat) (c : cursor) (j : Z) (line : list Z)
  : copy_result :=
  match peek c with
  | None => CopyFault
  | Some b =>
      if (b =? 0)%Z then Copied c line
      else
        match room with
        | O => CopyTooBig
        | S room' =>
            let line := (line ++ [b])%list in
            let j := (j + 1)%Z in
            match advance c with
            | None => CopyFault
            | Some c =>
                if (j >=? LINELEN)%Z then CopyTooBig
                else copy_line room' c j line
            end
        end
  end.

(** Short-circuit conjunction of tests that may fault. *)
Definition and_then (a b : option bool) : option bool :=
  match a with
  | Some true => b
  | _ => a
  end.

Definition is_null (v : option Z) : option bool :=
  option_map (fun x => (x =? 0)%Z) v.

(** The test for the three trailing nulls at the head of the loop. *)
Definition three_nulls (cb : block) (i : Z) : option bool :=
  and_then (Some ((b_length cb - i =? 2)%Z))
    (and_then (is_null (data_at cb i))
       (and_then (is_null (data_at cb (i + 1)))
          (is_null (data_at cb (i + 2))))).

Inductive pp_return : Set :=
| NoDataBlock      (* if (!cb) return(0) *)
| EndOfProgram     (* three trailing nulls: return(0) *)
| EndOfChain.      (* while (cb) ends *)

Inductive pp_exit : Set :=
| BadStartOfLine   (* "bad start of line" *)
| LineTooBig.      (* "Line too big for buffer" *)

Inductive line_result : Set :=
| LineDone (c : cursor) (text : string)   (* a line was printed *)
| LineStop                                (* three trailing nulls *)
| LineExit (e : pp_exit)
| LineFault.

Definition bind_cursor (o : option cursor) (k : cursor -> line_result)
  : line_result :=
  match o with
  | Some c => k c
  | None => LineFault
  end.

(** A turn of the [while (cb)] loop after the test for the three trailing
    nulls: the start-of-line check, the two ignored bytes, the line number,
    the copy of the body and the printing of the line. *)
Definition read_line (c : cursor) (cb : block) : line_result :=
  match data_at cb (idx c) with
  | None => LineFault
  | Some b0 =>
      if negb (b0 =? blkn c)%Z && negb (b0 =? blkn c + 1)%Z
      then LineExit BadStartOfLine
      else
        bind_cursor (advance c) (fun c =>
        bind_cursor (advance c) (fun c =>
        match peek c with
        | None => LineFault
        | Some hi =>
            let lineno := (Z.shiftl hi 8 mod 65536)%Z in
            bind_cursor (advance c) (fun c =>
            match peek c with
            | None => LineFault
            | Some lo =>
                let lineno := Z.lor lineno lo in
                bind_cursor (advance c) (fun c =>
                match copy_line (Z.to_nat LINELEN) c 0 [] with
                | CopyFault => LineFault
                | CopyTooBig => LineExit LineTooBig
                | Copied c line =>
                    bind_cursor (advance c) (fun c =>
                    match asciidump line with
                    | None => LineFault
                    | Some text =>
                        LineDone c
                          (pad_left 5 (decimal lineno) ++ " "
                           ++ text ++ newline)
                    end)
                end)
            end)
        end))
  end.

(** One turn of the [while (cb)] loop, entered with [cb] non-null. *)
Definition line_step (c : cursor) : line_result :=
  match cur c with
  | [] => LineFault
  | cb :: _ =>
      match three_nulls cb (idx c) with
      | None => LineFault
      | Some true => LineStop
      | Some false => read_line c cb
      end
  end.

Inductive pp_result : Set :=
| PP_return (out : string) (r : pp_return)
| PP_exit (out : string) (e : pp_exit)     (* exit(1) *)
| PP_fault
| PP_out_of_fuel.

(** The [while (cb)] loop; [out] is the text printed so far. *)
Fixpoint walk (fuel : nat) (c : cursor) (out : string) : pp_result :=
  match cur c with
  | [] => PP_return out EndOfChain
  | _ :: _ =>
      match fuel with
      | O => PP_out_of_fuel
      | S fuel' =>
          match line_step c with
          | LineDone c text => walk fuel' c (out ++ text)
          | LineStop => PP_return out EndOfProgram
          | LineExit e => PP_exit out e
          | LineFault => PP_fault
          end
      end
  end.

(** [while (cb && (cb->b_type != BT_DATA)) cb = cb->b_next;] *)
Fixpoint skip_to_data (chain : list block) : list block :=
  match chain with
  | [] => []
  | cb :: next =>
      if negb (b_type cb =? BT_DATA)%Z then skip_to_data next else chain
  end.

Definition buffer_size (cb : block) : Z :=
  match b_data cb with
  | Some buf => Z.of_nat (List.length buf)
  | None => 0
  end.

(** Every line read moves the cursor past at least one byte of some buffer,
    so the bytes of the chain bound the number of lines (see [walk_total]). *)
Fixpoint chain_room (chain : list block) : Z :=
  match chain with
  | [] => 0
  | cb :: next => (buffer_size cb + 1 + chain_room next)%Z
  end.

Definition print_prog (chain : list block) : pp_result :=
  let out :=
    match chain with
    | cb :: _ =>
        if block_state_eqb (b_state cb) BS_DONE && (b_type cb =? BT_NAME)%Z
        then "Program: " ++ pad_left 8 (c_string (b_progname cb)) ++ newline
        else ""
    | [] => ""
    end in
  match skip_to_data chain with
  | [] => PP_return out NoDataBlock
  | cb :: next =>
      match data_at cb 0 with
      | None => PP_fault
      | Some n =>
          walk (Z.to_nat (chain_room (cb :: next)))
            {| cur := cb :: next; idx := 0; blkn := n |} out
      end
  end.

Local Close Scope string_scope.

(** ** Cycle classification *)

Definition ZL : Z := 31.
Definition ZH : Z := 1000.
Definition OL : Z := 18.
Definition OH : Z := 31.

(** The four thresholds, globals of the program set by [-z], [-Z], [-o]
    and [-O]. *)
Record config : Set := mkConfig {
  z_zero_low : Z;
  Z_zero_high : Z;
  o_one_low : Z;
  O_one_high : Z
}.

(** The initialisers of the globals: the thresholds of a run started
    without threshold options. *)
Definition default_config : config :=
  {| z_zero_low := ZL; Z_zero_high := ZH; o_one_low := OL; O_one_high := OH |}.

Inductive cycle : Set := One | Zero | Invalid.

(** The two range tests made at a falling zero crossing. *)
Definition classify (cfg : config) (count : Z) : cycle :=
  if (count >=? o_one_low cfg) && (count <=? O_one_high cfg) then One
  else if (count >=? z_zero_low cfg) && (count <=? Z_zero_high cfg) then Zero
  else Invalid.

(** What each branch does to [cb->b_byte]. *)
Definition shift_in (k : cycle) (byte : Z) : Z :=
  match k with
  | One => Z.lor (Z.shiftr byte 1) 0x80
  | Zero => Z.shiftr byte 1
  | Invalid => byte
  end.

(** [(wav.data[j] < 0) && (wav.data[j-1] >= 0)] *)
Definition falling_crossing (prev cur : Z) : bool :=
  (cur <? 0) && (prev >=? 0).

(** ** The decode loop of [main] *)

(** The variables of the loop.  [d_chain] holds the finished blocks of the
    chain rooted at [blocks], oldest first; [d_cb] is the block under
    construction, the last of the chain while it is non-null.  [d_listing]
    is the text printed by [print_prog] so far. *)
Record decoder : Set := mkDecoder {
  d_chain : list block;
  d_cb : option block;
  d_count : Z;
  d_nblocks : Z;
  d_listing : string
}.

Inductive outcome : Set :=
| Running (d : decoder)
| Exited (status : Z) (listing : string)   (* exit(status) or return *)
| Undefined.                               (* undefined behaviour *)

(** [memset(cb, 0, sizeof(struct block)); cb->b_state = BS_NEED_SYNCBYTE;] *)
Definition new_block : block :=
  {| b_state := BS_NEED_SYNCBYTE; b_type := 0; b_length := 0; b_cksum := 0;
     b_data := None; b_progname := repeat 0 (Z.to_nat (PROGNAMELEN + 1));
     b_filetype := 0; b_asciiflag := 0; b_gapflag := 0;
     b_mlstart := repeat 0 (Z.to_nat MLSTARTLEN);
     b_mlload := repeat 0 (Z.to_nat MLLOADLEN);
     b_byte := 0; b_nbit := 0; b_data_i := 0; b_progname_i := 0;
     b_mlstart_i := 0; b_mlload_i := 0 |}.

Definition initial_decoder : decoder :=
  {| d_chain := []; d_cb := None; d_count := 0; d_nblocks := 0;
     d_listing := EmptyString |}.

Definition set_count (n : Z) (d : decoder) : decoder :=
  {| d_chain := d_chain d; d_cb := d_cb d; d_count := n;
     d_nblocks := d_nblocks d; d_listing := d_listing d |}.

Section Decoder.

(** Whether the allocation of the block after [n] earlier ones succeeds,
    and whether [malloc(n)] for a payload does. *)
Variable block_malloc_ok : Z -> bool.
Variable data_malloc_ok : Z -> bool.

Variable cfg : config.

(** [if (!cb) { ... }]: the block to work on, allocated when there is none;
    [None] when the allocation fails. *)
Definition ensure_block (d : decoder) : option (decoder * block) :=
  match d_cb d with
  | Some cb => Some (d, cb)
  | None =>
      if block_malloc_ok (d_nblocks d) then
        Some ({| d_chain := d_chain d; d_cb := Some new_block;
                 d_count := d_count d; d_nblocks := d_nblocks d + 1;
                 d_listing := d_listing d |}, new_block)
      else None
  end.

(** The statements under [if (cb->b_state == BS_DONE)], for the finished
    block [cb]. *)
Definition block_done (d : decoder) (cb : block) : outcome :=
  if b_type cb =? BT_EOF then
    match print_prog (d_chain d ++ [cb]) with
    | PP_return text _ =>
        Running {| d_chain := []; d_cb := None; d_count := d_count d;
                   d_nblocks := d_nblocks d;
                   d_listing := (d_listing d ++ text)%string |}
    | PP_exit text _ => Exited 1 (d_listing d ++ text)%string
    | PP_fault => Undefined
    | PP_out_of_fuel => Undefined   (* not reached: [print_prog_total] *)
    end
  else
    Running {| d_chain := d_chain d ++ [cb]; d_cb := None;
               d_count := d_count d; d_nblocks := d_nblocks d;
               d_listing := d_listing d |}.

(** What the loop does with the result of [process_bit]: [exit(1)] on a
    non-zero return, the hand-over of a finished block, and [count = 0]. *)
Definition settle (d : decoder) (r : pb_result) : outcome :=
  match r with
  | PB_error _ => Exited 1 (d_listing d)
  | PB_fault => Undefined
  | PB_ok cb =>
      if block_state_eqb (b_state cb) BS_DONE
      then block_done (set_count 0 d) cb
      else
        Running {| d_chain := d_chain d; d_cb := Some cb; d_count := 0;
                   d_nblocks := d_nblocks d; d_listing := d_listing d |}
  end.

(** The body of [if ((wav.data[j] < 0) && (wav.data[j-1] >= 0))] for a
    cycle of class [k], up to and including [count = 0]. *)
Definition on_cycle (d : decoder) (cb : block) (k : cycle) : outcome :=
  let cb := set_byte (shift_in k (b_byte cb)) cb in
  settle d (process_bit data_malloc_ok cb).

Definition count_up (o : outcome) : outcome :=
  match o with
  | Running d => Running (set_count (d_count d + 1) d)
  | _ => o
  end.

(** One turn of [for (int j = 1; j < wav.samples; j++)], with
    [prev = wav.data[j-1]] and [cur = wav.data[j]]. *)
Definition loop_body (d : decoder) (prev cur : Z) : outcome :=
  match ensure_block d with
  | None => Exited (-1) (d_listing d)
  | Some (d, cb) =>
      if falling_crossing prev cur
      then count_up (on_cycle d cb (classify cfg (d_count d)))
      else count_up (Running d)
  end.

Fixpoint sample_loop (o : outcome) (prev : Z) (data : list Z) : outcome :=
  match data with
  | [] => o
  | cur :: rest =>
      match o with
      | Running d => sample_loop (loop_body d prev cur) cur rest
      | _ => o
      end
  end.

(** The whole loop over the samples of the recording.  [count] never
    exceeds [j], an [int], so it is not wrapped. *)
Definition main_loop (data : list Z) : outcome :=
  match data with
  | [] => Running initial_decoder
  | s0 :: rest => sample_loop (Running initial_decoder) s0 rest
  end.

(** The chain rooted at [blocks] when the loop ends. *)
Definition chain_of (d : decoder) : list block :=
  d_chain d ++ match d_cb d with Some cb => [cb] | None => [] end.

(** [main] from the loop on: the loop, the final [print_prog(blocks)] and
    [exit(0)]. *)
Definition main (data : list Z) : outcome :=
  match main_loop data with
  | Running d =>
      match print_prog (chain_of d) with
      | PP_return text _ => Exited 0 (d_listing d ++ text)%string
      | PP_exit text _ => Exited 1 (d_listing d ++ text)%string
      | PP_fault => Undefined
      | PP_out_of_fuel => Undefined   (* not reached: [print_prog_total] *)
      end
  | o => o
  end.

End Decoder.

(** ** The verbose report of [main]

    With [-v], after the final [print_prog], [main] prints the number of
    blocks allocated and walks the chain with
    [for (cb=blocks; cb->b_next; cb=cb->b_next)]: the condition reads
    [cb->b_next] of the first block before anything else, and the loop
    ends at the block that has no next one. *)

(** The [switch (cb->b_type)] of the report. *)
Definition block_report (cb : block) : string :=
  (if (b_type cb =? BT_NAME)%Z then "Name Block" ++ newline
   else if (b_type cb =? BT_DATA)%Z
        then "DATA Block (" ++ decimal (b_length cb) ++ ")" ++ newline
   else if (b_type cb =? BT_EOF)%Z then "EOF Block" ++ newline
   else "Bad block type " ++ decimal (b_type cb) ++ newline)%string.

(** The loop of the report, entered with a non-null [cb]. *)
Fixpoint verbose_lines (cb : block) (next : list block) : string :=
  match next with
  | [] => EmptyString
  | cb' :: next' => (block_report cb ++ verbose_lines cb' next')%string
  end.

(** What the report prints, for [nblocks] and the chain rooted at
    [blocks]; [None] for the read of [cb->b_next] through a null [blocks]. *)
Definition verbose_report (nblocks : Z) (chain : list block)
  : option string :=
  match chain with
  | [] => None
  | cb :: next =>
      Some ("Decoded " ++ decimal nblocks ++ " blocks" ++ newline
            ++ verbose_lines cb next)%string
  end.

(** ** Synthetic recordings

    Square waves whose cycle lengths spell out a byte sequence, least
    significant bit first, as the recorder wrote it. *)

(** The samples that follow a falling crossing, up to and including the
    next one, for a cycle of [len] samples and amplitude [amp]. *)
Definition square_cycle (amp : Z) (len : nat) : list Z :=
  repeat (- amp) ((len - 1) / 2) ++ repeat amp (len - 1 - (len - 1) / 2)
  ++ [- amp].

(** A recording made of the given cycles: a first sample above zero, the
    crossing that starts the first cycle, then the cycles. *)
Definition wave (amp : Z) (lens : list nat) : list Z :=
  amp :: - amp :: List.concat (map (square_cycle amp) lens).

Definition bits_of_byte (v : Z) : list bool :=
  map (Z.testbit v) [0; 1; 2; 3; 4; 5; 6; 7].

Definition bits_of_bytes (bytes : list Z) : list bool :=
  List.concat (map bits_of_byte bytes).

(** Cycle lengths for a bit string: [l1] samples for a one, [l0] for a
    zero. *)
Definition lens_of_bits (l1 l0 : nat) (bits : list bool) : list nat :=
  map (fun b : bool => if b then l1 else l0) bits.

Definition wave_of_bytes (amp : Z) (l1 l0 : nat) (bytes : list Z) : list Z :=
  wave amp (lens_of_bits l1 l0 (bits_of_bytes bytes)).

Definition sum8 (bytes : list Z) : Z := fold_right Z.add 0 bytes mod 256.

(** The bytes of a Data block on tape: sync, type, length, payload,
    checksum and the trailing leader byte. *)
Definition data_frame (payload : list Z) : list Z :=
  let len := Z.of_nat (List.length payload) in
  [SYNCBYTE; BT_DATA; len] ++ payload
  ++ [sum8 (BT_DATA :: len :: payload); LEADERBYTE].

Definition always (_ : Z) : bool := true.

(** ** Runs of the decode loop seen cycle by cycle *)

Definition obind (o : outcome) (f : decoder -> outcome) : outcome :=
  match o with
  | Running d => f d
  | _ => o
  end.

Definition class_of_bit (b : bool) : cycle := if b then One else Zero.

Definition classes_of_bytes (bytes : list Z) : list cycle :=
  map class_of_bit (bits_of_bytes bytes).

(** No falling crossing along [data], entered with previous sample
    [prev]. *)
Fixpoint quiet (prev : Z) (data : list Z) : bool :=
  match data with
  | [] => true
  | s :: rest => negb (falling_crossing prev s) && quiet s rest
  end.

(** [cb] with a whole byte [v] assembled: the state in which [process_bit]
    looks at the byte. *)
Definition byte_ready (v : Z) (cb : block) : block :=
  set_nbit 8 (set_byte v cb).

Section Runs.

Variable block_malloc_ok : Z -> bool.
Variable data_malloc_ok : Z -> bool.

(** The decoder once the loop has made sure there is a current block. *)
Definition arm (d : decoder) : outcome :=
  match ensure_block block_malloc_ok d with
  | Some (d', _) => Running d'
  | None => Exited (-1) (d_listing d)
  end.

(** A turn of the loop at a falling crossing whose cycle has class [k]. *)
Definition on_class (d : decoder) (k : cycle) : outcome :=
  match ensure_block block_malloc_ok d with
  | None => Exited (-1) (d_listing d)
  | Some (d, cb) => count_up (on_cycle data_malloc_ok d cb k)
  end.

Definition run_classes (o : outcome) (ks : list cycle) : outcome :=
  fold_left (fun o k => obind o (fun d => on_class d k)) ks o.

(** A turn of the loop at a falling crossing taken on a current block that
    holds the complete byte [v]. *)
Definition on_byte (d : decoder) (cb : block) (v : Z) : outcome :=
  count_up (settle d (process_bit data_malloc_ok (byte_ready v cb))).

Variable cfg : config.

(** A turn of the loop at a falling crossing reached with [count = n]. *)
Definition at_crossing (d : decoder) (n : Z) : outcome :=
  loop_body block_malloc_ok data_malloc_ok cfg (set_count n d) 0 (-1).

Definition run_cycles (o : outcome) (counts : list Z) : outcome :=
  fold_left (fun o n => obind o (fun d => at_crossing d n)) counts o.

End Runs.

(** The current block of a running decoder. *)
Definition current (o : outcome) : option block :=
  match o with
  | Running d => d_cb d
  | _ => None
  end.

Definition set_cb (cb : option block) (d : decoder) : decoder :=
  {| d_chain := d_chain d; d_cb := cb; d_count := d_count d;
     d_nblocks := d_nblocks d; d_listing := d_listing d |}.

(** * Notions used in the statements *)

(** The bits of a byte that only count: all but the last. *)
Definition counted_bits (bits : list bool) (cb : block) : block :=
  fold_left
    (fun cb b => next_bit (set_byte (shift_in (class_of_bit b) (b_byte cb)) cb))
    bits cb.

(** A block hunting for the sync byte: a fresh block, or one sent back to
    [BS_NEED_SYNCBYTE] by a bad type or length, which keeps the type,
    length, checksum and bit count it had reached. *)
Definition hunting_block (t l c n : Z) : block :=
  set_type t (set_length l (set_cksum c (set_nbit n new_block))).

(** A Data block with the payload bytes [got] received and [pad] bytes of
    its buffer still unwritten. *)
Definition data_block (st : block_state) (len ck : Z) (got : list Z)
  (pad : nat) : block :=
  {| b_state := st; b_type := BT_DATA; b_length := len; b_cksum := ck;
     b_data := Some (got ++ repeat 0 pad);
     b_progname := repeat 0 (Z.to_nat (PROGNAMELEN + 1));
     b_filetype := 0; b_asciiflag := 0; b_gapflag := 0;
     b_mlstart := repeat 0 (Z.to_nat MLSTARTLEN);
     b_mlload := repeat 0 (Z.to_nat MLLOADLEN);
     b_byte := 0; b_nbit := 1; b_data_i := Z.of_nat (List.length got);
     b_progname_i := 0; b_mlstart_i := 0; b_mlload_i := 0 |}.

Definition bytes_ok (bytes : list Z) : Prop :=
  Forall (fun v => 0 <= v < 256) bytes.

(** The payload of a block: the first [b_length] bytes of its buffer. *)
Definition payload (cb : block) : option (list Z) :=
  option_map (firstn (Z.to_nat (b_length cb))) (b_data cb).

(** The decoder after it has put the finished block [cb] on the chain. *)
Definition with_block (cb : block) (d : decoder) : decoder :=
  {| d_chain := d_chain d ++ [cb]; d_cb := None; d_count := 1;
     d_nblocks := d_nblocks d; d_listing := d_listing d |}.

(** The Data block decoded from [data_frame payload]. *)
Definition decoded_data (payload : list Z) : block :=
  let len := Z.of_nat (List.length payload) in
  data_block BS_DONE len (sum8 (BT_DATA :: len :: payload)) payload 1.

(** What a well-formed block carries between its length byte and its
    checksum: fifteen bytes for a Name block, [len] bytes for a Data block
    (at least one), nothing for an End of File block. *)
Definition frame_body (t len : Z) (body : list Z) : Prop :=
  (t = BT_NAME /\ len = NAMEBLOCKLEN /\ List.length body = 15%nat)
  \/ (t = BT_DATA /\ 1 <= len <= 255 /\ Z.of_nat (List.length body) = len)
  \/ (t = BT_EOF /\ len = 0 /\ body = []).

(** A block waiting for its checksum byte with the sum [ck] run up. *)
Definition awaits_checksum (cb : block) (ck : Z) : Prop :=
  b_state cb = BS_NEED_CKSUM /\ b_nbit cb = 1 /\ b_byte cb = 0
  /\ b_cksum cb = ck.

(** The timing assumptions on a synthetic recording: a positive amplitude
    and cycle lengths that the thresholds class as a one and as a zero. *)
Definition well_timed (cfg : config) (amp : Z) (l1 l0 : nat) : Prop :=
  0 < amp /\ (2 <= l1)%nat /\ (2 <= l0)%nat
  /\ classify cfg (Z.of_nat l1) = One /\ classify cfg (Z.of_nat l0) = Zero.

(** What a run has decoded: the finished blocks on the chain and the
    listing printed, or how the run ended. *)
Inductive decoded : Set :=
| Blocks (chain : list block) (listing : string)
| Stopped (status : Z) (listing : string)
| Crashed.

Definition decoded_of (o : outcome) : decoded :=
  match o with
  | Running d => Blocks (d_chain d) (d_listing d)
  | Exited status listing => Stopped status listing
  | Undefined => Crashed
  end.

(** Two blocks hunting for the sync byte that differ at most in their bit
    count, which the hunt does not read. *)
Definition sync_twins (a b : block) : Prop :=
  b_state a = BS_NEED_SYNCBYTE /\ set_nbit 0 a = set_nbit 0 b.

(** The room left from a cursor on: the bytes of the chain from the current
    block on, less the bytes of the current buffer already passed. *)
Definition room_left (c : cursor) : Z :=
  match cur c with
  | [] => 0
  | cb :: _ => chain_room (cur c) - Z.min (idx c) (buffer_size cb)
  end.

(** [c'] is at or after [c] in the chain. *)
Definition later (c c' : cursor) : Prop :=
  (cur c' = cur c /\ idx c <= idx c')
  \/ exists cb next,
       cur c = cb :: next /\ chain_room (cur c') <= chain_room next.

(** The fields that only the body of a block writes are still as
    [new_block] has them. *)
Definition untouched (cb : block) : Prop :=
  b_data cb = None /\ b_progname cb = b_progname new_block
  /\ b_filetype cb = 0 /\ b_asciiflag cb = 0 /\ b_gapflag cb = 0
  /\ b_mlstart cb = b_mlstart new_block /\ b_mlload cb = b_mlload new_block
  /\ b_data_i cb = 0 /\ b_progname_i cb = 0 /\ b_mlstart_i cb = 0
  /\ b_mlload_i cb = 0.

(** What holds of the current block at every turn of the loop: up to the
    length byte the body fields are untouched, and once the sync byte is
    found the bit count runs from 1 to 8, the byte being clear at 1. *)
Definition block_ok (cb : block) : Prop :=
  match b_state cb with
  | BS_NEED_SYNCBYTE => untouched cb
  | BS_NEED_BLOCKTYPE | BS_NEED_LENGTH =>
      untouched cb /\ 1 <= b_nbit cb <= 8 /\ (b_nbit cb = 1 -> b_byte cb = 0)
  | _ => 1 <= b_nbit cb <= 8 /\ (b_nbit cb = 1 -> b_byte cb = 0)
  end.

Definition outcome_ok (o : outcome) : Prop :=
  match o with
  | Running d =>
      match d_cb d with
      | Some cb => block_ok cb
      | None => True
      end
  | _ => True
  end.

Section Resynced.

Variable block_malloc_ok : Z -> bool.

(** The decoder [a] that went through a rejected block type, against the
    decoder [b] that did not: the same chain and listing, and current
    blocks that are twins; [b] may not have allocated its block yet. *)
Inductive resynced : decoder -> decoder -> Prop :=
| resynced_armed (d : decoder) (a b : block) (n : Z) :
    sync_twins a b ->
    resynced (set_count n (set_cb (Some a) d)) (set_cb (Some b) d)
| resynced_fresh (d : decoder) (a : block) (n : Z) :
    d_cb d = None -> block_malloc_ok (d_nblocks d) = true ->
    sync_twins a new_block ->
    resynced {| d_chain := d_chain d; d_cb := Some a; d_count := n;
                d_nblocks := d_nblocks d + 1; d_listing := d_listing d |} d.

(** A decoder between blocks: it has no current block and can allocate
    one, or its current block hunts for the sync byte with a clear byte. *)
Definition between_blocks (d : decoder) : Prop :=
  (d_cb d = None /\ block_malloc_ok (d_nblocks d) = true)
  \/ exists cb,
       d_cb d = Some cb /\ b_state cb = BS_NEED_SYNCBYTE /\ b_byte cb = 0.

End Resynced.

(** ** Lines, programs and tapes *)

(** A line record of a tokenised program as [print_prog] reads it: the
    block-number byte, the ignored offset byte, the two bytes of the line
    number and the body, which a null byte ends. *)
Record line : Set := mkLine {
  l_tag : Z;
  l_nlo : Z;
  l_hi : Z;
  l_lo : Z;
  l_body : list Z
}.

Definition encode_line (ln : line) : list Z :=
  [l_tag ln; l_nlo ln; l_hi ln; l_lo ln] ++ l_body ln ++ [0].

(** A line that [print_prog] can print: bytes in range, a body without a
    null byte that fits the line buffer and that [asciidump] renders. *)
Definition line_ok (ln : line) : Prop :=
  bytes_ok (encode_line ln)
  /\ ~ In 0 (l_body ln)
  /\ Z.of_nat (List.length (l_body ln)) < LINELEN
  /\ asciidump (l_body ln) <> None.

(** What [print_prog] prints for a line. *)
Definition render_line (ln : line) : string :=
  match asciidump (l_body ln) with
  | Some text =>
      (pad_left 5 (decimal (l_hi ln * 256 + l_lo ln)) ++ " "
       ++ text ++ newline)%string
  | None => EmptyString
  end.

Definition render_lines (lines : list line) : string :=
  fold_right (fun ln s => (render_line ln ++ s)%string) EmptyString lines.

(** Reading the bytes [s] one after the other, each with a look at
    [cb->b_data[i]] and a step to the next byte, leads from cursor [c] to
    cursor [c']. *)
Inductive reads : cursor -> list Z -> cursor -> Prop :=
| reads_nil (c : cursor) : reads c [] c
| reads_cons (c c1 c2 : cursor) (x : Z) (s : list Z) :
    peek c = Some x -> advance c = Some c1 -> reads c1 s c2 ->
    reads c (x :: s) c2.

(** The bytes of a program in one Data block: its line records and the two
    null bytes that end it. *)
Definition program_bytes (lines : list line) : list Z :=
  List.concat (map encode_line lines) ++ [0; 0].

(** What [print_prog] prints before the lines. *)
Definition listing_header (chain : list block) : string :=
  match chain with
  | cb :: _ =>
      if block_state_eqb (b_state cb) BS_DONE && (b_type cb =? BT_NAME)
      then ("Program: " ++ pad_left 8 (c_string (b_progname cb)) ++ newline)%string
      else EmptyString
  | [] => EmptyString
  end.

(** What a Name block carries between its length byte and its checksum:
    the eight bytes of the program name, file type, ASCII flag and gap
    flag, and the two addresses. *)
Definition name_body (name : list Z) (ft af gf : Z) (ms ml : list Z)
  : list Z :=
  name ++ [ft; af; gf] ++ ms ++ ml.

(** The bytes of a Name block on tape. *)
Definition name_frame (name : list Z) (ft af gf : Z) (ms ml : list Z)
  : list Z :=
  [SYNCBYTE; BT_NAME; NAMEBLOCKLEN] ++ name_body name ft af gf ms ml
  ++ [sum8 (BT_NAME :: NAMEBLOCKLEN :: name_body name ft af gf ms ml);
      LEADERBYTE].

(** The bytes of an End of File block on tape. *)
Definition eof_frame : list Z := [SYNCBYTE; BT_EOF; 0; BT_EOF; LEADERBYTE].

(** The Name block decoded from [name_frame]: the name is followed by the
    NUL that [memset] left in [b_progname], and [b_length] is the recorded
    length less the two bytes of the load address. *)
Definition decoded_name (name : list Z) (ft af gf : Z) (ms ml : list Z)
  : block :=
  {| b_state := BS_DONE; b_type := BT_NAME; b_length := NAMEBLOCKLEN - 2;
     b_cksum := sum8 (BT_NAME :: NAMEBLOCKLEN :: name_body name ft af gf ms ml);
     b_data := None; b_progname := name ++ [0];
     b_filetype := ft; b_asciiflag := af; b_gapflag := gf;
     b_mlstart := ms; b_mlload := ml;
     b_byte := 0; b_nbit := 1; b_data_i := 0; b_progname_i := PROGNAMELEN;
     b_mlstart_i := MLSTARTLEN; b_mlload_i := MLLOADLEN |}.

(** The End of File block decoded from [eof_frame]. *)
Definition decoded_eof : block :=
  set_state BS_DONE
    (set_type BT_EOF (set_cksum BT_EOF (set_nbit 1 new_block))).

(** A tape with one program: a Name frame, a Data frame that holds the
    lines and an End of File frame, each after [n] leader bytes. *)
Definition tape (n : nat) (name : list Z) (ft af gf : Z) (ms ml : list Z)
    (lines : list line) : list Z :=
  repeat LEADERBYTE n ++ name_frame name ft af gf ms ml
  ++ repeat LEADERBYTE n ++ data_frame (program_bytes lines)
  ++ repeat LEADERBYTE n ++ eof_frame.

(** ** Invariants of the decode loop *)

(** [P] holds of the block under construction, if the run is going on and
    has one. *)
Definition holds_of_current (P : block -> Prop) (o : outcome) : Prop :=
  match o with
  | Running d =>
      match d_cb d with
      | Some cb => P cb
      | None => True
      end
  | _ => True
  end.

(** What keeps the stores of [process_bit] inside their arrays: the three
    arrays of the block have their declared sizes, the byte is a byte, and
    the index of the array that the state writes is below its bound.  A Data
    block of length 0 is the exception: its index is not below its length. *)
Definition block_safe (cb : block) : Prop :=
  List.length (b_progname cb) = 9%nat
  /\ List.length (b_mlstart cb) = 2%nat
  /\ List.length (b_mlload cb) = 2%nat
  /\ 0 <= b_byte cb < 256
  /\ match b_state cb with
     | BS_NEED_SYNCBYTE | BS_NEED_BLOCKTYPE | BS_NEED_LENGTH =>
         b_progname_i cb = 0 /\ b_mlstart_i cb = 0 /\ b_mlload_i cb = 0
         /\ b_data_i cb = 0
     | BS_NEED_NAME =>
         0 <= b_progname_i cb < PROGNAMELEN /\ b_mlstart_i cb = 0
         /\ b_mlload_i cb = 0
     | BS_NEED_FILETYPE | BS_NEED_ASCIIFLAG | BS_NEED_GAPFLAG =>
         b_mlstart_i cb = 0 /\ b_mlload_i cb = 0
     | BS_NEED_STARTADDR =>
         0 <= b_mlstart_i cb < MLSTARTLEN /\ b_mlload_i cb = 0
     | BS_NEED_LOADADDR => 0 <= b_mlload_i cb < MLLOADLEN
     | BS_NEED_DATA =>
         b_length cb = 0
         \/ exists buf,
              b_data cb = Some buf
              /\ Z.of_nat (List.length buf) = b_length cb + 1
              /\ 0 <= b_data_i cb < b_length cb /\ b_length cb < 256
     | BS_NEED_CKSUM | BS_NEED_LEADBYTE | BS_DONE => True
     end.

(** The decoder after a Data header of length 0, one payload byte and seven
    bits of a second one. *)
Definition overrun_decoder : decoder :=
  Eval vm_compute in
    match main_loop always always default_config
            (wave 16000
               (lens_of_bits 18 37
                  (bits_of_bytes [0x3C; 0x01; 0x00; 0x41]
                   ++ firstn 7 (bits_of_byte 0x42)))) with
    | Running d => d
    | _ => initial_decoder
    end.

Definition overrun_block : block :=
  Eval vm_compute in
    match d_cb overrun_decoder with
    | Some cb => cb
    | None => new_block
    end.

(** ** The hunt for the sync byte *)

(** The byte left by shifting [bits] into [byte], first bit first. *)
Definition assemble (bits : list bool) (byte : Z) : Z :=
  fold_left (fun byte b => shift_in (class_of_bit b) byte) bits byte.

(** No bit of [bits], shifted into [byte] after the ones before it, leaves
    the sync byte. *)
Fixpoint no_sync_in (bits : list bool) (byte : Z) : bool :=
  match bits with
  | [] => true
  | b :: rest =>
      let byte' := shift_in (class_of_bit b) byte in
      negb (byte' =? SYNCBYTE) && no_sync_in rest byte'
  end.

(** * Properties *)

(** ** Classification *)

Lemma classify_one (cfg : config) (c : Z) :
  classify cfg c = One <-> o_one_low cfg <= c <= O_one_high cfg.
Proof.
  unfold classify.
  destruct (c >=? o_one_low cfg) eqn:E1, (c <=? O_one_high cfg) eqn:E2;
    simpl; try destruct (_ && _); split; intros H; try discriminate;
    try reflexivity; lia.
Qed.

Lemma classify_zero (cfg : config) (c : Z) :
  classify cfg c = Zero <->
  ~ (o_one_low cfg <= c <= O_one_high cfg)
  /\ z_zero_low cfg <= c <= Z_zero_high cfg.
Proof.
  unfold classify.
  destruct (c >=? o_one_low cfg) eqn:E1, (c <=? O_one_high cfg) eqn:E2;
    destruct (c >=? z_zero_low cfg) eqn:E3, (c <=? Z_zero_high cfg) eqn:E4;
    simpl; split; intros H; try discriminate; try reflexivity; lia.
Qed.

Lemma classify_invalid (cfg : config) (c : Z) :
  classify cfg c = Invalid <->
  ~ (o_one_low cfg <= c <= O_one_high cfg)
  /\ ~ (z_zero_low cfg <= c <= Z_zero_high cfg).
Proof.
  unfold classify.
  destruct (c >=? o_one_low cfg) eqn:E1, (c <=? O_one_high cfg) eqn:E2;
    destruct (c >=? z_zero_low cfg) eqn:E3, (c <=? Z_zero_high cfg) eqn:E4;
    simpl; split; intros H; try discriminate; try reflexivity; lia.
Qed.

(** ** From samples to cycles *)

Section SamplesToCycles.

Variable block_malloc_ok : Z -> bool.
Variable data_malloc_ok : Z -> bool.
Variable cfg : config.

Local Abbreviation loop_body' := (loop_body block_malloc_ok data_malloc_ok cfg).
Local Abbreviation sample_loop' := (sample_loop block_malloc_ok data_malloc_ok cfg).
Local Abbreviation main_loop' := (main_loop block_malloc_ok data_malloc_ok cfg).
Local Abbreviation arm' := (arm block_malloc_ok).
Local Abbreviation at_crossing' := (at_crossing block_malloc_ok data_malloc_ok cfg).
Local Abbreviation run_cycles' := (run_cycles block_malloc_ok data_malloc_ok cfg).
Local Abbreviation on_class' := (on_class block_malloc_ok data_malloc_ok).
Local Abbreviation run_classes' := (run_classes block_malloc_ok data_malloc_ok).

Lemma falling_crossing_iff (prev cur : Z) :
  falling_crossing prev cur = true <-> cur < 0 /\ prev >= 0.
Proof. unfold falling_crossing. rewrite andb_true_iff. lia. Qed.

Lemma last_any_default (l : list Z) (a b : Z) :
  l <> [] -> last l a = last l b.
Proof.
  induction l as [|x l IH]; intros H; [congruence|].
  destruct l as [|y l]; [reflexivity|].
  change (last (y :: l) a = last (y :: l) b). apply IH. discriminate.
Qed.

Lemma sample_loop_stopped (o : outcome) (prev : Z) (data : list Z) :
  (forall d, o <> Running d) -> sample_loop' o prev data = o.
Proof.
  intros H. destruct data as [|s rest]; [reflexivity|].
  destruct o as [d| |]; [destruct (H d); reflexivity | reflexivity..].
Qed.

Lemma sample_loop_app (o : outcome) (prev : Z) (l1 l2 : list Z) :
  sample_loop' o prev (l1 ++ l2)
  = sample_loop' (sample_loop' o prev l1) (last l1 prev) l2.
Proof.
  revert o prev. induction l1 as [|s l1 IH]; intros o prev; [reflexivity|].
  destruct o as [d| |].
  - cbn [app sample_loop]. rewrite IH.
    destruct l1 as [|z l1]; [reflexivity|].
    f_equal. change (last (s :: z :: l1) prev) with (last (z :: l1) prev).
    apply last_any_default. discriminate.
  - cbn. symmetry. apply sample_loop_stopped. discriminate.
  - cbn. symmetry. apply sample_loop_stopped. discriminate.
Qed.

(** Only the sign of the previous sample matters. *)
Lemma sample_loop_prev (o : outcome) (p q : Z) (data : list Z) :
  (p >=? 0) = (q >=? 0) -> sample_loop' o p data = sample_loop' o q data.
Proof.
  intros H. destruct data as [|s rest]; [reflexivity|].
  destruct o as [d| |]; try reflexivity.
  cbn [sample_loop]. unfold loop_body, falling_crossing.
  rewrite H. reflexivity.
Qed.

Lemma arm_armed (d d' : decoder) :
  arm' d = Running d' -> arm' d' = Running d'.
Proof.
  unfold arm, ensure_block. destruct (d_cb d) eqn:E.
  - intros [= <-]. rewrite E. reflexivity.
  - destruct (block_malloc_ok (d_nblocks d)); [|discriminate].
    intros [= <-]. reflexivity.
Qed.

Lemma arm_count (d d' : decoder) :
  arm' d = Running d' -> d_count d' = d_count d.
Proof.
  unfold arm, ensure_block. destruct (d_cb d).
  - intros [= <-]. reflexivity.
  - destruct (block_malloc_ok (d_nblocks d)); [|discriminate].
    intros [= <-]. reflexivity.
Qed.

Lemma arm_set_count (n : Z) (d : decoder) :
  arm' (set_count n d)
  = obind (arm' d) (fun d' => Running (set_count n d')).
Proof.
  unfold arm, ensure_block. cbn.
  destruct (d_cb d); [reflexivity|].
  destruct (block_malloc_ok (d_nblocks d)); reflexivity.
Qed.

Lemma loop_body_arm (d : decoder) (prev cur : Z) :
  loop_body' d prev cur = obind (arm' d) (fun d' => loop_body' d' prev cur).
Proof.
  unfold loop_body, arm, ensure_block.
  destruct (d_cb d) eqn:E; cbn.
  - rewrite E. reflexivity.
  - destruct (block_malloc_ok (d_nblocks d)); reflexivity.
Qed.

Lemma loop_body_quiet (d : decoder) (prev cur : Z) :
  falling_crossing prev cur = false ->
  loop_body' d prev cur
  = obind (arm' d) (fun d' => Running (set_count (d_count d + 1) d')).
Proof.
  intros H. unfold loop_body, arm, ensure_block. rewrite H.
  destruct (d_cb d); cbn; [reflexivity|].
  destruct (block_malloc_ok (d_nblocks d)); reflexivity.
Qed.

(** Samples without a falling crossing only count. *)
Lemma quiet_samples (data : list Z) :
  forall (d : decoder) (prev : Z),
    data <> [] -> quiet prev data = true ->
    sample_loop' (Running d) prev data
    = obind (arm' d) (fun d' =>
        Running (set_count (d_count d + Z.of_nat (List.length data)) d')).
Proof.
  induction data as [|s rest IH]; intros d prev Hne Hq; [congruence|].
  cbn [quiet] in Hq. apply andb_true_iff in Hq as [Hs Hq].
  apply negb_true_iff in Hs.
  cbn [sample_loop]. rewrite (loop_body_quiet _ _ _ Hs).
  destruct (arm' d) as [d1| |] eqn:Ea; cbn [obind].
  - destruct rest as [|s' rest'].
    + cbn. do 2 f_equal.
    + rewrite IH by (congruence || assumption).
      rewrite arm_set_count, (arm_armed _ _ Ea). cbn [obind].
      unfold set_count. cbn [d_chain d_cb d_count d_nblocks d_listing].
      do 2 f_equal. cbn [List.length]. lia.
  - apply sample_loop_stopped. discriminate.
  - apply sample_loop_stopped. discriminate.
Qed.

Lemma quiet_square (amp : Z) (a b : nat) :
  0 < amp -> quiet (- amp) (repeat (- amp) a ++ repeat amp b) = true.
Proof.
  intros Hamp. induction a as [|a IH]; cbn.
  - assert (G : forall p, quiet p (repeat amp b) = true).
    { induction b as [|b IHb]; intros p; cbn; [reflexivity|].
      rewrite IHb, andb_true_r. unfold falling_crossing.
      replace (amp <? 0) with false by lia. reflexivity. }
    apply G.
  - rewrite IH, andb_true_r. unfold falling_crossing.
    replace (- amp >=? 0) with false by lia. rewrite andb_false_r.
    reflexivity.
Qed.

Lemma last_square (amp p : Z) (a b : nat) :
  (0 < b)%nat -> last (repeat (- amp) a ++ repeat amp b) p = amp.
Proof.
  intros Hb. destruct b as [|b]; [lia|].
  replace (S b) with (b + 1)%nat by lia.
  rewrite repeat_app, app_assoc. cbn. apply last_last.
Qed.

(** A whole cycle of the square wave amounts to one falling crossing,
    reached with the count advanced by the length of the cycle. *)
Lemma square_cycle_run (amp : Z) (len : nat) (d : decoder) (rest : list Z) :
  0 < amp -> (2 <= len)%nat ->
  sample_loop' (Running d) (- amp) (square_cycle amp len ++ rest)
  = sample_loop' (at_crossing' d (d_count d + Z.of_nat len - 1)) (- amp) rest.
Proof.
  intros Hamp Hlen. unfold square_cycle.
  set (a := ((len - 1) / 2)%nat). set (b := (len - 1 - a)%nat).
  assert (Hb : (0 < b)%nat).
  { subst a b. pose proof (Nat.div_lt (len - 1) 2). lia. }
  assert (Hab : (a + b = len - 1)%nat).
  { subst a b. pose proof (Nat.div_lt (len - 1) 2). lia. }
  rewrite app_assoc, <- app_assoc. rewrite sample_loop_app.
  rewrite (last_square amp (- amp) a b Hb).
  rewrite quiet_samples.
  2:{ destruct b; [lia|]. intros E. apply (f_equal (@List.length Z)) in E.
      rewrite length_app in E. cbn in E. lia. }
  2:{ apply quiet_square; assumption. }
  rewrite length_app, !repeat_length.
  unfold at_crossing. rewrite (loop_body_arm (set_count _ d)).
  rewrite arm_set_count.
  destruct (arm' d) as [d1| |] eqn:Ea; cbn [obind].
  - cbn [app sample_loop].
    replace (d_count d + Z.of_nat (a + b)) with (d_count d + Z.of_nat len - 1)
      by lia.
    f_equal. unfold loop_body, falling_crossing.
    replace (- amp <? 0) with true by lia.
    replace (amp >=? 0) with true by lia. reflexivity.
  - cbn [app]. rewrite !sample_loop_stopped by discriminate. reflexivity.
  - cbn [app]. rewrite !sample_loop_stopped by discriminate. reflexivity.
Qed.

(** A crossing always leaves the loop with [count = 1]. *)
Lemma at_crossing_count (d d' : decoder) (n : Z) :
  at_crossing' d n = Running d' -> d_count d' = 1.
Proof.
  unfold at_crossing, loop_body, ensure_block.
  cbn [set_count d_cb d_nblocks d_listing d_chain d_count].
  assert (G : forall d0 cb0 k, count_up (on_cycle data_malloc_ok d0 cb0 k) = Running d'
                               -> d_count d' = 1).
  { intros d0 cb0 k. unfold on_cycle, settle.
    destruct (process_bit data_malloc_ok _) as [cb1|e|]; try discriminate.
    destruct (block_state_eqb (b_state cb1) BS_DONE).
    - unfold block_done. destruct (b_type cb1 =? BT_EOF).
      + destruct (print_prog _); try discriminate.
        cbn. intros [= <-]. reflexivity.
      + cbn. intros [= <-]. reflexivity.
    - cbn. intros [= <-]. reflexivity. }
  destruct (d_cb d).
  - cbn. apply G.
  - destruct (block_malloc_ok (d_nblocks d)); [|discriminate].
    cbn. apply G.
Qed.

Lemma run_cycles_stopped (o : outcome) (counts : list Z) :
  (forall d, o <> Running d) -> run_cycles' o counts = o.
Proof.
  intros H. induction counts as [|n counts IH]; [reflexivity|].
  cbn. destruct o as [d| |]; [destruct (H d); reflexivity|..];
    cbn [obind]; exact IH.
Qed.

Lemma square_cycles_run (amp : Z) (lens : list nat) :
  0 < amp -> Forall (fun len => (2 <= len)%nat) lens ->
  forall d : decoder, d_count d = 1 ->
    sample_loop' (Running d) (- amp) (List.concat (map (square_cycle amp) lens))
    = run_cycles' (Running d) (map Z.of_nat lens).
Proof.
  intros Hamp Hlens. induction Hlens as [|len lens Hlen _ IH]; intros d Hd;
    [reflexivity|].
  cbn [map List.concat]. rewrite square_cycle_run by assumption.
  rewrite Hd. replace (1 + Z.of_nat len - 1) with (Z.of_nat len) by lia.
  cbn [run_cycles fold_left obind].
  destruct (at_crossing' d (Z.of_nat len)) as [d1| |] eqn:E.
  - apply IH. eapply at_crossing_count; eassumption.
  - rewrite sample_loop_stopped by discriminate.
    symmetry. apply run_cycles_stopped. discriminate.
  - rewrite sample_loop_stopped by discriminate.
    symmetry. apply run_cycles_stopped. discriminate.
Qed.

(** The decode loop over a square wave is a run over its crossings: the
    first crossing is met with [count = 0], every later one with the length
    of the cycle it closes. *)
Lemma main_loop_wave (amp : Z) (lens : list nat) :
  0 < amp -> Forall (fun len => (2 <= len)%nat) lens ->
  main_loop' (wave amp lens)
  = run_cycles' (Running initial_decoder) (0 :: map Z.of_nat lens).
Proof.
  intros Hamp Hlens. unfold wave, main_loop.
  cbn [sample_loop run_cycles fold_left obind].
  assert (E : loop_body' initial_decoder amp (- amp)
              = at_crossing' initial_decoder 0).
  { unfold at_crossing, loop_body, falling_crossing.
    replace (- amp <? 0) with true by lia.
    replace (amp >=? 0) with true by lia. reflexivity. }
  rewrite E.
  destruct (at_crossing' initial_decoder 0) as [d1| |] eqn:E1.
  - apply square_cycles_run; try assumption.
    eapply at_crossing_count; eassumption.
  - rewrite sample_loop_stopped by discriminate.
    symmetry. apply run_cycles_stopped. discriminate.
  - rewrite sample_loop_stopped by discriminate.
    symmetry. apply run_cycles_stopped. discriminate.
Qed.

(** A crossing depends on the count only through its class. *)
Lemma at_crossing_class (d : decoder) (n : Z) :
  at_crossing' d n = on_class' d (classify cfg n).
Proof.
  unfold at_crossing, loop_body, on_class,
    ensure_block, falling_crossing.
  cbn [set_count d_cb d_nblocks d_listing d_chain d_count].
  destruct (d_cb d); [reflexivity|].
  destruct (block_malloc_ok (d_nblocks d)); reflexivity.
Qed.

Lemma run_cycles_classes (counts : list Z) (o : outcome) :
  run_cycles' o counts = run_classes' o (map (classify cfg) counts).
Proof.
  revert o. induction counts as [|n counts IH]; intros o; [reflexivity|].
  unfold run_cycles, run_classes in *. cbn [map fold_left]. rewrite IH.
  f_equal. destruct o as [d| |]; cbn [obind]; try reflexivity.
  apply at_crossing_class.
Qed.

End SamplesToCycles.

(** ** From cycles to bytes *)

(** Reduce field reads of assigned blocks, and nothing else. *)
Ltac block_simpl :=
  cbn [b_state b_type b_length b_cksum b_data b_progname b_filetype
       b_asciiflag b_gapflag b_mlstart b_mlload b_byte b_nbit b_data_i
       b_progname_i b_mlstart_i b_mlload_i
       set_state set_type set_length set_cksum set_data set_progname
       set_filetype set_asciiflag set_gapflag set_mlstart set_mlload
       set_byte set_nbit set_data_i set_progname_i set_mlstart_i
       set_mlload_i next_bit clear_scratch byte_ready] in *.

(** A property checked on all 256 byte values holds of every byte. *)
Lemma byte_cases (P : Z -> bool) :
  forallb P (map Z.of_nat (seq 0 256)) = true ->
  forall v, 0 <= v < 256 -> P v = true.
Proof.
  intros H v Hv. rewrite forallb_forall in H. apply H.
  replace v with (Z.of_nat (Z.to_nat v)) by lia.
  apply in_map, in_seq. lia.
Qed.

(** Eight shifts, least significant bit first, assemble the byte. *)
Lemma shift_in_byte (v : Z) :
  0 <= v < 256 ->
  fold_left (fun byte b => shift_in (class_of_bit b) byte) (bits_of_byte v) 0
  = v.
Proof.
  intros Hv. apply Z.eqb_eq.
  apply (byte_cases (fun v =>
    fold_left (fun byte b => shift_in (class_of_bit b) byte) (bits_of_byte v) 0
    =? v)); [vm_compute; reflexivity | assumption].
Qed.

Lemma classes_of_bytes_cons (v : Z) (bytes : list Z) :
  classes_of_bytes (v :: bytes)
  = map class_of_bit (bits_of_byte v) ++ classes_of_bytes bytes.
Proof. unfold classes_of_bytes, bits_of_bytes. cbn [map List.concat]. apply map_app. Qed.

Lemma classes_of_bytes_app (l1 l2 : list Z) :
  classes_of_bytes (l1 ++ l2) = classes_of_bytes l1 ++ classes_of_bytes l2.
Proof.
  unfold classes_of_bytes, bits_of_bytes.
  rewrite map_app, concat_app, map_app. reflexivity.
Qed.

Section CyclesToBytes.

Variable block_malloc_ok : Z -> bool.
Variable data_malloc_ok : Z -> bool.

Local Abbreviation on_class' := (on_class block_malloc_ok data_malloc_ok).
Local Abbreviation run_classes' := (run_classes block_malloc_ok data_malloc_ok).
Local Abbreviation on_byte' := (on_byte data_malloc_ok).
Local Abbreviation process_bit' := (process_bit data_malloc_ok).

Lemma run_classes_app (o : outcome) (k1 k2 : list cycle) :
  run_classes' o (k1 ++ k2) = run_classes' (run_classes' o k1) k2.
Proof. apply fold_left_app. Qed.

Lemma run_classes_stopped (o : outcome) (ks : list cycle) :
  (forall d, o <> Running d) -> run_classes' o ks = o.
Proof.
  intros H. induction ks as [|k ks IH]; [reflexivity|].
  cbn. destruct o as [d| |]; [destruct (H d); reflexivity|..];
    cbn [obind]; exact IH.
Qed.

(** Between byte boundaries [process_bit] only counts the bit. *)
Lemma process_bit_counts (cb : block) :
  b_state cb <> BS_NEED_SYNCBYTE -> b_state cb <> BS_DONE ->
  b_nbit cb <> 8 ->
  process_bit' cb = PB_ok (next_bit cb).
Proof.
  intros Hs Hd Hn. apply Z.eqb_neq in Hn. unfold process_bit.
  destruct (b_state cb); try congruence; rewrite Hn; reflexivity.
Qed.

(** The result of [process_bit] is settled the same way whatever the
    count and the current block were. *)
Lemma settle_frame (d : decoder) (n : Z) (cb : option block) (r : pb_result) :
  settle (set_count n (set_cb cb d)) r = settle d r.
Proof. destruct r; reflexivity. Qed.

Lemma settle_set_cb (d : decoder) (cb : option block) (r : pb_result) :
  settle (set_cb cb d) r = settle d r.
Proof. destruct r; reflexivity. Qed.

Lemma on_class_current (d : decoder) (cb : block) (k : cycle) :
  d_cb d = Some cb ->
  on_class' d k
  = count_up (settle d (process_bit' (set_byte (shift_in k (b_byte cb)) cb))).
Proof.
  intros H. unfold on_class, ensure_block. rewrite H. reflexivity.
Qed.

Lemma counted_bits_run (bits : list bool) :
  forall (d : decoder) (cb : block) (ks : list cycle),
    d_cb d = Some cb ->
    b_state cb <> BS_NEED_SYNCBYTE -> b_state cb <> BS_DONE ->
    0 <= b_nbit cb -> b_nbit cb + Z.of_nat (List.length bits) <= 8 ->
    bits <> [] ->
    run_classes' (Running d) (map class_of_bit bits ++ ks)
    = run_classes' (Running (set_count 1 (set_cb (Some (counted_bits bits cb)) d))) ks.
Proof.
  induction bits as [|b bits IH]; intros d cb ks Hcb Hs Hd Hn0 Hn Hne;
    [congruence|].
  cbn [map app run_classes fold_left obind].
  rewrite (on_class_current d cb _ Hcb).
  rewrite process_bit_counts; try assumption.
  2:{ cbn. cbn [List.length] in Hn. lia. }
  set (cb1 := next_bit (set_byte (shift_in (class_of_bit b) (b_byte cb)) cb)).
  assert (Hst : b_state cb1 = b_state cb) by reflexivity.
  assert (Hnb : b_nbit cb1 = b_nbit cb + 1).
  { subst cb1. cbn. unfold inc8. cbn [List.length] in Hn.
    apply Z.mod_small. lia. }
  unfold settle. rewrite Hst.
  replace (block_state_eqb (b_state cb) BS_DONE) with false
    by (destruct (b_state cb); congruence || reflexivity).
  cbn [count_up d_count].
  destruct bits as [|b' bits'].
  - reflexivity.
  - change (fold_left _ (map class_of_bit (b' :: bits') ++ ks) ?o)
      with (run_classes' o (map class_of_bit (b' :: bits') ++ ks)).
    match goal with
    | |- run_classes _ _ (Running ?d1) _ = _ =>
        rewrite (IH d1 cb1 ks eq_refl)
    end;
      [ reflexivity | rewrite Hst; assumption | rewrite Hst; assumption
      | lia | rewrite Hnb; cbn [List.length] in *; lia | discriminate ].
Qed.

Lemma counted_seven (cb : block) (b0 b1 b2 b3 b4 b5 b6 : bool) :
  b_nbit cb = 1 -> b_byte cb = 0 ->
  counted_bits [b0; b1; b2; b3; b4; b5; b6] cb
  = byte_ready
      (fold_left (fun byte b => shift_in (class_of_bit b) byte)
         [b0; b1; b2; b3; b4; b5; b6] 0) cb.
Proof.
  intros Hn Hb. destruct cb. cbn [b_nbit b_byte] in Hn, Hb. subst.
  reflexivity.
Qed.

(** Eight cycles that spell a byte, fed to a block at a byte boundary,
    amount to one look of [process_bit] at the whole byte. *)
Lemma byte_run (d : decoder) (cb : block) (v : Z) (ks : list cycle) :
  d_cb d = Some cb ->
  b_state cb <> BS_NEED_SYNCBYTE -> b_state cb <> BS_DONE ->
  b_nbit cb = 1 -> b_byte cb = 0 -> 0 <= v < 256 ->
  run_classes' (Running d) (classes_of_bytes [v] ++ ks)
  = run_classes' (on_byte' d cb v) ks.
Proof.
  intros Hcb Hs Hd Hn Hb Hv.
  pose proof (shift_in_byte v Hv) as Hasm.
  unfold classes_of_bytes, bits_of_bytes, bits_of_byte in *.
  cbn [map List.concat app] in *.
  set (b0 := Z.testbit v 0) in *. set (b1 := Z.testbit v 1) in *.
  set (b2 := Z.testbit v 2) in *. set (b3 := Z.testbit v 3) in *.
  set (b4 := Z.testbit v 4) in *. set (b5 := Z.testbit v 5) in *.
  set (b6 := Z.testbit v 6) in *. set (b7 := Z.testbit v 7) in *.
  change (run_classes' (Running d)
            (map class_of_bit [b0; b1; b2; b3; b4; b5; b6]
             ++ class_of_bit b7 :: ks) = run_classes' (on_byte' d cb v) ks).
  rewrite (counted_bits_run _ d cb); try assumption; try discriminate.
  2:{ lia. }
  2:{ rewrite Hn. cbn. lia. }
  cbn [run_classes fold_left obind].
  change (fold_left _ ks ?o) with (run_classes' o ks). f_equal.
  rewrite (on_class_current _ (counted_bits [b0; b1; b2; b3; b4; b5; b6] cb))
    by reflexivity.
  rewrite settle_frame. unfold on_byte. do 3 f_equal.
  rewrite (counted_seven cb) by assumption. rewrite <- Hasm.
  clear. destruct cb; reflexivity.
Qed.

End CyclesToBytes.

(** ** Frames *)

Lemma store_at_end (got : list Z) (v x : Z) (tail : list Z) :
  store (got ++ x :: tail) (Z.of_nat (List.length got)) v
  = Some (got ++ v :: tail).
Proof.
  unfold store. destruct (Z.ltb_spec (Z.of_nat (List.length got)) 0); [lia|].
  rewrite Nat2Z.id. clear. induction got as [|g got IH]; [reflexivity|].
  cbn. rewrite IH. reflexivity.
Qed.

Lemma fold_add8 (l : list Z) (c : Z) :
  fold_left add8 l (c mod 256) = (c + fold_right Z.add 0 l) mod 256.
Proof.
  revert c. induction l as [|x l IH]; intros c; cbn.
  - rewrite Z.add_0_r. reflexivity.
  - unfold add8 at 2. rewrite Z.add_mod_idemp_l by lia. rewrite IH.
    f_equal. lia.
Qed.

Lemma fold_add8_start (l : list Z) (a b : Z) :
  fold_left add8 l (add8 a b) = (a + b + fold_right Z.add 0 l) mod 256.
Proof. unfold add8 at 2. apply fold_add8. Qed.

Section Frames.

Variable block_malloc_ok : Z -> bool.
Variable data_malloc_ok : Z -> bool.

Local Abbreviation on_class' := (on_class block_malloc_ok data_malloc_ok).
Local Abbreviation run_classes' := (run_classes block_malloc_ok data_malloc_ok).
Local Abbreviation on_byte' := (on_byte data_malloc_ok).
Local Abbreviation process_bit' := (process_bit data_malloc_ok).

(** The sync byte, met by a hunting block whose byte is clear, is found at
    its eighth bit and not before. *)
Lemma sync_run (d : decoder) (cb : block) (ks : list cycle) :
  d_cb d = Some cb -> b_state cb = BS_NEED_SYNCBYTE -> b_byte cb = 0 ->
  run_classes' (Running d) (classes_of_bytes [SYNCBYTE] ++ ks)
  = run_classes'
      (Running (set_count 1
         (set_cb (Some (set_state BS_NEED_BLOCKTYPE (set_nbit 1 cb))) d))) ks.
Proof.
  intros Hcb Hs Hb. rewrite run_classes_app. f_equal.
  destruct d, cb. cbn [d_cb b_state b_byte] in *. subst.
  vm_compute. reflexivity.
Qed.

(** [process_bit] on a payload byte. *)
Lemma process_bit_data (len ck v : Z) (got : list Z) (pad : nat) :
  0 <= v < 256 -> Z.of_nat (List.length got) < 255 ->
  process_bit' (byte_ready v (data_block BS_NEED_DATA len ck got (S pad)))
  = PB_ok (data_block
             (if len =? Z.of_nat (List.length got) + 1
              then BS_NEED_CKSUM else BS_NEED_DATA)
             len (add8 ck v) (got ++ [v]) pad).
Proof.
  intros Hv Hgot. unfold process_bit, data_block. block_simpl.
  cbn [Z.eqb Pos.eqb repeat]. rewrite store_at_end.
  unfold inc8. rewrite Z.mod_small by lia.
  rewrite length_app, Nat2Z.inj_add, <- app_assoc. cbn [List.length app].
  change (Z.of_nat 1) with 1.
  destruct (len =? Z.of_nat (List.length got) + 1); reflexivity.
Qed.

(** The payload of a Data block: every byte is stored, summed and counted,
    and the last one moves the block on to the checksum. *)
Lemma data_payload_run (rest : list Z) :
  forall (d : decoder) (len ck : Z) (got : list Z) (ks : list cycle),
    d_cb d = Some (data_block BS_NEED_DATA len ck got (S (List.length rest))) ->
    rest <> [] -> bytes_ok rest ->
    Z.of_nat (List.length got) + Z.of_nat (List.length rest) = len ->
    len <= 255 ->
    run_classes' (Running d) (classes_of_bytes rest ++ ks)
    = run_classes'
        (Running (set_count 1
           (set_cb (Some (data_block BS_NEED_CKSUM len (fold_left add8 rest ck)
                            (got ++ rest) 1)) d))) ks.
Proof.
  induction rest as [|v rest IH]; intros d len ck got ks Hcb Hne Hok Hlen Hmax;
    [congruence|].
  inversion Hok as [|? ? Hv Hok']; subst.
  rewrite classes_of_bytes_cons, <- app_assoc.
  change (map class_of_bit (bits_of_byte v)) with (classes_of_bytes [v]) at 1.
  rewrite (byte_run _ _ d _ v _ Hcb); try discriminate; try reflexivity;
    try assumption.
  unfold on_byte. rewrite process_bit_data by (cbn [List.length] in *; lia).
  destruct rest as [|v' rest'].
  - cbn [List.length] in *. change (Z.of_nat 1) with 1 in *.
    rewrite Z.eqb_refl.
    cbn [classes_of_bytes bits_of_bytes map List.concat app fold_left].
    reflexivity.
  - cbn [List.length] in *.
    match goal with
    | |- context [?a =? ?b] => destruct (Z.eqb_spec a b); [lia|]
    end.
    unfold settle. cbn [data_block b_state block_state_eqb count_up].
    match goal with
    | |- run_classes _ _ (Running ?d1) _ = _ =>
        rewrite (IH d1 _ (add8 ck v) (got ++ [v]) ks eq_refl)
    end.
    + rewrite <- app_assoc. reflexivity.
    + discriminate.
    + assumption.
    + rewrite length_app. cbn [List.length] in *. lia.
    + assumption.
Qed.

Lemma classes_of_bytes_one (v : Z) (bytes : list Z) :
  classes_of_bytes (v :: bytes) = classes_of_bytes [v] ++ classes_of_bytes bytes.
Proof. apply (classes_of_bytes_app [v] bytes). Qed.

(** A decoder without a current block gets one at the next crossing. *)
Lemma run_classes_arm (d : decoder) (ks : list cycle) :
  d_cb d = None -> block_malloc_ok (d_nblocks d) = true -> ks <> [] ->
  run_classes' (Running d) ks
  = run_classes'
      (Running {| d_chain := d_chain d; d_cb := Some new_block;
                  d_count := d_count d; d_nblocks := d_nblocks d + 1;
                  d_listing := d_listing d |}) ks.
Proof.
  intros Hcb Hok Hne. destruct ks as [|k ks]; [congruence|].
  cbn [run_classes fold_left obind]. f_equal.
  unfold on_class, ensure_block. cbn [d_cb d_nblocks]. rewrite Hcb, Hok.
  reflexivity.
Qed.

(** The type and length bytes of a Data block. *)
Lemma data_header_run (d : decoder) (t l c len : Z) (ks : list cycle) :
  d_cb d = Some (set_state BS_NEED_BLOCKTYPE (hunting_block t l c 1)) ->
  0 <= len < 256 -> data_malloc_ok (len + 1) = true ->
  run_classes' (Running d) (classes_of_bytes [BT_DATA; len] ++ ks)
  = run_classes'
      (Running (set_count 1
         (set_cb (Some (data_block BS_NEED_DATA len (add8 BT_DATA len) []
                          (Z.to_nat (len + 1)))) d))) ks.
Proof.
  intros Hcb Hlen Hok.
  rewrite classes_of_bytes_one, <- app_assoc.
  rewrite (byte_run _ _ d _ BT_DATA _ Hcb); try discriminate;
    try reflexivity; [|unfold BT_DATA; lia].
  change (on_byte' d (set_state BS_NEED_BLOCKTYPE (hunting_block t l c 1)) BT_DATA)
    with (Running (set_count 1 (set_cb (Some
            (set_cksum BT_DATA (set_type BT_DATA (set_state BS_NEED_LENGTH
               (hunting_block t l c 1))))) d))).
  match goal with
  | |- run_classes _ _ (Running ?d1) _ = _ =>
      rewrite (byte_run _ _ d1 _ len ks eq_refl)
  end; try discriminate; try reflexivity; try assumption.
  f_equal. unfold on_byte, process_bit, hunting_block. block_simpl.
  cbn [Z.eqb Pos.eqb BT_DATA BT_NAME BT_EOF]. rewrite Hok. reflexivity.
Qed.

(** The checksum byte: a match moves the block on to the trailing leader
    byte, a mismatch ends the run. *)
Lemma checksum_run (d : decoder) (cb : block) (c : Z) (ks : list cycle) :
  d_cb d = Some cb -> b_state cb = BS_NEED_CKSUM ->
  b_nbit cb = 1 -> b_byte cb = 0 -> 0 <= c < 256 ->
  run_classes' (Running d) (classes_of_bytes [c] ++ ks)
  = if c =? b_cksum cb
    then run_classes'
           (Running (set_count 1
              (set_cb (Some (set_state BS_NEED_LEADBYTE cb)) d))) ks
    else Exited 1 (d_listing d).
Proof.
  intros Hcb Hs Hn Hb Hc.
  rewrite (byte_run _ _ d cb c _ Hcb); try assumption;
    try (rewrite Hs; discriminate).
  unfold on_byte, process_bit. block_simpl. rewrite Hs.
  cbn [Z.eqb Pos.eqb]. destruct (c =? b_cksum cb).
  - f_equal. destruct cb. block_simpl. subst. reflexivity.
  - cbn [negb settle count_up]. apply run_classes_stopped. discriminate.
Qed.

(** The trailing leader byte, whatever its value, completes the block. *)
Lemma lead_run (d : decoder) (cb : block) (v : Z) (ks : list cycle) :
  d_cb d = Some cb -> b_state cb = BS_NEED_LEADBYTE ->
  b_nbit cb = 1 -> b_byte cb = 0 -> 0 <= v < 256 ->
  run_classes' (Running d) (classes_of_bytes [v] ++ ks)
  = run_classes'
      (count_up (block_done (set_count 0 d) (set_state BS_DONE cb))) ks.
Proof.
  intros Hcb Hs Hn Hb Hv.
  rewrite (byte_run _ _ d cb v _ Hcb); try assumption;
    try (rewrite Hs; discriminate).
  f_equal. unfold on_byte, process_bit. block_simpl. rewrite Hs.
  cbn [Z.eqb Pos.eqb settle b_state set_state block_state_eqb].
  block_simpl. cbn [block_state_eqb]. do 2 f_equal.
  destruct cb. block_simpl. subst. reflexivity.
Qed.

(** A whole Data frame met by a hunting block puts one finished Data block
    with that payload on the chain. *)
Lemma data_frame_run (d : decoder) (t l c n : Z) (bytes : list Z)
    (ks : list cycle) :
  d_cb d = Some (hunting_block t l c n) ->
  bytes <> [] -> bytes_ok bytes -> Z.of_nat (List.length bytes) <= 255 ->
  data_malloc_ok (Z.of_nat (List.length bytes) + 1) = true ->
  run_classes' (Running d) (classes_of_bytes (data_frame bytes) ++ ks)
  = run_classes' (Running (with_block (decoded_data bytes) d)) ks.
Proof.
  intros Hcb Hne Hok Hlen Hmem. unfold data_frame.
  set (len := Z.of_nat (List.length bytes)) in *.
  change ([SYNCBYTE; BT_DATA; len] ++ bytes ++ [sum8 (BT_DATA :: len :: bytes); LEADERBYTE])
    with ([SYNCBYTE] ++ [BT_DATA; len] ++ bytes
          ++ [sum8 (BT_DATA :: len :: bytes)] ++ [LEADERBYTE]).
  rewrite !classes_of_bytes_app, <- !app_assoc.
  rewrite (sync_run d _ _ Hcb) by reflexivity.
  rewrite (data_header_run _ t l c len); [|reflexivity|lia|assumption].
  rewrite (data_payload_run bytes _ len (add8 BT_DATA len) []);
    [ | cbn; do 3 f_equal; lia | assumption | assumption | cbn; lia | lia ].
  assert (Hsum : fold_left add8 bytes (add8 BT_DATA len)
                 = sum8 (BT_DATA :: len :: bytes)).
  { unfold add8 at 2. rewrite fold_add8. unfold sum8. cbn [fold_right].
    f_equal. lia. }
  rewrite Hsum. cbn [app].
  match goal with
  | |- run_classes _ _ (Running ?d1) _ = _ =>
      rewrite (checksum_run d1 _ (sum8 (BT_DATA :: len :: bytes)) _ eq_refl)
  end; try reflexivity.
  cbn [data_block b_cksum]. rewrite Z.eqb_refl.
  match goal with
  | |- run_classes _ _ (Running ?d1) _ = _ =>
      rewrite (lead_run d1 _ LEADERBYTE _ eq_refl)
  end; try reflexivity.
  - unfold LEADERBYTE. lia.
  - unfold sum8. apply Z.mod_pos_bound. lia.
Qed.

(** Feed one byte to the current block and compute what becomes of the
    decoder, leaving the running sum as it is written. *)
Ltac byte_step v :=
  rewrite (classes_of_bytes_one v), <- app_assoc;
  match goal with
  | |- run_classes _ _ (Running ?d1) (classes_of_bytes [v] ++ ?ks) = _ =>
      rewrite (byte_run _ _ d1 _ v ks eq_refl);
      [ match goal with
        | |- run_classes _ _ ?o _ = _ =>
            let o' := eval cbv -[add8] in o in change o with o'
        end
      | discriminate | discriminate | reflexivity | reflexivity | ]
  end.

(** Type, length and body of a Name block. *)
Lemma name_body_run (d : decoder) (t l c : Z) (body : list Z) :
  d_cb d = Some (set_state BS_NEED_BLOCKTYPE (hunting_block t l c 1)) ->
  List.length body = 15%nat -> bytes_ok body ->
  exists cb',
    awaits_checksum cb' (sum8 (BT_NAME :: NAMEBLOCKLEN :: body))
    /\ forall ks,
        run_classes' (Running d)
          (classes_of_bytes (BT_NAME :: NAMEBLOCKLEN :: body) ++ ks)
        = run_classes' (Running (set_count 1 (set_cb (Some cb') d))) ks.
Proof.
  intros Hcb Hlen Hok.
  do 16 (destruct body as [|? body]; try discriminate Hlen). clear Hlen.
  repeat match goal with
         | H : bytes_ok (_ :: _) |- _ => inversion H as [|? ? ? ?]; subst; clear H
         | H : Forall _ (_ :: _) |- _ => inversion H as [|? ? ? ?]; subst; clear H
         end.
  destruct d as [chain cb0 count nblocks listing].
  cbn [d_cb] in Hcb. subst cb0.
  eexists. split; [|intros ks].
  2:{ byte_step BT_NAME; [|unfold BT_NAME; lia].
      byte_step NAMEBLOCKLEN; [|unfold NAMEBLOCKLEN; lia].
      byte_step z; [|assumption]. byte_step z0; [|assumption].
      byte_step z1; [|assumption]. byte_step z2; [|assumption].
      byte_step z3; [|assumption]. byte_step z4; [|assumption].
      byte_step z5; [|assumption]. byte_step z6; [|assumption].
      byte_step z7; [|assumption]. byte_step z8; [|assumption].
      byte_step z9; [|assumption]. byte_step z10; [|assumption].
      byte_step z11; [|assumption]. byte_step z12; [|assumption].
      byte_step z13; [|assumption].
      reflexivity. }
  unfold awaits_checksum. cbn [b_state b_nbit b_byte b_cksum].
  repeat split; try reflexivity.
  transitivity
    (fold_left add8
       [z; z0; z1; z2; z3; z4; z5; z6; z7; z8; z9; z10; z11; z12; z13]
       (add8 0 15)).
  - cbn [fold_left]. reflexivity.
  - rewrite fold_add8_start. unfold sum8, BT_NAME, NAMEBLOCKLEN.
    cbn [fold_right]. apply (f_equal (fun x => x mod 256)). lia.
Qed.

(** Type, length and body of any well-formed block bring the block to its
    checksum byte with the sum of all of them run up. *)
Lemma frame_body_run (d : decoder) (t0 l0 c0 t len : Z) (body : list Z) :
  d_cb d = Some (set_state BS_NEED_BLOCKTYPE (hunting_block t0 l0 c0 1)) ->
  frame_body t len body -> bytes_ok body ->
  (t = BT_DATA -> data_malloc_ok (len + 1) = true) ->
  exists cb',
    awaits_checksum cb' (sum8 (t :: len :: body))
    /\ forall ks,
        run_classes' (Running d) (classes_of_bytes (t :: len :: body) ++ ks)
        = run_classes' (Running (set_count 1 (set_cb (Some cb') d))) ks.
Proof.
  intros Hcb [(-> & -> & Hlen) | [(-> & Hlen & Hbody) | (-> & -> & ->)]]
    Hok Hmem.
  - apply (name_body_run d t0 l0 c0); assumption.
  - exists (data_block BS_NEED_CKSUM len (sum8 (BT_DATA :: len :: body)) body 1).
    split; [repeat split|]. intros ks.
    change (BT_DATA :: len :: body) with ([BT_DATA; len] ++ body).
    rewrite classes_of_bytes_app, <- app_assoc.
    rewrite (data_header_run d t0 l0 c0 len);
      [ | assumption | lia | apply Hmem; reflexivity ].
    rewrite (data_payload_run body _ len (add8 BT_DATA len) []);
      [ | cbn; do 3 f_equal; lia | | assumption | cbn; lia | lia ].
    2:{ destruct body; [cbn in Hbody; lia | discriminate]. }
    assert (Hsum : fold_left add8 body (add8 BT_DATA len)
                   = sum8 ([BT_DATA; len] ++ body)).
    { unfold add8 at 2. rewrite fold_add8. unfold sum8. cbn [fold_right app].
      f_equal. lia. }
    rewrite Hsum. reflexivity.
  - destruct d as [chain cb0 count nblocks listing].
    cbn [d_cb] in Hcb. subst cb0.
    eexists. split; [|intros ks].
    2:{ byte_step BT_EOF; [|unfold BT_EOF; lia].
        byte_step 0; [|lia]. reflexivity. }
    repeat split.
Qed.

(** The checksum byte after a well-formed block: a byte other than the sum
    ends the run at once, the sum itself leaves the block waiting for the
    trailing leader byte. *)
Lemma frame_checksum_run (d : decoder) (t0 l0 c0 t len c : Z)
    (body : list Z) :
  d_cb d = Some (set_state BS_NEED_BLOCKTYPE (hunting_block t0 l0 c0 1)) ->
  frame_body t len body -> bytes_ok body -> 0 <= c < 256 ->
  (t = BT_DATA -> data_malloc_ok (len + 1) = true) ->
  (c <> sum8 (t :: len :: body) ->
   forall ks,
     run_classes' (Running d)
       (classes_of_bytes (t :: len :: body ++ [c]) ++ ks)
     = Exited 1 (d_listing d))
  /\ (c = sum8 (t :: len :: body) ->
      exists cb',
        b_state cb' = BS_NEED_LEADBYTE
        /\ forall ks,
            run_classes' (Running d)
              (classes_of_bytes (t :: len :: body ++ [c]) ++ ks)
            = run_classes' (Running (set_count 1 (set_cb (Some cb') d))) ks).
Proof.
  intros Hcb Hbody Hok Hc Hmem.
  destruct (frame_body_run d t0 l0 c0 t len body Hcb Hbody Hok Hmem)
    as (cb' & (Hs & Hn & Hb & Hck) & Hrun).
  assert (Hstep : forall ks,
    run_classes' (Running d) (classes_of_bytes (t :: len :: body ++ [c]) ++ ks)
    = if c =? sum8 (t :: len :: body)
      then run_classes'
             (Running (set_count 1
                (set_cb (Some (set_state BS_NEED_LEADBYTE cb')) d))) ks
      else Exited 1 (d_listing d)).
  { intros ks.
    change (t :: len :: body ++ [c]) with ((t :: len :: body) ++ [c]).
    rewrite classes_of_bytes_app, <- app_assoc, Hrun.
    rewrite (checksum_run (set_count 1 (set_cb (Some cb') d)) cb' c ks
               eq_refl Hs Hn Hb Hc), Hck.
    destruct d; reflexivity. }
  split.
  - intros Hne ks. rewrite Hstep.
    destruct (Z.eqb_spec c (sum8 (t :: len :: body))); [congruence|reflexivity].
  - intros ->. exists (set_state BS_NEED_LEADBYTE cb'). split; [reflexivity|].
    intros ks. rewrite Hstep, Z.eqb_refl. reflexivity.
Qed.

End Frames.

(** ** Recordings of byte sequences *)

Section Recordings.

Variable block_malloc_ok : Z -> bool.
Variable data_malloc_ok : Z -> bool.
Variable cfg : config.
Variable amp : Z.
Variables l1 l0 : nat.
Hypothesis timing : well_timed cfg amp l1 l0.

Local Abbreviation main_loop' := (main_loop block_malloc_ok data_malloc_ok cfg).
Local Abbreviation run_classes' := (run_classes block_malloc_ok data_malloc_ok).

Lemma classify_lens (bits : list bool) :
  map (classify cfg) (map Z.of_nat (lens_of_bits l1 l0 bits))
  = map class_of_bit bits.
Proof.
  destruct timing as (_ & _ & _ & H1 & H0).
  induction bits as [|b bits IH]; [reflexivity|].
  cbn [lens_of_bits map]. f_equal; [|exact IH].
  destruct b; assumption.
Qed.

(** The decode loop over the recording of a byte sequence is a run over
    the classes of its bits, after the class of the very first crossing. *)
Lemma main_loop_bytes (bytes : list Z) :
  main_loop' (wave_of_bytes amp l1 l0 bytes)
  = run_classes' (Running initial_decoder)
      (classify cfg 0 :: classes_of_bytes bytes).
Proof.
  destruct timing as (Hamp & Hl1 & Hl0 & _ & _).
  unfold wave_of_bytes. rewrite main_loop_wave; [|assumption|].
  - rewrite run_cycles_classes. cbn [map]. rewrite classify_lens.
    reflexivity.
  - unfold lens_of_bits. apply Forall_map, Forall_forall.
    intros [|] _; assumption.
Qed.

(** Bytes recorded after others are decoded from where those left the
    decoder. *)
Lemma main_loop_bytes_app (pre more : list Z) :
  main_loop' (wave_of_bytes amp l1 l0 (pre ++ more))
  = run_classes' (main_loop' (wave_of_bytes amp l1 l0 pre))
      (classes_of_bytes more).
Proof.
  rewrite !main_loop_bytes, classes_of_bytes_app.
  change (classify cfg 0 :: classes_of_bytes pre ++ classes_of_bytes more)
    with ((classify cfg 0 :: classes_of_bytes pre) ++ classes_of_bytes more).
  apply run_classes_app.
Qed.

End Recordings.

(** ** The decoded Data block of a synthetic recording *)

Lemma first_crossing_run (block_malloc_ok data_malloc_ok : Z -> bool)
    (k : cycle) (ks : list cycle) :
  k <> One -> block_malloc_ok 0 = true ->
  run_classes block_malloc_ok data_malloc_ok (Running initial_decoder)
    (k :: ks)
  = run_classes block_malloc_ok data_malloc_ok
      (Running {| d_chain := []; d_cb := Some new_block; d_count := 1;
                  d_nblocks := 1; d_listing := EmptyString |}) ks.
Proof.
  intros Hk Hok. cbn [run_classes fold_left obind]. f_equal.
  unfold on_class, ensure_block. cbn [d_cb d_nblocks initial_decoder].
  rewrite Hok. destruct k; [congruence|reflexivity..].
Qed.

(** C1. A recording whose cycle lengths spell sync 0x3C, type 0x01,
    length 0x03, the payload 0x1E 0x00 0x41, the checksum of type, length
    and payload, and the leader byte 0x55 leaves the decode loop with
    exactly one block on the chain and none under construction; that block
    is complete ([BS_DONE]), of type Data, and its payload is
    0x1E 0x00 0x41. *)
Theorem data_block_round_trip (block_malloc_ok data_malloc_ok : Z -> bool)
    (cfg : config) (amp : Z) (l1 l0 : nat) :
  well_timed cfg amp l1 l0 -> classify cfg 0 <> One ->
  block_malloc_ok 0 = true -> data_malloc_ok 4 = true ->
  exists cb,
    main_loop block_malloc_ok data_malloc_ok cfg
      (wave_of_bytes amp l1 l0
         [0x3C; 0x01; 0x03; 0x1E; 0x00; 0x41;
          sum8 [0x01; 0x03; 0x1E; 0x00; 0x41]; 0x55])
    = Running {| d_chain := [cb]; d_cb := None; d_count := 1;
                 d_nblocks := 1; d_listing := EmptyString |}
    /\ b_state cb = BS_DONE /\ b_type cb = BT_DATA /\ b_length cb = 3
    /\ payload cb = Some [0x1E; 0x00; 0x41].
Proof.
  intros Htime Hfirst Hblock Hdata.
  exists (decoded_data [0x1E; 0x00; 0x41]).
  split; [|repeat split].
  rewrite (main_loop_bytes _ _ _ _ _ _ Htime).
  rewrite first_crossing_run by assumption.
  change [0x3C; 0x01; 0x03; 0x1E; 0x00; 0x41;
          sum8 [0x01; 0x03; 0x1E; 0x00; 0x41]; 0x55]
    with (data_frame [0x1E; 0x00; 0x41]).
  rewrite <- (app_nil_r (classes_of_bytes _)).
  rewrite (data_frame_run _ _ _ 0 0 0 0); try reflexivity.
  - discriminate.
  - repeat constructor; lia.
  - cbn. lia.
  - exact Hdata.
Qed.

Lemma data_block_round_trip_witness :
  exists cb,
    main_loop always always default_config
      (wave_of_bytes 16000 18 37
         [0x3C; 0x01; 0x03; 0x1E; 0x00; 0x41;
          sum8 [0x01; 0x03; 0x1E; 0x00; 0x41]; 0x55])
    = Running {| d_chain := [cb]; d_cb := None; d_count := 1;
                 d_nblocks := 1; d_listing := EmptyString |}
    /\ b_state cb = BS_DONE /\ b_type cb = BT_DATA /\ b_length cb = 3
    /\ payload cb = Some [0x1E; 0x00; 0x41].
Proof.
  apply (data_block_round_trip always always default_config 16000 18 37).
  - unfold well_timed. repeat split; try lia; reflexivity.
  - vm_compute. discriminate.
  - reflexivity.
  - reflexivity.
Defined.

(** ** Checksum enforcement *)

(** C2. For a block of any kind being decoded (the decoder stands just
    after a sync byte), once type, length and body have been received the
    next byte is compared with the sum modulo 256 of all of them: a
    different byte ends the whole run with [exit(1)] whatever is recorded
    after it, and the sum itself leaves the block waiting for the trailing
    leader byte. *)
Theorem checksum_decides (block_malloc_ok data_malloc_ok : Z -> bool)
    (cfg : config) (amp : Z) (l1 l0 : nat) (pre : list Z) (d : decoder)
    (t0 len0 c0 t len c : Z) (body : list Z) :
  well_timed cfg amp l1 l0 ->
  main_loop block_malloc_ok data_malloc_ok cfg (wave_of_bytes amp l1 l0 pre)
  = Running d ->
  d_cb d = Some (set_state BS_NEED_BLOCKTYPE (hunting_block t0 len0 c0 1)) ->
  frame_body t len body -> bytes_ok body -> 0 <= c < 256 ->
  (t = BT_DATA -> data_malloc_ok (len + 1) = true) ->
  (c <> sum8 (t :: len :: body) ->
   forall rest,
     main_loop block_malloc_ok data_malloc_ok cfg
       (wave_of_bytes amp l1 l0 (pre ++ t :: len :: body ++ c :: rest))
     = Exited 1 (d_listing d))
  /\ (c = sum8 (t :: len :: body) ->
      exists cb',
        b_state cb' = BS_NEED_LEADBYTE
        /\ main_loop block_malloc_ok data_malloc_ok cfg
             (wave_of_bytes amp l1 l0 (pre ++ t :: len :: body ++ [c]))
           = Running (set_count 1 (set_cb (Some cb') d))).
Proof.
  intros Htime Hpre Hcb Hbody Hok Hc Hmem.
  destruct (frame_checksum_run block_malloc_ok data_malloc_ok d t0 len0 c0
              t len c body Hcb Hbody Hok Hc Hmem) as [Hbad Hgood].
  split.
  - intros Hne rest.
    rewrite (main_loop_bytes_app _ _ _ _ _ _ Htime), Hpre.
    change (t :: len :: body ++ c :: rest)
      with ((t :: len :: body) ++ [c] ++ rest).
    rewrite app_assoc, classes_of_bytes_app. apply (Hbad Hne).
  - intros Heq. destruct (Hgood Heq) as (cb' & Hs & Hrun).
    exists cb'. split; [assumption|].
    rewrite (main_loop_bytes_app _ _ _ _ _ _ Htime), Hpre.
    rewrite <- (app_nil_r (classes_of_bytes _)). rewrite Hrun. reflexivity.
Qed.

Lemma checksum_decides_witness :
  (forall rest,
     main_loop always always default_config
       (wave_of_bytes 16000 18 37
          ([0x3C] ++ 0x01 :: 0x03 :: [0x1E; 0x00; 0x41] ++ 0x64 :: rest))
     = Exited 1 EmptyString)
  /\ (exists cb',
        b_state cb' = BS_NEED_LEADBYTE
        /\ main_loop always always default_config
             (wave_of_bytes 16000 18 37
                ([0x3C] ++ 0x01 :: 0x03 :: [0x1E; 0x00; 0x41] ++ [0x63]))
           = Running
               (set_count 1
                  (set_cb (Some cb')
                     {| d_chain := [];
                        d_cb := Some (set_state BS_NEED_BLOCKTYPE
                                        (hunting_block 0 0 0 1));
                        d_count := 1; d_nblocks := 1;
                        d_listing := EmptyString |}))).
Proof.
  assert (Htime : well_timed default_config 16000 18 37)
    by (unfold well_timed; repeat split; try lia; reflexivity).
  assert (Hpre : main_loop always always default_config
                   (wave_of_bytes 16000 18 37 [0x3C])
                 = Running
                     {| d_chain := [];
                        d_cb := Some (set_state BS_NEED_BLOCKTYPE
                                        (hunting_block 0 0 0 1));
                        d_count := 1; d_nblocks := 1;
                        d_listing := EmptyString |})
    by (vm_compute; reflexivity).
  assert (Hbody : frame_body 0x01 0x03 [0x1E; 0x00; 0x41])
    by (right; left; repeat split; unfold BT_DATA; cbn; lia).
  assert (Hok : bytes_ok [0x1E; 0x00; 0x41]) by (repeat constructor; lia).
  split.
  - apply (proj1 (checksum_decides always always default_config 16000 18 37
                    [0x3C] _ 0 0 0 0x01 0x03 0x64 [0x1E; 0x00; 0x41]
                    Htime Hpre eq_refl Hbody Hok ltac:(lia)
                    (fun _ => eq_refl))).
    vm_compute. discriminate.
  - apply (proj2 (checksum_decides always always default_config 16000 18 37
                    [0x3C] _ 0 0 0 0x01 0x03 0x63 [0x1E; 0x00; 0x41]
                    Htime Hpre eq_refl Hbody Hok ltac:(lia)
                    (fun _ => eq_refl))).
    vm_compute. reflexivity.
Defined.

(** ** Resynchronisation after a bad block type *)

Section Resync.

Variable block_malloc_ok : Z -> bool.
Variable data_malloc_ok : Z -> bool.

Local Abbreviation on_class' := (on_class block_malloc_ok data_malloc_ok).
Local Abbreviation run_classes' := (run_classes block_malloc_ok data_malloc_ok).
Local Abbreviation resynced' := (resynced block_malloc_ok).
Local Abbreviation between_blocks' := (between_blocks block_malloc_ok).

Lemma twins_step (d : decoder) (a b : block) (n : Z) (k : cycle) :
  sync_twins a b ->
  on_class' (set_count n (set_cb (Some a) d)) k
  = on_class' (set_cb (Some b) d) k
  \/ exists a' b',
       sync_twins a' b'
       /\ on_class' (set_count n (set_cb (Some a) d)) k
          = Running (set_count 1 (set_cb (Some a') d))
       /\ on_class' (set_cb (Some b) d) k
          = Running (set_count 1 (set_cb (Some b') d)).
Proof.
  intros [Hs Heq].
  assert (Hsb : b_state b = BS_NEED_SYNCBYTE).
  { apply (f_equal b_state) in Heq. cbn in Heq. congruence. }
  assert (Hbyte : b_byte a = b_byte b).
  { apply (f_equal b_byte) in Heq. exact Heq. }
  rewrite (on_class_current _ _ (set_count n (set_cb (Some a) d)) a k eq_refl).
  rewrite (on_class_current _ _ (set_cb (Some b) d) b k eq_refl).
  rewrite settle_frame.
  rewrite settle_set_cb.
  unfold process_bit. block_simpl. rewrite Hs, Hsb, Hbyte.
  destruct (shift_in k (b_byte b) =? SYNCBYTE).
  - left. do 3 f_equal. destruct a, b. block_simpl.
    injection Heq as; subst. reflexivity.
  - right.
    exists (set_byte (shift_in k (b_byte b)) a),
           (set_byte (shift_in k (b_byte b)) b).
    split; [split|split].
    + exact Hs.
    + destruct a, b. block_simpl. injection Heq as; subst. reflexivity.
    + unfold settle. block_simpl. rewrite Hs. reflexivity.
    + unfold settle. block_simpl. rewrite Hsb. reflexivity.
Qed.

Lemma resynced_step (a b : decoder) (k : cycle) :
  resynced' a b ->
  on_class' a k = on_class' b k
  \/ exists a' b',
       resynced' a' b'
       /\ on_class' a k = Running a' /\ on_class' b k = Running b'.
Proof.
  intros [d x y n Htw | d x n Hcb Hok Htw].
  - destruct (twins_step d x y n k Htw) as [E | (x' & y' & Htw' & Ea & Eb)];
      [left; exact E|right].
    exists (set_count 1 (set_cb (Some x') d)), (set_count 1 (set_cb (Some y') d)).
    split; [|split; assumption].
    exact (resynced_armed block_malloc_ok (set_count 1 d) x' y' 1 Htw').
  - set (d1 := {| d_chain := d_chain d; d_cb := Some new_block;
                  d_count := d_count d; d_nblocks := d_nblocks d + 1;
                  d_listing := d_listing d |}).
    assert (Eb : on_class' d k = on_class' (set_cb (Some new_block) d1) k).
    { unfold on_class, ensure_block. cbn [d_cb set_cb d1].
      rewrite Hcb, Hok. reflexivity. }
    rewrite Eb.
    change {| d_chain := d_chain d; d_cb := Some x; d_count := n;
              d_nblocks := d_nblocks d + 1; d_listing := d_listing d |}
      with (set_count n (set_cb (Some x) d1)).
    destruct (twins_step d1 x new_block n k Htw)
      as [E | (x' & y' & Htw' & Ea & Eb')]; [left; exact E|right].
    exists (set_count 1 (set_cb (Some x') d1)),
           (set_count 1 (set_cb (Some y') d1)).
    split; [|split; assumption].
    exact (resynced_armed block_malloc_ok (set_count 1 d1) x' y' 1 Htw').
Qed.

(** Whatever is recorded next, the two decoders decode the same. *)
Lemma resynced_run (ks : list cycle) :
  forall a b : decoder,
    resynced' a b ->
    decoded_of (run_classes' (Running a) ks)
    = decoded_of (run_classes' (Running b) ks).
Proof.
  induction ks as [|k ks IH]; intros a b H.
  - destruct H; reflexivity.
  - cbn [run_classes fold_left obind].
    destruct (resynced_step a b k H) as [E | (a' & b' & H' & Ea & Eb)].
    + rewrite E. reflexivity.
    + rewrite Ea, Eb. apply IH. exact H'.
Qed.

(** A byte that is no block type, where the type is expected, sends the
    block back to the hunt for the sync byte. *)
Lemma bad_type_run (d : decoder) (cb : block) (t : Z) (ks : list cycle) :
  d_cb d = Some cb -> b_state cb = BS_NEED_BLOCKTYPE ->
  b_nbit cb = 1 -> b_byte cb = 0 -> 0 <= t < 256 ->
  t <> BT_NAME -> t <> BT_DATA -> t <> BT_EOF ->
  run_classes' (Running d) (classes_of_bytes [t] ++ ks)
  = run_classes'
      (Running (set_count 1
         (set_cb (Some (set_state BS_NEED_SYNCBYTE cb)) d))) ks.
Proof.
  intros Hcb Hs Hn Hb Ht H0 H1 H2.
  rewrite (byte_run _ _ d cb t ks Hcb); try assumption;
    try (rewrite Hs; discriminate).
  f_equal. unfold on_byte, process_bit. block_simpl. rewrite Hs.
  cbn [Z.eqb Pos.eqb].
  apply Z.eqb_neq in H0, H1, H2. rewrite H0, H1, H2.
  cbn [orb settle]. block_simpl. cbn [block_state_eqb count_up].
  clear Hcb. destruct d, cb. cbn [b_nbit b_byte] in Hn, Hb. subst.
  reflexivity.
Qed.

(** After a sync byte followed by a byte that is no block type the decoder
    hunts for the sync byte again, with the chain and the listing it had. *)
Lemma bad_type_resync (d : decoder) (t : Z) :
  between_blocks' d -> 0 <= t < 256 ->
  t <> BT_NAME -> t <> BT_DATA -> t <> BT_EOF ->
  exists a,
    resynced' a d
    /\ (exists cb, d_cb a = Some cb /\ b_state cb = BS_NEED_SYNCBYTE)
    /\ forall ks,
        run_classes' (Running d) (classes_of_bytes [SYNCBYTE; t] ++ ks)
        = run_classes' (Running a) ks.
Proof.
  intros [[Hcb Hok] | (cb & Hcb & Hs & Hb)] Ht H0 H1 H2.
  - exists {| d_chain := d_chain d; d_cb := Some (set_nbit 1 new_block);
              d_count := 1; d_nblocks := d_nblocks d + 1;
              d_listing := d_listing d |}.
    split; [|split].
    + apply resynced_fresh; try assumption. split; reflexivity.
    + eexists. split; reflexivity.
    + intros ks. rewrite run_classes_arm; [|assumption..|discriminate].
      rewrite (classes_of_bytes_one SYNCBYTE), <- app_assoc.
      match goal with
      | |- run_classes _ _ (Running ?d1) _ = _ =>
          rewrite (sync_run _ _ d1 new_block _ eq_refl eq_refl eq_refl)
      end.
      match goal with
      | |- run_classes _ _ (Running ?d1) _ = _ =>
          rewrite (bad_type_run d1 _ t ks eq_refl eq_refl eq_refl eq_refl
                     Ht H0 H1 H2)
      end.
      reflexivity.
  - exists (set_count 1 (set_cb (Some (set_nbit 1 cb)) d)).
    split; [|split].
    + replace d with (set_cb (Some cb) d) at 2
        by (destruct d; cbn in *; subst; reflexivity).
      apply resynced_armed. split; [assumption|].
      destruct cb; reflexivity.
    + eexists. split; [reflexivity|assumption].
    + intros ks.
      rewrite (classes_of_bytes_one SYNCBYTE), <- app_assoc.
      rewrite (sync_run _ _ d cb _ Hcb Hs Hb).
      match goal with
      | |- run_classes _ _ (Running ?d1) _ = _ =>
          rewrite (bad_type_run d1 _ t ks eq_refl eq_refl eq_refl Hb
                     Ht H0 H1 H2)
      end.
      f_equal. destruct d, cb. cbn in *. subst. reflexivity.
Qed.

End Resync.




(** Both frames around the rejected bytes are decoded. *)
Example resynchronisation_example :
  decoded_of
    (main_loop always always default_config
       (wave_of_bytes 16000 18 37
          (data_frame [0x1E; 0x00; 0x41] ++ [SYNCBYTE; 0x02]
           ++ data_frame [0x1F; 0x2A])))
  = Blocks [decoded_data [0x1E; 0x00; 0x41]; decoded_data [0x1F; 0x2A]]
      EmptyString.
Proof. vm_compute. reflexivity. Qed.

(** ** Thresholds *)

(** The claim of C3 fails for the boundary [zero_low] under the thresholds
    the program starts with: [z_zero_low] and [O_one_high] are both 31, and
    a cycle of 31 samples is a one. *)
Lemma zero_low_boundary_counterexample :
  classify default_config (z_zero_low default_config) = One
  /\ classify default_config (z_zero_low default_config) <> Zero.
Proof. split; [reflexivity | discriminate]. Qed.

(** C3 (amended). A cycle is a one iff [one_low <= c <= one_high];
    otherwise it is a zero iff [zero_low <= c <= zero_high]; otherwise it is
    invalid.  The intervals are closed: [one_high] is a one whenever
    [one_low <= one_high], [zero_low] is a zero whenever
    [zero_low <= zero_high] and [zero_low] lies outside the range of the
    ones, and every count strictly between [one_high] and [zero_low] is
    invalid. *)
Theorem classify_closed_intervals (cfg : config) (c : Z) :
  (classify cfg c = One <-> o_one_low cfg <= c <= O_one_high cfg)
  /\ (classify cfg c = Zero <->
      ~ (o_one_low cfg <= c <= O_one_high cfg)
      /\ z_zero_low cfg <= c <= Z_zero_high cfg)
  /\ (classify cfg c = Invalid <->
      ~ (o_one_low cfg <= c <= O_one_high cfg)
      /\ ~ (z_zero_low cfg <= c <= Z_zero_high cfg))
  /\ (o_one_low cfg <= O_one_high cfg ->
      classify cfg (O_one_high cfg) = One)
  /\ (z_zero_low cfg <= Z_zero_high cfg ->
      ~ (o_one_low cfg <= z_zero_low cfg <= O_one_high cfg) ->
      classify cfg (z_zero_low cfg) = Zero)
  /\ (O_one_high cfg < c < z_zero_low cfg -> classify cfg c = Invalid).
Proof.
  split; [apply classify_one|].
  split; [apply classify_zero|].
  split; [apply classify_invalid|].
  split; [|split].
  - intros H. apply classify_one. lia.
  - intros H Hout. apply classify_zero. split; [assumption|lia].
  - intros H. apply classify_invalid. lia.
Qed.

Lemma classify_closed_intervals_witness :
  classify {| z_zero_low := 32; Z_zero_high := 1000;
              o_one_low := 18; O_one_high := 28 |} 28 = One
  /\ classify {| z_zero_low := 32; Z_zero_high := 1000;
                 o_one_low := 18; O_one_high := 28 |} 32 = Zero
  /\ classify {| z_zero_low := 32; Z_zero_high := 1000;
                 o_one_low := 18; O_one_high := 28 |} 30 = Invalid.
Proof.
  destruct (classify_closed_intervals
              {| z_zero_low := 32; Z_zero_high := 1000;
                 o_one_low := 18; O_one_high := 28 |} 30)
    as (_ & _ & _ & Hone & Hzero & Hgap).
  split; [|split].
  - apply Hone. cbn. lia.
  - apply Hzero; cbn; lia.
  - apply Hgap. cbn. lia.
Defined.

(** C8. The thresholds the program starts with are 18 and 31 for a one and
    31 and 1000 for a zero, where the usage text documents 32 and no upper
    bound: a cycle of 1001 samples is invalid, and a cycle of 31 samples
    would be a zero once [-O] lowers the upper bound of the ones. *)
Theorem default_thresholds :
  default_config
  = {| z_zero_low := 31; Z_zero_high := 1000;
       o_one_low := 18; O_one_high := 31 |}
  /\ classify default_config 1001 = Invalid
  /\ classify {| z_zero_low := z_zero_low default_config;
                 Z_zero_high := Z_zero_high default_config;
                 o_one_low := o_one_low default_config;
                 O_one_high := 30 |} 31 = Zero.
Proof. repeat split. Qed.

(** X1. Up to 1000 samples the thresholds the program starts with class every
    cycle as the documented ones (18, 31, 32, no upper bound) would. *)
Lemma default_thresholds_as_documented (c : Z) :
  c <= 1000 ->
  classify default_config c
  = if (18 <=? c) && (c <=? 31) then One
    else if 32 <=? c then Zero else Invalid.
Proof.
  intros Hc. unfold classify, default_config, ZL, ZH, OL, OH. cbn.
  destruct (Z.geb_spec c 18), (Z.leb_spec c 31), (Z.leb_spec 18 c),
    (Z.geb_spec c 31), (Z.leb_spec c 1000), (Z.leb_spec 32 c);
    cbn; try reflexivity; lia.
Qed.

Lemma default_thresholds_as_documented_witness :
  classify default_config 31
  = if (18 <=? 31) && (31 <=? 31) then One
    else if 32 <=? 31 then Zero else Invalid.
Proof. apply default_thresholds_as_documented. lia. Defined.

(** ** Falling crossings *)

(** C9. The very first falling crossing of a recording is classified like
    every other one, with the number of samples before it as its count:
    after nineteen samples above zero and one below, a one has been shifted
    into the byte of the first block. *)
Theorem first_crossing_is_classified :
  falling_crossing 100 (-100) = true
  /\ classify default_config 18 = One
  /\ main_loop always always default_config (repeat 100 19 ++ [-100])
     = Running {| d_chain := [];
                  d_cb := Some (set_byte 0x80 new_block);
                  d_count := 1; d_nblocks := 1;
                  d_listing := EmptyString |}.
Proof. repeat split. Qed.

(** X2. At a later crossing the count is the length of the cycle that the
    crossing closes. *)
Lemma later_crossings_measure_cycles (block_malloc_ok data_malloc_ok : Z -> bool)
    (cfg : config) (amp : Z) (lens : list nat) :
  0 < amp -> Forall (fun len => (2 <= len)%nat) lens ->
  main_loop block_malloc_ok data_malloc_ok cfg (wave amp lens)
  = run_classes block_malloc_ok data_malloc_ok (Running initial_decoder)
      (classify cfg 0 :: map (classify cfg) (map Z.of_nat lens)).
Proof.
  intros Hamp Hlens. rewrite main_loop_wave by assumption.
  apply run_cycles_classes.
Qed.

Lemma later_crossings_measure_cycles_witness :
  main_loop always always default_config
    (wave 16000 [18%nat; 37%nat; 5%nat])
  = run_classes always always (Running initial_decoder)
      (classify default_config 0
       :: map (classify default_config)
            (map Z.of_nat [18%nat; 37%nat; 5%nat])).
Proof.
  apply later_crossings_measure_cycles; [lia | repeat constructor; lia].
Defined.

(** ** Noise cycles *)

(** X3. A noise cycle leaves the byte alone but is counted as a bit wherever
    bits are counted. *)
Lemma noise_is_counted (block_malloc_ok data_malloc_ok : Z -> bool)
    (d : decoder) (cb : block) :
  d_cb d = Some cb ->
  b_state cb <> BS_NEED_SYNCBYTE -> b_state cb <> BS_DONE ->
  b_nbit cb <> 8 ->
  on_class block_malloc_ok data_malloc_ok d Invalid
  = Running (set_count 1 (set_cb (Some (next_bit cb)) d)).
Proof.
  intros Hcb Hs Hd Hn.
  rewrite (on_class_current _ _ d cb Invalid Hcb). cbn [shift_in].
  replace (set_byte (b_byte cb) cb) with cb by (destruct cb; reflexivity).
  rewrite process_bit_counts by assumption.
  unfold settle. block_simpl.
  replace (block_state_eqb (b_state cb) BS_DONE) with false
    by (destruct (b_state cb); congruence || reflexivity).
  reflexivity.
Qed.

Lemma noise_is_counted_witness :
  on_class always always
    {| d_chain := [];
       d_cb := Some (set_state BS_NEED_BLOCKTYPE (hunting_block 0 0 0 1));
       d_count := 5; d_nblocks := 1; d_listing := EmptyString |} Invalid
  = Running
      (set_count 1
         (set_cb
            (Some (next_bit
                     (set_state BS_NEED_BLOCKTYPE (hunting_block 0 0 0 1))))
            {| d_chain := [];
               d_cb := Some (set_state BS_NEED_BLOCKTYPE
                               (hunting_block 0 0 0 1));
               d_count := 5; d_nblocks := 1; d_listing := EmptyString |})).
Proof.
  apply noise_is_counted; [reflexivity | discriminate.. ].
Defined.

(** C4. A cycle of five samples is noise under the thresholds the program
    starts with.  Recorded right after the sync byte it advances the bit
    count of the block from 1 to 2 although no bit entered the byte, and
    the Data frame that follows is lost: no block is decoded, where the
    same recording without the noise cycle decodes one. *)
Theorem noise_cycle_advances_bit_count :
  classify default_config 5 = Invalid
  /\ main_loop always always default_config
       (wave 16000 (lens_of_bits 18 37 (bits_of_bytes [0x3C])))
     = Running {| d_chain := [];
                  d_cb := Some (set_state BS_NEED_BLOCKTYPE
                                  (set_nbit 1 new_block));
                  d_count := 1; d_nblocks := 1; d_listing := EmptyString |}
  /\ main_loop always always default_config
       (wave 16000 (lens_of_bits 18 37 (bits_of_bytes [0x3C]) ++ [5%nat]))
     = Running {| d_chain := [];
                  d_cb := Some (set_state BS_NEED_BLOCKTYPE
                                  (set_nbit 2 new_block));
                  d_count := 1; d_nblocks := 1; d_listing := EmptyString |}
  /\ decoded_of
       (main_loop always always default_config
          (wave 16000
             (lens_of_bits 18 37 (bits_of_bytes [0x3C]) ++ [5%nat]
              ++ lens_of_bits 18 37
                   (bits_of_bytes [0x01; 0x03; 0x1E; 0x00; 0x41; 0x63; 0x55]))))
     = Blocks [] EmptyString
  /\ decoded_of
       (main_loop always always default_config
          (wave 16000
             (lens_of_bits 18 37 (bits_of_bytes [0x3C])
              ++ lens_of_bits 18 37
                   (bits_of_bytes [0x01; 0x03; 0x1E; 0x00; 0x41; 0x63; 0x55]))))
     = Blocks [decoded_data [0x1E; 0x00; 0x41]] EmptyString.
Proof. repeat split; vm_compute; reflexivity. Qed.

(** ** The payload buffer *)

(** The buffer of a Data block decoded from a frame with a payload of 1 to
    255 bytes holds the payload and one more byte, which is zero. *)
Lemma guard_byte_of_decoded_data (bytes : list Z) :
  b_data (decoded_data bytes) = Some (bytes ++ [0])
  /\ buffer_size (decoded_data bytes) = b_length (decoded_data bytes) + 1
  /\ data_at (decoded_data bytes) (b_length (decoded_data bytes)) = Some 0
  /\ payload (decoded_data bytes) = Some bytes.
Proof.
  unfold decoded_data, data_block, buffer_size, data_at, payload, load.
  cbn [b_data b_length repeat option_map].
  repeat split.
  - rewrite length_app. cbn. lia.
  - destruct (Z.ltb_spec (Z.of_nat (List.length bytes)) 0); [lia|].
    rewrite Nat2Z.id, nth_error_app2, Nat.sub_diag by lia. reflexivity.
  - rewrite Nat2Z.id, firstn_app, Nat.sub_diag, firstn_all. cbn.
    rewrite app_nil_r. reflexivity.
Qed.

(** C10. A Data block with length byte 0 gets a buffer of one byte, and its
    first payload byte is stored at index 0, the index of the guard byte:
    after sync, type 0x01, length 0x00 and the byte 0x41 the buffer holds
    0x41 at index [b_length], and the next payload byte is stored outside
    the buffer. *)
Theorem zero_length_data_block_overruns :
  main_loop always always default_config
    (wave_of_bytes 16000 18 37 [0x3C; 0x01; 0x00; 0x41])
  = Running {| d_chain := [];
               d_cb := Some (data_block BS_NEED_DATA 0 0x42 [0x41] 0);
               d_count := 1; d_nblocks := 1; d_listing := EmptyString |}
  /\ data_at (data_block BS_NEED_DATA 0 0x42 [0x41] 0)
       (b_length (data_block BS_NEED_DATA 0 0x42 [0x41] 0)) = Some 0x41
  /\ main_loop always always default_config
       (wave_of_bytes 16000 18 37 [0x3C; 0x01; 0x00; 0x41; 0x42])
     = Undefined.
Proof. repeat split; vm_compute; reflexivity. Qed.

(** ** Rendering of a line body *)

Local Open Scope string_scope.

(** The claim of C6 fails at the bytes 0xDF and 0x00: 0xDF is a token (the
    test is [c < 0xe0]) and a zero byte prints nothing. *)
Lemma token_range_counterexample :
  asciidump [0xDF] = Some "DSKI$"
  /\ asciidump [0xDF] <> Some (escaped_hex 0xDF)
  /\ asciidump [0x00] = Some ""
  /\ asciidump [0x00] <> Some (escaped_hex 0x00).
Proof. repeat split; discriminate. Qed.

Lemma keyword_token (c : Z) :
  0x80 <= c <= 0xDF -> exists kw, keyword token (c - 0x80) = Some kw.
Proof.
  intros Hc. unfold keyword.
  destruct (Z.ltb_spec (c - 0x80) 0); [lia|].
  destruct (nth_error token (Z.to_nat (c - 0x80))) as [kw|] eqn:E;
    [exists kw; reflexivity|].
  apply nth_error_None in E. cbn in E. lia.
Qed.

Lemma keyword_ftoken (n : Z) :
  0x80 <= n <= 0xA6 -> exists kw, keyword ftoken (n - 0x80) = Some kw.
Proof.
  intros Hn. unfold keyword.
  destruct (Z.ltb_spec (n - 0x80) 0); [lia|].
  destruct (nth_error ftoken (Z.to_nat (n - 0x80))) as [kw|] eqn:E;
    [exists kw; reflexivity|].
  apply nth_error_None in E. cbn in E. lia.
Qed.

(** C6 (amended). Rendering a line body byte by byte: a printable ASCII
    byte (0x20 to 0x7E) is printed as it is; a byte from 0x80 to 0xDF
    inclusive prints the keyword at index [c - 0x80] of [token] (0x80 prints
    FOR, 0xDF prints DSKI$); the byte 0xFF takes the next byte [n] with it
    and, for [n] from 0x80 to 0xA6, prints the keyword at index [n - 0x80]
    of [ftoken] (0xFF 0x80 prints SGN); any other byte except zero prints
    as backslash, x and two hexadecimal digits (0x01 prints \x01); a zero
    byte prints nothing. *)
Theorem asciidump_renders (c : Z) (rest : list Z) :
  (0x20 <= c <= 0x7E ->
   asciidump (c :: rest)
   = option_map (String (char_of_byte c)) (asciidump rest))
  /\ (0x80 <= c <= 0xDF ->
      exists kw,
        keyword token (c - 0x80) = Some kw
        /\ asciidump (c :: rest) = option_map (append kw) (asciidump rest))
  /\ (forall n, 0x80 <= n <= 0xA6 ->
      exists kw,
        keyword ftoken (n - 0x80) = Some kw
        /\ asciidump (0xFF :: n :: rest)
           = option_map (append kw) (asciidump rest))
  /\ ((0 < c < 0x20 \/ c = 0x7F \/ 0xE0 <= c < 0xFF) ->
      asciidump (c :: rest)
      = option_map (append (escaped_hex c)) (asciidump rest))
  /\ asciidump (0 :: rest) = asciidump rest
  /\ asciidump [0x80] = Some "FOR"
  /\ asciidump [0xFF; 0x80] = Some "SGN"
  /\ asciidump [0x01] = Some "\x01".
Proof.
  split; [|split; [|split; [|split; [|repeat split]]]].
  - intros Hc. cbn [asciidump]. unfold isprint.
    destruct (Z.leb_spec 0x20 c), (Z.leb_spec c 0x7E); try lia.
    reflexivity.
  - intros Hc. destruct (keyword_token c Hc) as [kw Hkw].
    exists kw. split; [assumption|].
    cbn [asciidump]. unfold isprint.
    destruct (Z.leb_spec 0x20 c), (Z.leb_spec c 0x7E); try lia;
      cbn [andb];
      destruct (Z.ltb_spec 0x7f c), (Z.ltb_spec c 0xe0); try lia;
      cbn [andb]; rewrite Hkw; reflexivity.
  - intros n Hn. destruct (keyword_ftoken n Hn) as [kw Hkw].
    exists kw. split; [assumption|].
    cbn [asciidump]. change (isprint 0xFF) with false.
    cbn [andb Z.ltb Z.eqb Pos.eqb Z.compare Pos.compare Pos.compare_cont].
    rewrite Hkw. reflexivity.
  - intros Hc. cbn [asciidump]. unfold isprint.
    destruct (Z.leb_spec 0x20 c), (Z.leb_spec c 0x7E); try lia;
      cbn [andb];
      destruct (Z.ltb_spec 0x7f c), (Z.ltb_spec c 0xe0); try lia;
      cbn [andb];
      destruct (Z.eqb_spec c 0xff); try lia;
      destruct (Z.eqb_spec c 0); try lia; reflexivity.
Qed.

Lemma asciidump_renders_witness :
  asciidump [0x41; 0x42] = option_map (String (char_of_byte 0x41)) (Some "B")
  /\ (exists kw,
        keyword token (0x87 - 0x80) = Some kw
        /\ asciidump [0x87; 0x41]
           = option_map (append kw) (asciidump [0x41]))
  /\ (exists kw,
        keyword ftoken (0x8B - 0x80) = Some kw
        /\ asciidump [0xFF; 0x8B; 0x41]
           = option_map (append kw) (asciidump [0x41]))
  /\ asciidump [0x7F; 0x41]
     = option_map (append (escaped_hex 0x7F)) (asciidump [0x41]).
Proof.
  destruct (asciidump_renders 0x41 [0x42]) as (Hprint & _).
  destruct (asciidump_renders 0x87 [0x41]) as (_ & Htoken & _).
  destruct (asciidump_renders 0x7F [0x41]) as (_ & _ & Hftoken & Hhex & _).
  split; [|split; [|split]].
  - apply Hprint. lia.
  - apply Htoken. lia.
  - apply (Hftoken 0x8B). lia.
  - apply Hhex. right. left. reflexivity.
Defined.

Local Close Scope string_scope.

(** ** The end of the program *)

Lemma read_line_not_stop (c : cursor) (cb : block) :
  read_line c cb <> LineStop.
Proof.
  unfold read_line, bind_cursor.
  repeat match goal with
         | |- context [match ?x with _ => _ end] => destruct x
         end; discriminate.
Qed.

Lemma three_nulls_true (cb : block) (i : Z) :
  three_nulls cb i = Some true <->
  b_length cb - i = 2 /\ data_at cb i = Some 0
  /\ data_at cb (i + 1) = Some 0 /\ data_at cb (i + 2) = Some 0.
Proof.
  unfold three_nulls, and_then, is_null, option_map.
  destruct (Z.eqb_spec (b_length cb - i) 2) as [E|E].
  - destruct (data_at cb i) as [x0|]; [|intuition congruence].
    destruct (Z.eqb_spec x0 0) as [->|]; [|intuition congruence].
    destruct (data_at cb (i + 1)) as [x1|]; [|intuition congruence].
    destruct (Z.eqb_spec x1 0) as [->|]; [|intuition congruence].
    destruct (data_at cb (i + 2)) as [x2|]; [|intuition congruence].
    destruct (Z.eqb_spec x2 0) as [->|]; intuition congruence.
  - intuition congruence.
Qed.

(** The claim of C5 fails when three null bytes remain: after the line of
    this block three bytes are left, all zero, and the listing ends in
    [exit(1)] on a bad start of line; with two null bytes left it ends
    well. *)
Lemma three_remaining_nulls_counterexample :
  b_length (decoded_data [0x1E; 0x07; 0x00; 0x0A; 0x41; 0; 0; 0; 0]) - 6 = 3
  /\ data_at (decoded_data [0x1E; 0x07; 0x00; 0x0A; 0x41; 0; 0; 0; 0]) 6
     = Some 0
  /\ data_at (decoded_data [0x1E; 0x07; 0x00; 0x0A; 0x41; 0; 0; 0; 0]) 7
     = Some 0
  /\ data_at (decoded_data [0x1E; 0x07; 0x00; 0x0A; 0x41; 0; 0; 0; 0]) 8
     = Some 0
  /\ line_step
       {| cur := [decoded_data [0x1E; 0x07; 0x00; 0x0A; 0x41; 0; 0; 0; 0]];
          idx := 6; blkn := 0x1E |}
     = LineExit BadStartOfLine
  /\ print_prog [decoded_data [0x1E; 0x07; 0x00; 0x0A; 0x41; 0; 0; 0; 0]]
     = PP_exit ("   10 A" ++ newline) BadStartOfLine
  /\ print_prog [decoded_data [0x1E; 0x07; 0x00; 0x0A; 0x41; 0; 0; 0]]
     = PP_return ("   10 A" ++ newline) EndOfProgram.
Proof. repeat split; vm_compute; reflexivity. Qed.

(** C5 (amended). At the start of a line the listing stops as the end of
    the program exactly when two bytes remain in the current block
    ([b_length - i = 2]) and the three bytes at [i], [i+1] and [i+2] (the
    two remaining bytes and the byte after the payload) are zero; it then
    returns at once, with nothing more printed. *)
Theorem end_of_program_test (c : cursor) (cb : block) (next : list block) :
  cur c = cb :: next ->
  (line_step c = LineStop <->
   b_length cb - idx c = 2 /\ data_at cb (idx c) = Some 0
   /\ data_at cb (idx c + 1) = Some 0 /\ data_at cb (idx c + 2) = Some 0)
  /\ (line_step c = LineStop ->
      forall fuel out, walk (S fuel) c out = PP_return out EndOfProgram).
Proof.
  intros Hcur. split.
  - rewrite <- three_nulls_true. unfold line_step. rewrite Hcur.
    destruct (three_nulls cb (idx c)) as [[|]|].
    + tauto.
    + split; [|discriminate]. intros H. destruct (read_line_not_stop _ _ H).
    + split; discriminate.
  - intros Hstop fuel out. cbn [walk]. rewrite Hcur, Hstop. reflexivity.
Qed.

Lemma end_of_program_test_witness :
  line_step
    {| cur := [decoded_data [0x1E; 0x07; 0x00; 0x0A; 0x41; 0; 0; 0]];
       idx := 6; blkn := 0x1E |} = LineStop
  /\ forall fuel out,
       walk (S fuel)
         {| cur := [decoded_data [0x1E; 0x07; 0x00; 0x0A; 0x41; 0; 0; 0]];
            idx := 6; blkn := 0x1E |} out
       = PP_return out EndOfProgram.
Proof.
  destruct (end_of_program_test
              {| cur := [decoded_data [0x1E; 0x07; 0x00; 0x0A; 0x41; 0; 0; 0]];
                 idx := 6; blkn := 0x1E |}
              (decoded_data [0x1E; 0x07; 0x00; 0x0A; 0x41; 0; 0; 0]) []
              eq_refl) as [Hiff Hret].
  assert (Hstop : line_step
            {| cur := [decoded_data [0x1E; 0x07; 0x00; 0x0A; 0x41; 0; 0; 0]];
               idx := 6; blkn := 0x1E |} = LineStop).
  { apply Hiff. repeat split. }
  split; [exact Hstop | exact (Hret Hstop)].
Defined.

(** ** [print_prog] terminates *)

Lemma buffer_size_nonneg (cb : block) : 0 <= buffer_size cb.
Proof. unfold buffer_size. destruct (b_data cb); lia. Qed.

Lemma chain_room_nonneg (chain : list block) : 0 <= chain_room chain.
Proof.
  induction chain as [|cb next IH]; cbn; [lia|].
  pose proof (buffer_size_nonneg cb). lia.
Qed.

Lemma later_refl (c : cursor) : later c c.
Proof. left. split; [reflexivity|lia]. Qed.

Lemma later_trans (a b c : cursor) : later a b -> later b c -> later a c.
Proof.
  intros [[Eab Iab] | (x & nx & Ea & Rab)] [[Ebc Ibc] | (y & ny & Eb & Rbc)].
  - left. split; [congruence|lia].
  - right. exists y, ny. split; [congruence|assumption].
  - right. exists x, nx. split; [assumption|]. rewrite Ebc. assumption.
  - right. exists x, nx. split; [assumption|].
    rewrite Eb in Rab. cbn in Rab.
    pose proof (buffer_size_nonneg y). lia.
Qed.

Lemma advance_later (c c' : cursor) :
  advance c = Some c' -> 0 <= idx c ->
  0 <= idx c'
  /\ ((cur c' = cur c /\ idx c' = idx c + 1)
      \/ exists cb, cur c = cb :: cur c').
Proof.
  unfold advance. destruct (cur c) as [|cb next] eqn:E; [discriminate|].
  destruct (idx c + 1 =? b_length cb); intros [= <-] Hi; cbn.
  - split; [lia|]. right. exists cb. reflexivity.
  - split; [lia|]. left. split; reflexivity.
Qed.

Lemma advance_later_weak (c c' : cursor) :
  advance c = Some c' -> 0 <= idx c -> 0 <= idx c' /\ later c c'.
Proof.
  intros H Hi. destruct (advance_later c c' H Hi) as [Hi' [[E I] | (cb & E)]].
  - split; [assumption|]. left. split; [assumption|lia].
  - split; [assumption|]. right. exists cb, (cur c').
    split; [assumption|lia].
Qed.

Lemma copy_line_later (room : nat) :
  forall (c : cursor) (j : Z) (line : list Z) (c' : cursor) (line' : list Z),
    copy_line room c j line = Copied c' line' -> 0 <= idx c ->
    0 <= idx c' /\ later c c'.
Proof.
  induction room as [|room IH]; intros c j line c' line' H Hi;
    cbn [copy_line] in H; destruct (peek c) as [b|]; try discriminate;
    destruct (b =? 0).
  - injection H as <- <-. split; [assumption|apply later_refl].
  - discriminate.
  - injection H as <- <-. split; [assumption|apply later_refl].
  - destruct (advance c) as [c1|] eqn:Ea; [|discriminate].
    destruct (j + 1 >=? LINELEN); [discriminate|].
    destruct (advance_later_weak c c1 Ea Hi) as [Hi1 L1].
    destruct (IH c1 _ _ _ _ H Hi1) as [Hi' L'].
    split; [assumption|]. eapply later_trans; eassumption.
Qed.

Lemma data_at_in_buffer (cb : block) (i v : Z) :
  data_at cb i = Some v -> 0 <= i < buffer_size cb.
Proof.
  unfold data_at, buffer_size, load. destruct (b_data cb) as [buf|];
    [|discriminate].
  destruct (Z.ltb_spec i 0); [discriminate|]. intros Hv.
  assert (Hn : nth_error buf (Z.to_nat i) <> None) by congruence.
  apply nth_error_Some in Hn. lia.
Qed.

(** A line that is read moves the cursor on, from a byte inside the
    current buffer. *)
Lemma read_line_progress (c : cursor) (cb : block) (next : list block)
    (c' : cursor) (text : string) :
  cur c = cb :: next -> 0 <= idx c ->
  read_line c cb = LineDone c' text ->
  0 <= idx c' /\ idx c < buffer_size cb
  /\ ((cur c' = cur c /\ idx c < idx c')
      \/ chain_room (cur c') <= chain_room next).
Proof.
  intros Hcur Hi. unfold read_line.
  destruct (data_at cb (idx c)) as [b0|] eqn:E0; [|discriminate].
  apply data_at_in_buffer in E0.
  destruct (negb (b0 =? blkn c) && negb (b0 =? blkn c + 1)); [discriminate|].
  unfold bind_cursor.
  destruct (advance c) as [c1|] eqn:A1; [|discriminate].
  destruct (advance c1) as [c2|] eqn:A2; [|discriminate].
  destruct (peek c2); [|discriminate].
  destruct (advance c2) as [c3|] eqn:A3; [|discriminate].
  destruct (peek c3); [|discriminate].
  destruct (advance c3) as [c4|] eqn:A4; [|discriminate].
  destruct (copy_line (Z.to_nat LINELEN) c4 0 []) as [c5 line| |] eqn:C5;
    try discriminate.
  destruct (advance c5) as [c6|] eqn:A6; [|discriminate].
  destruct (asciidump line); [|discriminate].
  intros [= <- _].
  destruct (advance_later c c1 A1 Hi) as [Hi1 S1].
  destruct (advance_later_weak c1 c2 A2 Hi1) as [Hi2 L2].
  destruct (advance_later_weak c2 c3 A3 Hi2) as [Hi3 L3].
  destruct (advance_later_weak c3 c4 A4 Hi3) as [Hi4 L4].
  destruct (copy_line_later _ _ _ _ _ _ C5 Hi4) as [Hi5 L5].
  destruct (advance_later_weak c5 c6 A6 Hi5) as [Hi6 L6].
  assert (L : later c1 c6).
  { eapply later_trans; [exact L2|]. eapply later_trans; [exact L3|].
    eapply later_trans; [exact L4|]. eapply later_trans; [exact L5|].
    exact L6. }
  split; [assumption|]. split; [lia|].
  destruct S1 as [[E1 I1] | (x & E1)].
  - destruct L as [[E I] | (y & ny & E & R)].
    + left. split; [congruence|lia].
    + right. rewrite E1, Hcur in E. injection E as <- <-. assumption.
  - rewrite Hcur in E1. injection E1 as <- E1.
    destruct L as [[E I] | (y & ny & E & R)].
    + right. rewrite E, <- E1. lia.
    + right. rewrite E1, E. cbn. pose proof (buffer_size_nonneg y). lia.
Qed.

Lemma line_step_progress (c c' : cursor) (text : string) :
  0 <= idx c -> line_step c = LineDone c' text ->
  0 <= idx c' /\ room_left c' < room_left c.
Proof.
  intros Hi. unfold line_step.
  destruct (cur c) as [|cb next] eqn:Hcur; [discriminate|].
  destruct (three_nulls cb (idx c)) as [[|]|]; try discriminate.
  intros H.
  destruct (read_line_progress c cb next c' text Hcur Hi H)
    as (Hi' & Hin & Hmove).
  split; [assumption|].
  unfold room_left. rewrite Hcur.
  pose proof (chain_room_nonneg next). pose proof (buffer_size_nonneg cb).
  destruct Hmove as [[E I] | R].
  - rewrite E, Hcur. cbn [chain_room]. lia.
  - cbn [chain_room].
    destruct (cur c') as [|cb' next']; [lia|].
    pose proof (buffer_size_nonneg cb'). lia.
Qed.

Lemma walk_total (fuel : nat) :
  forall (c : cursor) (out : string),
    0 <= idx c -> room_left c <= Z.of_nat fuel ->
    walk fuel c out <> PP_out_of_fuel.
Proof.
  induction fuel as [|fuel IH]; intros c out Hi Hroom; cbn [walk];
    destruct (cur c) as [|cb next] eqn:Hcur; try discriminate.
  - unfold room_left in Hroom. rewrite Hcur in Hroom. cbn in Hroom.
    pose proof (chain_room_nonneg next). pose proof (buffer_size_nonneg cb).
    lia.
  - destruct (line_step c) as [c' text| | |] eqn:Hstep; try discriminate.
    destruct (line_step_progress c c' text Hi Hstep) as [Hi' Hless].
    apply IH; [assumption|lia].
Qed.

(** X4. [print_prog] always comes to an end: every line read moves the
    walk on by at least one byte of the chain, so the fuel given to the
    loop - the bytes of the buffers of the chain, plus one per block - is
    never used up. *)
Lemma print_prog_total (chain : list block) :
  print_prog chain <> PP_out_of_fuel.
Proof.
  unfold print_prog. destruct (skip_to_data chain) as [|cb next];
    [discriminate|].
  destruct (data_at cb 0); [|discriminate].
  apply walk_total; cbn [idx]; [lia|].
  unfold room_left. cbn [cur idx].
  pose proof (chain_room_nonneg (cb :: next)).
  pose proof (buffer_size_nonneg cb). lia.
Qed.

(** The bound on the copy loop is the one of the code: with room for the
    bytes that [LINELEN] still allows, more room changes nothing. *)
Lemma copy_line_room (room : nat) :
  forall (c : cursor) (j : Z) (line : list Z),
    j < LINELEN -> LINELEN - j <= Z.of_nat room ->
    copy_line (S room) c j line = copy_line room c j line.
Proof.
  induction room as [|room IH]; intros c j line Hj Hroom; [lia|].
  change (copy_line (S (S room)) c j line)
    with (match peek c with
          | None => CopyFault
          | Some b =>
              if b =? 0 then Copied c line
              else match advance c with
                   | None => CopyFault
                   | Some c1 =>
                       if j + 1 >=? LINELEN then CopyTooBig
                       else copy_line (S room) c1 (j + 1) (line ++ [b])
                   end
          end).
  change (copy_line (S room) c j line)
    with (match peek c with
          | None => CopyFault
          | Some b =>
              if b =? 0 then Copied c line
              else match advance c with
                   | None => CopyFault
                   | Some c1 =>
                       if j + 1 >=? LINELEN then CopyTooBig
                       else copy_line room c1 (j + 1) (line ++ [b])
                   end
          end).
  destruct (peek c) as [b|]; [|reflexivity].
  destruct (b =? 0); [reflexivity|].
  destruct (advance c) as [c1|]; [|reflexivity].
  destruct (Z.geb_spec (j + 1) LINELEN); [reflexivity|].
  apply IH; lia.
Qed.

(** ** Blocks reached by the decode loop *)

Lemma block_ok_counts (cb : block) :
  b_state cb <> BS_NEED_SYNCBYTE -> block_ok cb ->
  1 <= b_nbit cb <= 8 /\ (b_nbit cb = 1 -> b_byte cb = 0).
Proof.
  unfold block_ok. destruct (b_state cb); intros Hs H; try congruence; tauto.
Qed.

Lemma process_bit_ok (data_malloc_ok : Z -> bool) (cb cb' : block) (k : cycle) :
  block_ok cb ->
  process_bit data_malloc_ok (set_byte (shift_in k (b_byte cb)) cb)
  = PB_ok cb' ->
  block_ok cb'.
Proof.
  intros Hok.
  destruct (Z.eq_dec (b_nbit cb) 8) as [H8|H8].
  - (* a byte boundary: every transition leaves [b_nbit = 1] and a clear byte *)
    unfold process_bit. block_simpl.
    destruct cb as [st ty len ck dat pn ft af gf ms ml byte nbit di pi si li].
    block_simpl. subst nbit. unfold block_ok, untouched in Hok. block_simpl.
    destruct st; cbn [Z.eqb Pos.eqb];
      repeat match goal with
             | |- context [if ?b then _ else _] => destruct b
             | |- context [match ?x with Some _ => _ | None => _ end] =>
                 destruct x
             end;
      intros [= <-]; unfold block_ok, untouched; block_simpl;
      try (vm_compute; intuition congruence); try tauto;
      try (vm_compute inc8; intuition lia).
  - destruct (block_state_eqb (b_state cb) BS_NEED_SYNCBYTE) eqn:Hs.
    + assert (Hst : b_state cb = BS_NEED_SYNCBYTE)
        by (destruct (b_state cb); discriminate || reflexivity).
      unfold process_bit. block_simpl. rewrite Hst.
      unfold block_ok in Hok. rewrite Hst in Hok.
      destruct (shift_in k (b_byte cb) =? SYNCBYTE); intros [= <-];
        unfold block_ok, untouched in *; block_simpl; [|rewrite Hst; tauto].
      split; [tauto|]. split; [lia|reflexivity].
    + assert (Hst : b_state cb <> BS_NEED_SYNCBYTE)
        by (destruct (b_state cb); discriminate || congruence).
      destruct (block_ok_counts cb Hst Hok) as [Hn Hb].
      destruct (block_state_eqb (b_state cb) BS_DONE) eqn:Hd.
      * assert (Hst' : b_state cb = BS_DONE)
          by (destruct (b_state cb); discriminate || reflexivity).
        unfold process_bit. block_simpl. rewrite Hst'. discriminate.
      * assert (Hst' : b_state cb <> BS_DONE)
          by (destruct (b_state cb); discriminate || congruence).
        rewrite process_bit_counts; try assumption.
        intros [= <-]. unfold block_ok, untouched in *. block_simpl.
        unfold inc8. rewrite Z.mod_small by lia.
        destruct (b_state cb); try congruence;
          repeat split; try tauto; try lia.
Qed.

Section LoopInvariant.

Variable block_malloc_ok : Z -> bool.
Variable data_malloc_ok : Z -> bool.
Variable cfg : config.

Lemma new_block_ok : block_ok new_block.
Proof. unfold block_ok, untouched. cbn. repeat split. Qed.

Lemma settle_ok (d : decoder) (cb : block) (k : cycle) :
  block_ok cb ->
  outcome_ok
    (settle d (process_bit data_malloc_ok
                 (set_byte (shift_in k (b_byte cb)) cb))).
Proof.
  intros Hok.
  destruct (process_bit data_malloc_ok _) as [cb'|e|] eqn:E; cbn [settle];
    try exact I.
  pose proof (process_bit_ok _ _ _ _ Hok E) as Hok'.
  destruct (block_state_eqb (b_state cb') BS_DONE).
  - unfold block_done. destruct (b_type cb' =? BT_EOF); [|exact I].
    destruct (print_prog _); exact I.
  - exact Hok'.
Qed.

Lemma count_up_ok (o : outcome) : outcome_ok o -> outcome_ok (count_up o).
Proof. destruct o; intros H; exact H. Qed.

Lemma loop_body_ok (d : decoder) (prev cur : Z) :
  outcome_ok (Running d) ->
  outcome_ok (loop_body block_malloc_ok data_malloc_ok cfg d prev cur).
Proof.
  intros Hd. unfold loop_body, ensure_block. cbn [outcome_ok] in Hd.
  destruct (d_cb d) as [cb|] eqn:Ecb.
  - destruct (falling_crossing prev cur); apply count_up_ok.
    + apply settle_ok. exact Hd.
    + cbn [outcome_ok]. rewrite Ecb. exact Hd.
  - destruct (block_malloc_ok (d_nblocks d)); [|exact I].
    destruct (falling_crossing prev cur); apply count_up_ok.
    + apply settle_ok. exact new_block_ok.
    + exact new_block_ok.
Qed.

Lemma sample_loop_ok (data : list Z) :
  forall (o : outcome) (prev : Z),
    outcome_ok o ->
    outcome_ok (sample_loop block_malloc_ok data_malloc_ok cfg o prev data).
Proof.
  induction data as [|s rest IH]; intros o prev Ho; [exact Ho|].
  destruct o as [d| |]; cbn [sample_loop]; try exact I.
  apply IH. apply loop_body_ok. exact Ho.
Qed.

(** X5. Whatever the samples are, the block under construction keeps its byte
    alignment bookkeeping: once the sync byte is found [b_nbit] stays within
    1 to 8 (the [uint8_t] counter never wraps) with a clear [b_byte] at 1,
    and no body field or buffer is written before the length byte has been
    accepted. *)
Theorem main_loop_keeps_block_ok (data : list Z) :
  outcome_ok (main_loop block_malloc_ok data_malloc_ok cfg data).
Proof.
  unfold main_loop. destruct data as [|s0 rest]; [exact I|].
  apply sample_loop_ok. exact I.
Qed.

End LoopInvariant.

(** ** The bit assembler *)

(** X6. Eight classified bits, least significant first, leave exactly their
    byte in [b_byte], whatever it held before: a one enters as [0x80], a
    zero as nothing, and every older bit moves one place down until it
    drops out. *)
Theorem eight_bits_assemble_the_byte (old v : Z) :
  0 <= old < 256 -> 0 <= v < 256 ->
  fold_left (fun byte b => shift_in (class_of_bit b) byte)
    (bits_of_byte v) old
  = v.
Proof.
  intros Hold Hv. apply Z.eqb_eq.
  pose (P := fun v =>
    forallb (fun old =>
      fold_left (fun byte b => shift_in (class_of_bit b) byte)
        (bits_of_byte v) old =? v) (map Z.of_nat (seq 0 256))).
  assert (HP : P v = true)
    by (apply byte_cases; [vm_compute; reflexivity | assumption]).
  unfold P in HP. rewrite forallb_forall in HP. apply HP.
  replace old with (Z.of_nat (Z.to_nat old)) by lia.
  apply in_map, in_seq. lia.
Qed.

Lemma eight_bits_assemble_the_byte_witness :
  fold_left (fun byte b => shift_in (class_of_bit b) byte)
    (bits_of_byte 0x3C) 0x55
  = 0x3C.
Proof. apply eight_bits_assemble_the_byte; lia. Defined.

(** ** Recordings without a cycle, and allocation failures *)

(** X7. A recording without a falling zero crossing decodes nothing: the loop
    only counts samples, and [main] ends with [exit(0)] and an empty
    listing. *)
Theorem silence_decodes_nothing (block_malloc_ok data_malloc_ok : Z -> bool)
    (cfg : config) (s0 : Z) (rest : list Z) :
  quiet s0 rest = true -> block_malloc_ok 0 = true ->
  decoded_of (main_loop block_malloc_ok data_malloc_ok cfg (s0 :: rest))
  = Blocks [] EmptyString
  /\ main block_malloc_ok data_malloc_ok cfg (s0 :: rest)
     = Exited 0 EmptyString.
Proof.
  intros Hq Hok. unfold main, main_loop.
  destruct rest as [|s1 rest']; [split; reflexivity|].
  rewrite quiet_samples; [|discriminate|assumption].
  unfold arm, ensure_block. cbn [initial_decoder d_cb d_nblocks].
  rewrite Hok. cbn [obind]. split; reflexivity.
Qed.

Lemma silence_decodes_nothing_witness :
  decoded_of (main_loop always always default_config [-5; -9; -3; 7; 2])
  = Blocks [] EmptyString
  /\ main always always default_config [-5; -9; -3; 7; 2]
     = Exited 0 EmptyString.
Proof.
  apply (silence_decodes_nothing always always default_config (-5)
           [-9; -3; 7; 2]); reflexivity.
Defined.

(** X8. When the first block cannot be allocated the program returns -1 at
    the first turn of the loop, whatever the samples are, and the listing
    printed by [print_prog] is empty.  (The [PRINT_ERROR] line printed
    before the return is diagnostic output, which the model leaves out.) *)
Theorem block_allocation_failure (block_malloc_ok data_malloc_ok : Z -> bool)
    (cfg : config) (s0 s1 : Z) (rest : list Z) :
  block_malloc_ok 0 = false ->
  main block_malloc_ok data_malloc_ok cfg (s0 :: s1 :: rest)
  = Exited (-1) EmptyString.
Proof.
  intros Hfail. unfold main, main_loop. cbn [sample_loop].
  unfold loop_body at 1, ensure_block.
  cbn [initial_decoder d_cb d_nblocks d_listing]. rewrite Hfail.
  rewrite sample_loop_stopped by discriminate. reflexivity.
Qed.

Lemma block_allocation_failure_witness :
  main (fun _ => false) always default_config [1; -1; 1]
  = Exited (-1) EmptyString.
Proof.
  apply (block_allocation_failure (fun _ => false) always default_config
           1 (-1) [1]).
  reflexivity.
Defined.

(** ** Leader bytes and Data frames of any payload *)

Section Leader.

Variable block_malloc_ok : Z -> bool.
Variable data_malloc_ok : Z -> bool.

Local Abbreviation run_classes' := (run_classes block_malloc_ok data_malloc_ok).

(** A leader byte met by a hunting block whose byte is clear or holds a
    leader byte is shifted through without a sync. *)
Lemma leader_byte_run (d : decoder) (cb : block) (ks : list cycle) :
  d_cb d = Some cb -> b_state cb = BS_NEED_SYNCBYTE ->
  b_byte cb = 0 \/ b_byte cb = LEADERBYTE ->
  run_classes' (Running d) (classes_of_bytes [LEADERBYTE] ++ ks)
  = run_classes'
      (Running (set_count 1 (set_cb (Some (set_byte LEADERBYTE cb)) d))) ks.
Proof.
  intros Hcb Hs Hb. rewrite run_classes_app. f_equal.
  destruct d, cb. cbn [d_cb b_state b_byte] in *. subst.
  destruct Hb as [-> | ->]; vm_compute; reflexivity.
Qed.

(** After any number of leader bytes the sync byte is found at its eighth
    bit. *)
Lemma leader_sync_run (n : nat) :
  forall (d : decoder) (cb : block) (ks : list cycle),
    d_cb d = Some cb -> b_state cb = BS_NEED_SYNCBYTE ->
    b_byte cb = 0 \/ b_byte cb = LEADERBYTE ->
    run_classes' (Running d)
      (classes_of_bytes (repeat LEADERBYTE n ++ [SYNCBYTE]) ++ ks)
    = run_classes'
        (Running (set_count 1
           (set_cb (Some (set_state BS_NEED_BLOCKTYPE
                            (set_nbit 1 (set_byte 0 cb)))) d))) ks.
Proof.
  induction n as [|n IH]; intros d cb ks Hcb Hs Hb.
  - cbn [repeat app]. rewrite run_classes_app. f_equal.
    destruct d, cb. cbn [d_cb b_state b_byte] in *. subst.
    destruct Hb as [-> | ->]; vm_compute; reflexivity.
  - cbn [repeat app]. rewrite classes_of_bytes_one, <- app_assoc.
    rewrite (leader_byte_run d cb _ Hcb Hs Hb).
    rewrite (IH (set_count 1 (set_cb (Some (set_byte LEADERBYTE cb)) d))
               (set_byte LEADERBYTE cb) ks eq_refl Hs (or_intror eq_refl)).
    destruct d, cb. reflexivity.
Qed.

(** Type, length, payload, checksum and any trailing byte of a Data block,
    met just after the sync byte, put the finished block on the chain. *)
Lemma data_block_after_sync (d : decoder) (t l c trailer : Z)
    (bytes : list Z) (ks : list cycle) :
  d_cb d = Some (set_state BS_NEED_BLOCKTYPE (hunting_block t l c 1)) ->
  bytes <> [] -> bytes_ok bytes -> Z.of_nat (List.length bytes) <= 255 ->
  data_malloc_ok (Z.of_nat (List.length bytes) + 1) = true ->
  0 <= trailer < 256 ->
  run_classes' (Running d)
    (classes_of_bytes
       ([BT_DATA; Z.of_nat (List.length bytes)] ++ bytes
        ++ [sum8 (BT_DATA :: Z.of_nat (List.length bytes) :: bytes)]
        ++ [trailer]) ++ ks)
  = run_classes' (Running (with_block (decoded_data bytes) d)) ks.
Proof.
  intros Hcb Hne Hok Hlen Hmem Htr.
  set (len := Z.of_nat (List.length bytes)) in *.
  rewrite !classes_of_bytes_app, <- !app_assoc.
  rewrite (data_header_run _ _ d t l c len); [|assumption|lia|assumption].
  rewrite (data_payload_run _ _ bytes _ len (add8 BT_DATA len) []);
    [ | cbn; do 3 f_equal; lia | assumption | assumption | cbn; lia | lia ].
  rewrite fold_add8_start.
  replace ((BT_DATA + len + fold_right Z.add 0 bytes) mod 256)
    with (sum8 (BT_DATA :: len :: bytes))
    by (unfold sum8; cbn [fold_right]; f_equal; lia).
  cbn [app].
  match goal with
  | |- run_classes _ _ (Running ?d1) _ = _ =>
      rewrite (checksum_run _ _ d1 _ (sum8 (BT_DATA :: len :: bytes)) _ eq_refl)
  end; try reflexivity.
  cbn [data_block b_cksum]. rewrite Z.eqb_refl.
  match goal with
  | |- run_classes _ _ (Running ?d1) _ = _ =>
      rewrite (lead_run _ _ d1 _ trailer _ eq_refl)
  end; try reflexivity.
  - assumption.
  - unfold sum8. apply Z.mod_pos_bound. lia.
Qed.

End Leader.

(** X9. A recording of any number of leader bytes, the sync byte, a Data block
    with a payload of 1 to 255 bytes and its checksum, and any byte in the
    place of the trailing leader byte leaves exactly one finished Data
    block on the chain, whose payload is the recorded one. *)
Theorem data_frame_round_trip (block_malloc_ok data_malloc_ok : Z -> bool)
    (cfg : config) (amp : Z) (l1 l0 : nat) (n : nat) (bytes : list Z)
    (trailer : Z) :
  well_timed cfg amp l1 l0 -> classify cfg 0 <> One ->
  block_malloc_ok 0 = true ->
  bytes <> [] -> bytes_ok bytes -> Z.of_nat (List.length bytes) <= 255 ->
  data_malloc_ok (Z.of_nat (List.length bytes) + 1) = true ->
  0 <= trailer < 256 ->
  main_loop block_malloc_ok data_malloc_ok cfg
    (wave_of_bytes amp l1 l0
       ((repeat LEADERBYTE n ++ [SYNCBYTE])
        ++ [BT_DATA; Z.of_nat (List.length bytes)] ++ bytes
        ++ [sum8 (BT_DATA :: Z.of_nat (List.length bytes) :: bytes)]
        ++ [trailer]))
  = Running {| d_chain := [decoded_data bytes]; d_cb := None; d_count := 1;
               d_nblocks := 1; d_listing := EmptyString |}
  /\ b_state (decoded_data bytes) = BS_DONE
  /\ b_type (decoded_data bytes) = BT_DATA
  /\ payload (decoded_data bytes) = Some bytes.
Proof.
  intros Htime Hfirst Hblock Hne Hok Hlen Hmem Htr.
  split; [|split; [reflexivity|split; [reflexivity|]]].
  - rewrite (main_loop_bytes _ _ _ _ _ _ Htime).
    rewrite first_crossing_run by assumption.
    rewrite classes_of_bytes_app.
    match goal with
    | |- run_classes _ _ (Running ?d1) _ = _ =>
        rewrite (leader_sync_run _ _ n d1 new_block _ eq_refl eq_refl
                   (or_introl eq_refl))
    end.
    rewrite <- (app_nil_r (classes_of_bytes _)).
    match goal with
    | |- run_classes _ _ (Running ?d1) _ = _ =>
        rewrite (data_block_after_sync _ _ d1 0 0 0 trailer bytes [] eq_refl)
    end; try assumption.
    reflexivity.
  - apply guard_byte_of_decoded_data.
Qed.

Lemma data_frame_round_trip_witness :
  main_loop always always default_config
    (wave_of_bytes 16000 18 37
       ((repeat LEADERBYTE 3 ++ [SYNCBYTE])
        ++ [BT_DATA; Z.of_nat (List.length [0x10; 0x20])] ++ [0x10; 0x20]
        ++ [sum8 (BT_DATA :: Z.of_nat (List.length [0x10; 0x20])
                  :: [0x10; 0x20])]
        ++ [0x00]))
  = Running {| d_chain := [decoded_data [0x10; 0x20]]; d_cb := None;
               d_count := 1; d_nblocks := 1; d_listing := EmptyString |}
  /\ b_state (decoded_data [0x10; 0x20]) = BS_DONE
  /\ b_type (decoded_data [0x10; 0x20]) = BT_DATA
  /\ payload (decoded_data [0x10; 0x20]) = Some [0x10; 0x20].
Proof.
  apply (data_frame_round_trip always always default_config 16000 18 37 3
           [0x10; 0x20] 0x00).
  - unfold well_timed. repeat split; try lia; reflexivity.
  - vm_compute. discriminate.
  - reflexivity.
  - discriminate.
  - repeat constructor; lia.
  - cbn. lia.
  - reflexivity.
  - lia.
Defined.

(** ** Lines of a listing *)

Lemma reads_app (c c1 c2 : cursor) (s1 s2 : list Z) :
  reads c s1 c1 -> reads c1 s2 c2 -> reads c (s1 ++ s2) c2.
Proof.
  intros H1 H2. induction H1 as [c|c ca cb x s Hp Ha H IH]; [exact H2|].
  cbn [app]. econstructor; [eassumption..|]. apply IH. exact H2.
Qed.

Lemma line_number_value (hi lo : Z) :
  0 <= hi < 256 -> 0 <= lo < 256 ->
  Z.lor (Z.shiftl hi 8 mod 65536) lo = hi * 256 + lo.
Proof.
  intros Hhi Hlo. apply Z.eqb_eq.
  pose (P := fun hi =>
    forallb (fun lo => Z.lor (Z.shiftl hi 8 mod 65536) lo =? hi * 256 + lo)
      (map Z.of_nat (seq 0 256))).
  assert (HP : P hi = true)
    by (apply byte_cases; [vm_compute; reflexivity | assumption]).
  unfold P in HP. rewrite forallb_forall in HP. apply HP.
  replace lo with (Z.of_nat (Z.to_nat lo)) by lia.
  apply in_map, in_seq. lia.
Qed.

(** The copy loop copies a body that is read without a null byte and is
    followed by one. *)
Lemma copy_line_reads (body : list Z) :
  forall (room : nat) (c c' : cursor) (j : Z) (acc : list Z),
    reads c body c' -> peek c' = Some 0 -> ~ In 0 body ->
    0 <= j -> j + Z.of_nat (List.length body) < LINELEN ->
    (List.length body <= room)%nat ->
    copy_line room c j acc = Copied c' (acc ++ body).
Proof.
  induction body as [|x body IH]; intros room c c' j acc Hr Hp Hnz Hj Hlen Hroom.
  - inversion Hr; subst. destruct room; cbn [copy_line]; rewrite Hp;
      cbn; rewrite app_nil_r; reflexivity.
  - inversion Hr as [|? c1 ? ? ? Hpx Hax Hr']; subst.
    destruct room as [|room]; [cbn in Hroom; lia|].
    cbn [copy_line]. rewrite Hpx.
    destruct (Z.eqb_spec x 0) as [->|Hx]; [destruct Hnz; left; reflexivity|].
    rewrite Hax. cbn [List.length] in Hlen.
    destruct (Z.geb_spec (j + 1) LINELEN); [lia|].
    rewrite (IH room c1 c' (j + 1) (acc ++ [x])); try assumption.
    + rewrite <- app_assoc. reflexivity.
    + intros Hin. apply Hnz. right. exact Hin.
    + lia.
    + lia.
    + cbn [List.length] in Hroom. lia.
Qed.

(** A line record that is read from the cursor on and starts with the
    running block number, or the next one, is printed, and the cursor is
    left after its null byte. *)
Lemma read_line_reads (ln : line) (c c1 c2 : cursor) (cb : block)
    (next : list block) :
  cur c = cb :: next -> line_ok ln ->
  reads c ([l_tag ln; l_nlo ln; l_hi ln; l_lo ln] ++ l_body ln) c1 ->
  peek c1 = Some 0 -> advance c1 = Some c2 ->
  l_tag ln = blkn c \/ l_tag ln = blkn c + 1 ->
  read_line c cb = LineDone c2 (render_line ln).
Proof.
  intros Hcur (Hok & Hnz & Hlen & Hdump) Hr Hp Ha Htag.
  inversion Hr as [|? ca ? ? ? Hp0 Ha0 Hr0]; subst.
  inversion Hr0 as [|? cb1 ? ? ? Hp1 Ha1 Hr1]; subst.
  inversion Hr1 as [|? cb2 ? ? ? Hp2 Ha2 Hr2]; subst.
  inversion Hr2 as [|? cb3 ? ? ? Hp3 Ha3 Hr3]; subst.
  unfold read_line.
  assert (Hd0 : data_at cb (idx c) = Some (l_tag ln)).
  { unfold peek in Hp0. rewrite Hcur in Hp0. exact Hp0. }
  rewrite Hd0.
  assert (Hcheck : negb (l_tag ln =? blkn c) && negb (l_tag ln =? blkn c + 1)
                   = false).
  { destruct Htag as [-> | ->]; rewrite Z.eqb_refl; cbn;
      [reflexivity | apply andb_false_r]. }
  rewrite Hcheck. unfold bind_cursor.
  rewrite Ha0, Ha1, Hp2, Ha2, Hp3, Ha3.
  rewrite (copy_line_reads (l_body ln) _ cb3 c1 0 []); try assumption;
    try (unfold LINELEN in *; lia).
  cbn [app]. rewrite Ha. unfold render_line.
  destruct (asciidump (l_body ln)) as [text|]; [|congruence].
  unfold bytes_ok, encode_line in Hok. cbn [app] in Hok.
  inversion Hok as [|? ? _ Hok1]; subst.
  inversion Hok1 as [|? ? _ Hok2]; subst.
  inversion Hok2 as [|? ? Hhi Hok3]; subst.
  inversion Hok3 as [|? ? Hlo _]; subst.
  rewrite line_number_value by assumption. reflexivity.
Qed.

Lemma string_app_nil_r (s : string) : (s ++ "")%string = s.
Proof. induction s as [|a s IH]; cbn; [reflexivity|]. rewrite IH. reflexivity. Qed.

Lemma string_app_assoc (a b c : string) :
  ((a ++ b) ++ c)%string = (a ++ b ++ c)%string.
Proof. induction a as [|x a IH]; cbn; [reflexivity|]. rewrite IH. reflexivity. Qed.

Lemma load_middle (pre : list Z) (x : Z) (post : list Z) :
  load (pre ++ x :: post) (Z.of_nat (List.length pre)) = Some x.
Proof.
  unfold load. destruct (Z.ltb_spec (Z.of_nat (List.length pre)) 0); [lia|].
  rewrite Nat2Z.id, nth_error_app2, Nat.sub_diag by lia. reflexivity.
Qed.

(** Bytes of a buffer that end before the last byte of the payload are
    read without leaving the block. *)
Lemma reads_in_block (s : list Z) :
  forall (cb : block) (next : list block) (k : Z) (pre post : list Z),
    b_data cb = Some (pre ++ s ++ post) ->
    Z.of_nat (List.length pre + List.length s) < b_length cb ->
    reads {| cur := cb :: next; idx := Z.of_nat (List.length pre); blkn := k |}
      s
      {| cur := cb :: next;
         idx := Z.of_nat (List.length pre + List.length s); blkn := k |}.
Proof.
  induction s as [|x s IH]; intros cb next k pre post Hbuf Hlen.
  - rewrite Nat.add_0_r. constructor.
  - cbn [List.length] in Hlen.
    apply reads_cons
      with (c1 := {| cur := cb :: next;
                     idx := Z.of_nat (List.length (pre ++ [x]));
                     blkn := k |}).
    + unfold peek, data_at. cbn [cur idx]. rewrite Hbuf. apply load_middle.
    + unfold advance. cbn [cur idx blkn].
      destruct (Z.eqb_spec (Z.of_nat (List.length pre) + 1) (b_length cb));
        [lia|].
      rewrite length_app. cbn [List.length]. do 2 f_equal. lia.
    + replace (List.length pre + List.length (x :: s))%nat
        with (List.length (pre ++ [x]) + List.length s)%nat
        by (rewrite length_app; cbn [List.length]; lia).
      apply (IH cb next k (pre ++ [x]) post).
      * rewrite <- app_assoc. exact Hbuf.
      * rewrite length_app. cbn [List.length]. lia.
Qed.

(** Bytes that end with the last byte of the payload are read up to the
    jump to the next block, which counts the block number up. *)
Lemma reads_to_block_end (s : list Z) :
  forall (cb : block) (next : list block) (k : Z) (pre post : list Z),
    s <> [] ->
    b_data cb = Some (pre ++ s ++ post) ->
    Z.of_nat (List.length pre + List.length s) = b_length cb ->
    reads {| cur := cb :: next; idx := Z.of_nat (List.length pre); blkn := k |}
      s
      {| cur := next; idx := 0; blkn := inc8 k |}.
Proof.
  induction s as [|x s IH]; intros cb next k pre post Hne Hbuf Hlen;
    [congruence|].
  cbn [List.length] in Hlen.
  destruct s as [|y s'].
  - apply reads_cons with (c1 := {| cur := next; idx := 0; blkn := inc8 k |}).
    + unfold peek, data_at. cbn [cur idx]. rewrite Hbuf. apply load_middle.
    + unfold advance. cbn [cur idx blkn].
      destruct (Z.eqb_spec (Z.of_nat (List.length pre) + 1) (b_length cb));
        [reflexivity | cbn [List.length] in Hlen; lia].
    + constructor.
  - apply reads_cons
      with (c1 := {| cur := cb :: next;
                     idx := Z.of_nat (List.length (pre ++ [x]));
                     blkn := k |}).
    + unfold peek, data_at. cbn [cur idx]. rewrite Hbuf. apply load_middle.
    + unfold advance. cbn [cur idx blkn].
      destruct (Z.eqb_spec (Z.of_nat (List.length pre) + 1) (b_length cb));
        [cbn [List.length] in Hlen; lia|].
      rewrite length_app. cbn [List.length]. do 2 f_equal. lia.
    + apply (IH cb next k (pre ++ [x]) post).
      * discriminate.
      * rewrite <- app_assoc. exact Hbuf.
      * rewrite length_app. cbn [List.length] in *. lia.
Qed.

Lemma encode_line_length (ln : line) :
  List.length (encode_line ln) = (5 + List.length (l_body ln))%nat.
Proof. unfold encode_line. cbn. rewrite length_app. cbn. lia. Qed.

Lemma three_nulls_not_two (cb : block) (i : Z) :
  b_length cb - i <> 2 -> three_nulls cb i = Some false.
Proof.
  intros H. unfold three_nulls.
  destruct (Z.eqb_spec (b_length cb - i) 2); [congruence|reflexivity].
Qed.

(** The lines of a block are printed one after the other up to the two
    null bytes that end the payload. *)
Lemma walk_lines (lines : list line) :
  forall (cb : block) (next : list block) (k : Z) (pre : list Z)
         (out : string) (fuel : nat),
    b_data cb = Some (pre ++ program_bytes lines ++ [0]) ->
    b_length cb
    = Z.of_nat (List.length pre + List.length (program_bytes lines)) ->
    Forall line_ok lines ->
    Forall (fun ln => l_tag ln = k \/ l_tag ln = k + 1) lines ->
    (List.length lines < fuel)%nat ->
    walk fuel
      {| cur := cb :: next; idx := Z.of_nat (List.length pre); blkn := k |} out
    = PP_return (out ++ render_lines lines) EndOfProgram.
Proof.
  induction lines as [|ln lines IH];
    intros cb next k pre out fuel Hbuf Hlen Hok Htags Hfuel;
    (destruct fuel as [|fuel]; [cbn in Hfuel; lia|]); cbn [walk cur].
  - unfold line_step. cbn [cur idx].
    assert (H3 : three_nulls cb (Z.of_nat (List.length pre)) = Some true).
    { apply three_nulls_true. unfold program_bytes in *. cbn [map List.concat app] in *.
      cbn [List.length] in Hlen. unfold data_at. rewrite Hbuf.
      split; [lia|]. split; [apply load_middle|]. split.
      - replace (Z.of_nat (List.length pre) + 1)
          with (Z.of_nat (List.length (pre ++ [0])))
          by (rewrite length_app; cbn; lia).
        replace (pre ++ [0; 0; 0]) with ((pre ++ [0]) ++ [0; 0])
          by (rewrite <- app_assoc; reflexivity).
        apply load_middle.
      - replace (Z.of_nat (List.length pre) + 2)
          with (Z.of_nat (List.length (pre ++ [0; 0])))
          by (rewrite length_app; cbn; lia).
        replace (pre ++ [0; 0; 0]) with ((pre ++ [0; 0]) ++ [0])
          by (rewrite <- app_assoc; reflexivity).
        apply load_middle. }
    rewrite H3. cbn [render_lines fold_right]. rewrite string_app_nil_r.
    reflexivity.
  - inversion Hok as [|? ? Hln Hok']; subst.
    inversion Htags as [|? ? Htag Htags']; subst.
    unfold program_bytes in *. cbn [map List.concat] in *.
    rewrite !length_app in Hlen. cbn [List.length] in Hlen.
    rewrite encode_line_length in Hlen.
    set (body := l_body ln) in *.
    set (tail := List.concat (map encode_line lines) ++ [0; 0]) in *.
    assert (Hbuf' : b_data cb
                    = Some (pre ++ ([l_tag ln; l_nlo ln; l_hi ln; l_lo ln] ++ body)
                            ++ (0 :: tail ++ [0]))).
    { rewrite Hbuf. unfold tail.
      change (encode_line ln)
        with ([l_tag ln; l_nlo ln; l_hi ln; l_lo ln] ++ body ++ [0]).
      rewrite <- !app_assoc. cbn [app]. rewrite <- ?app_assoc. reflexivity. }
    assert (Htail : List.length tail
                    = (List.length (List.concat (map encode_line lines)) + 2)%nat).
    { unfold tail. rewrite length_app. reflexivity. }
    unfold line_step. cbn [cur idx].
    rewrite three_nulls_not_two by lia.
    pose proof (reads_in_block ([l_tag ln; l_nlo ln; l_hi ln; l_lo ln] ++ body)
                  cb next k pre (0 :: tail ++ [0]) Hbuf') as Hr.
    rewrite length_app in Hr. cbn [List.length] in Hr.
    specialize (Hr ltac:(lia)).
    set (c1 := {| cur := cb :: next;
                  idx := Z.of_nat (List.length pre + (4 + List.length body));
                  blkn := k |}) in *.
    set (c2 := {| cur := cb :: next;
                  idx := Z.of_nat (List.length (pre ++ encode_line ln));
                  blkn := k |}).
    assert (Hp1 : peek c1 = Some 0).
    { unfold peek, data_at, c1. cbn [cur idx]. rewrite Hbuf'.
      rewrite app_assoc.
      replace (List.length pre + (4 + List.length body))%nat
        with (List.length (pre ++ [l_tag ln; l_nlo ln; l_hi ln; l_lo ln] ++ body))
        by (rewrite !length_app; cbn [List.length]; lia).
      apply load_middle. }
    assert (Ha1 : advance c1 = Some c2).
    { unfold advance, c1, c2. cbn [cur idx blkn].
      match goal with
      | |- context [?a =? ?b] => destruct (Z.eqb_spec a b); [lia|]
      end.
      rewrite length_app, encode_line_length. fold body. do 2 f_equal. lia. }
    rewrite (read_line_reads ln
               {| cur := cb :: next; idx := Z.of_nat (List.length pre);
                  blkn := k |} c1 c2 cb next eq_refl Hln Hr Hp1 Ha1 Htag).
    unfold c2.
    rewrite (IH cb next k (pre ++ encode_line ln) (out ++ render_line ln)%string
               fuel).
    + cbn [render_lines fold_right]. rewrite string_app_assoc. reflexivity.
    + rewrite Hbuf. unfold tail. rewrite <- !app_assoc. reflexivity.
    + rewrite Hlen. unfold tail.
      rewrite !length_app, encode_line_length. fold body.
      cbn [List.length]. f_equal. lia.
    + assumption.
    + assumption.
    + cbn [List.length] in Hfuel. lia.
Qed.

Lemma skip_to_data_front (front : list block) (cb : block) (next : list block) :
  Forall (fun b => b_type b <> BT_DATA) front -> b_type cb = BT_DATA ->
  skip_to_data (front ++ cb :: next) = cb :: next.
Proof.
  intros Hfront Hcb. induction Hfront as [|b front Hb _ IH]; cbn [app skip_to_data].
  - rewrite Hcb. reflexivity.
  - destruct (Z.eqb_spec (b_type b) BT_DATA); [congruence|]. exact IH.
Qed.

Lemma lines_fit (lines : list line) :
  (List.length lines <= List.length (List.concat (map encode_line lines)))%nat.
Proof.
  induction lines as [|ln lines IH]; cbn [map List.concat List.length]; [lia|].
  rewrite length_app, encode_line_length. lia.
Qed.

(** [print_prog] on a chain whose first Data block holds the lines. *)
Lemma print_prog_lines (front : list block) (cb : block) (next : list block)
    (lines : list line) :
  Forall (fun b => b_type b <> BT_DATA) front -> b_type cb = BT_DATA ->
  b_data cb = Some (program_bytes lines ++ [0]) ->
  b_length cb = Z.of_nat (List.length (program_bytes lines)) ->
  Forall line_ok lines ->
  Forall (fun ln => l_tag ln = hd 0 (program_bytes lines)
                    \/ l_tag ln = hd 0 (program_bytes lines) + 1) lines ->
  print_prog (front ++ cb :: next)
  = PP_return
      (listing_header (front ++ cb :: next) ++ render_lines lines)
      EndOfProgram.
Proof.
  intros Hfront Htype Hbuf Hlen Hok Htags. unfold print_prog.
  rewrite (skip_to_data_front front cb next Hfront Htype).
  fold (listing_header (front ++ cb :: next)).
  assert (Hfirst : data_at cb 0 = Some (hd 0 (program_bytes lines))).
  { unfold data_at. rewrite Hbuf. unfold program_bytes.
    destruct lines as [|ln lines]; reflexivity. }
  rewrite Hfirst.
  apply (walk_lines lines cb next (hd 0 (program_bytes lines)) []);
    try assumption.
  pose proof (lines_fit lines) as Hfit.
  pose proof (chain_room_nonneg next) as Hnext.
  cbn [chain_room]. unfold buffer_size. rewrite Hbuf.
  unfold program_bytes. rewrite !length_app. cbn [List.length]. lia.
Qed.

(** X10. The listing of a program held by one Data block.  The chain may start
    with blocks of other types (the Name block) and go on after the Data
    block; every line starts with the first byte of the block or that byte
    plus one.  [print_prog] prints the header, then every line as its
    number, right-justified in five columns, a space and the rendered body,
    and returns at the two null bytes that end the payload. *)
Theorem program_listing (front : list block) (cb : block) (next : list block)
    (lines : list line) :
  Forall (fun b => b_type b <> BT_DATA) front -> b_type cb = BT_DATA ->
  b_data cb = Some (program_bytes lines ++ [0]) ->
  b_length cb = Z.of_nat (List.length (program_bytes lines)) ->
  Forall line_ok lines ->
  Forall (fun ln => l_tag ln = hd 0 (program_bytes lines)
                    \/ l_tag ln = hd 0 (program_bytes lines) + 1) lines ->
  print_prog (front ++ cb :: next)
  = PP_return
      (listing_header (front ++ cb :: next) ++ render_lines lines)
      EndOfProgram.
Proof. apply print_prog_lines. Qed.

Lemma program_listing_witness :
  print_prog
    ([] ++ decoded_data
             (program_bytes
                [ {| l_tag := 0x1E; l_nlo := 0x0B; l_hi := 0; l_lo := 10;
                     l_body := [0x87; 0x22; 0x48; 0x49; 0x22] |};
                  {| l_tag := 0x1E; l_nlo := 0x11; l_hi := 0; l_lo := 20;
                     l_body := [0x8A] |} ]) :: [])
  = PP_return
      (listing_header
         ([] ++ decoded_data
                  (program_bytes
                     [ {| l_tag := 0x1E; l_nlo := 0x0B; l_hi := 0; l_lo := 10;
                          l_body := [0x87; 0x22; 0x48; 0x49; 0x22] |};
                       {| l_tag := 0x1E; l_nlo := 0x11; l_hi := 0; l_lo := 20;
                          l_body := [0x8A] |} ]) :: [])
       ++ render_lines
            [ {| l_tag := 0x1E; l_nlo := 0x0B; l_hi := 0; l_lo := 10;
                 l_body := [0x87; 0x22; 0x48; 0x49; 0x22] |};
              {| l_tag := 0x1E; l_nlo := 0x11; l_hi := 0; l_lo := 20;
                 l_body := [0x8A] |} ])
      EndOfProgram.
Proof.
  apply program_listing.
  - constructor.
  - reflexivity.
  - reflexivity.
  - reflexivity.
  - repeat constructor; cbn; try lia; try discriminate;
      intuition discriminate.
  - repeat constructor.
Defined.

(** ** A line that spans two blocks *)

Lemma reads_snoc_inv (s : list Z) :
  forall (c c' : cursor) (x : Z),
    reads c (s ++ [x]) c' ->
    exists c1, reads c s c1 /\ peek c1 = Some x /\ advance c1 = Some c'.
Proof.
  induction s as [|y s IH]; intros c c' x H; cbn [app] in H.
  - inversion H as [|? c1 ? ? ? Hp Ha Hr]; subst.
    inversion Hr; subst. exists c. repeat split; try assumption. constructor.
  - inversion H as [|? c1 ? ? ? Hp Ha Hr]; subst.
    destruct (IH c1 c' x Hr) as (c2 & Hr2 & Hp2 & Ha2).
    exists c2. repeat split; try assumption.
    econstructor; eassumption.
Qed.

(** A turn of the loop on a line record that is read from the cursor on. *)
Lemma line_step_reads (ln : line) (c c' : cursor) (cb : block)
    (next : list block) :
  cur c = cb :: next -> three_nulls cb (idx c) = Some false ->
  line_ok ln -> reads c (encode_line ln) c' ->
  l_tag ln = blkn c \/ l_tag ln = blkn c + 1 ->
  line_step c = LineDone c' (render_line ln).
Proof.
  intros Hcur H3 Hok Hr Htag. unfold line_step. rewrite Hcur, H3.
  unfold encode_line in Hr. rewrite app_assoc in Hr.
  destruct (reads_snoc_inv _ _ _ _ Hr) as (c1 & Hr1 & Hp1 & Ha1).
  apply (read_line_reads ln c c1 c' cb next); assumption.
Qed.

Lemma three_nulls_tag (cb : block) (i t : Z) :
  data_at cb i = Some t -> t <> 0 -> three_nulls cb i = Some false.
Proof.
  intros Hd Ht. unfold three_nulls. rewrite Hd. cbn [is_null option_map].
  destruct (Z.eqb_spec t 0); [congruence|].
  destruct (b_length cb - i =? 2); reflexivity.
Qed.

(** A turn of the loop on a line whose first bytes end one block and whose
    other bytes start the next one. *)
Lemma line_step_across (cb1 cb2 : block) (next : list block) (ln : line)
    (k : Z) (pre s1 guard s2 post : list Z) :
  b_data cb1 = Some (pre ++ s1 ++ guard) ->
  b_length cb1 = Z.of_nat (List.length pre + List.length s1) ->
  b_data cb2 = Some (s2 ++ post) ->
  Z.of_nat (List.length s2) < b_length cb2 ->
  encode_line ln = s1 ++ s2 -> s1 <> [] ->
  List.length s1 <> 2%nat \/ l_tag ln <> 0 ->
  line_ok ln -> l_tag ln = k \/ l_tag ln = k + 1 ->
  line_step {| cur := cb1 :: cb2 :: next;
               idx := Z.of_nat (List.length pre); blkn := k |}
  = LineDone {| cur := cb2 :: next; idx := Z.of_nat (List.length s2);
                blkn := inc8 k |}
      (render_line ln).
Proof.
  intros Hbuf1 Hlen1 Hbuf2 Hlen2 Hsplit Hne Hnulls Hok Htag.
  apply (line_step_reads ln _ _ cb1 (cb2 :: next)); try assumption;
    try reflexivity; cbn [cur idx blkn].
  - destruct Hnulls as [Hn|Hn]; [apply three_nulls_not_two; lia|].
    apply (three_nulls_tag cb1 _ (l_tag ln)); [|assumption].
    unfold data_at. rewrite Hbuf1.
    destruct s1 as [|x s1']; [congruence|].
    cbn [app]. rewrite load_middle.
    unfold encode_line in Hsplit. cbn [app] in Hsplit.
    injection Hsplit as Hx _. subst x. reflexivity.
  - rewrite Hsplit. apply reads_app
      with (c1 := {| cur := cb2 :: next; idx := 0; blkn := inc8 k |}).
    + apply (reads_to_block_end s1 cb1 (cb2 :: next) k pre guard);
        [assumption | assumption | lia].
    + apply (reads_in_block s2 cb2 next (inc8 k) [] post);
        [exact Hbuf2 | cbn [List.length]; lia].
Qed.



(** ** Name and End of File frames, and whole tapes *)

(** Feed one byte to the current block and compute what becomes of the
    decoder, leaving the running sum as it is written. *)
Ltac feed v :=
  rewrite (classes_of_bytes_one v), <- app_assoc;
  match goal with
  | |- run_classes _ _ (Running ?d1) (classes_of_bytes [v] ++ ?ks) = _ =>
      rewrite (byte_run _ _ d1 _ v ks eq_refl);
      [ match goal with
        | |- run_classes _ _ ?o _ = _ =>
            let o' := eval cbv -[add8] in o in change o with o'
        end
      | discriminate | discriminate | reflexivity | reflexivity | ]
  end.

Section Tapes.

Variable block_malloc_ok : Z -> bool.
Variable data_malloc_ok : Z -> bool.

Local Abbreviation run_classes' := (run_classes block_malloc_ok data_malloc_ok).

(** Type, length, body, checksum and any trailing byte of a Name block, met
    just after the sync byte, put the finished block on the chain. *)
Lemma name_block_after_sync (d : decoder) (t l c trailer : Z)
    (name : list Z) (ft af gf : Z) (ms ml : list Z) (ks : list cycle) :
  d_cb d = Some (set_state BS_NEED_BLOCKTYPE (hunting_block t l c 1)) ->
  List.length name = 8%nat -> List.length ms = 2%nat ->
  List.length ml = 2%nat ->
  bytes_ok (name_body name ft af gf ms ml) -> 0 <= trailer < 256 ->
  run_classes' (Running d)
    (classes_of_bytes
       ([BT_NAME; NAMEBLOCKLEN] ++ name_body name ft af gf ms ml
        ++ [sum8 (BT_NAME :: NAMEBLOCKLEN :: name_body name ft af gf ms ml)]
        ++ [trailer]) ++ ks)
  = run_classes' (Running (with_block (decoded_name name ft af gf ms ml) d)) ks.
Proof.
  intros Hcb Hname Hms Hml Hok Htr.
  do 9 (destruct name as [|? name]; try discriminate Hname). clear Hname.
  do 3 (destruct ms as [|? ms]; try discriminate Hms). clear Hms.
  do 3 (destruct ml as [|? ml]; try discriminate Hml). clear Hml.
  unfold name_body in *. cbn [app] in *.
  repeat match goal with
         | H : bytes_ok (_ :: _) |- _ => inversion H as [|? ? ? ?]; subst; clear H
         | H : Forall _ (_ :: _) |- _ => inversion H as [|? ? ? ?]; subst; clear H
         end.
  destruct d as [chain cb0 count nblocks listing].
  cbn [d_cb] in Hcb. subst cb0.
  feed BT_NAME; [|unfold BT_NAME; lia].
  feed NAMEBLOCKLEN; [|unfold NAMEBLOCKLEN; lia].
  feed z; [|assumption]. feed z0; [|assumption].
  feed z1; [|assumption]. feed z2; [|assumption].
  feed z3; [|assumption]. feed z4; [|assumption].
  feed z5; [|assumption]. feed z6; [|assumption].
  feed ft; [|assumption]. feed af; [|assumption].
  feed gf; [|assumption]. feed z7; [|assumption].
  feed z8; [|assumption]. feed z9; [|assumption].
  feed z10; [|assumption].
  match goal with
  | |- context [add8 ?s z10] =>
      assert (Hck : add8 s z10 = sum8 [BT_NAME; NAMEBLOCKLEN; z; z0; z1; z2; z3; z4; z5;
                               z6; ft; af; gf; z7; z8; z9; z10])
  end.
  { transitivity
      (fold_left add8
         [z; z0; z1; z2; z3; z4; z5; z6; ft; af; gf; z7; z8; z9; z10]
         (add8 0 15)).
    - cbn [fold_left]. reflexivity.
    - rewrite fold_add8_start. unfold sum8, BT_NAME, NAMEBLOCKLEN.
      cbn [fold_right]. apply (f_equal (fun x => x mod 256)). lia. }
  rewrite Hck. clear Hck.
  set (ck := sum8 _).
  assert (Hckr : 0 <= ck < 256) by (apply Z.mod_pos_bound; lia).
  rewrite (classes_of_bytes_one ck), <- app_assoc.
  match goal with
  | |- run_classes _ _ (Running ?d1) _ = _ =>
      rewrite (checksum_run _ _ d1 _ ck _ eq_refl)
  end; try reflexivity.
  2:{ assumption. }
  cbn [b_cksum]. rewrite Z.eqb_refl.
  match goal with
  | |- run_classes _ _ (Running ?d1) _ = _ =>
      rewrite (lead_run _ _ d1 _ trailer _ eq_refl)
  end; try reflexivity.
  assumption.
Qed.

(** Type, length, checksum and any trailing byte of an End of File block,
    met just after the sync byte, hand the chain over to [print_prog]. *)
Lemma eof_block_after_sync (d : decoder) (t l c trailer : Z)
    (ks : list cycle) :
  d_cb d = Some (set_state BS_NEED_BLOCKTYPE (hunting_block t l c 1)) ->
  0 <= trailer < 256 ->
  run_classes' (Running d)
    (classes_of_bytes [BT_EOF; 0; BT_EOF; trailer] ++ ks)
  = run_classes' (count_up (block_done (set_count 0 d) decoded_eof)) ks.
Proof.
  intros Hcb Htr.
  destruct d as [chain cb0 count nblocks listing].
  cbn [d_cb] in Hcb. subst cb0.
  feed BT_EOF; [|unfold BT_EOF; lia].
  feed 0; [|lia].
  rewrite (classes_of_bytes_one BT_EOF), <- app_assoc.
  match goal with
  | |- run_classes _ _ (Running ?d1) _ = _ =>
      rewrite (checksum_run _ _ d1 _ BT_EOF _ eq_refl)
  end; try reflexivity.
  unfold BT_EOF. lia.
Qed.

(** Between two frames: the block for the next frame is allocated at the
    first crossing, and after any number of leader bytes the sync byte is
    found. *)
Lemma next_frame_start (d : decoder) (n : nat) (ks : list cycle) :
  d_cb d = None -> block_malloc_ok (d_nblocks d) = true ->
  run_classes' (Running d)
    (classes_of_bytes (repeat LEADERBYTE n ++ [SYNCBYTE]) ++ ks)
  = run_classes'
      (Running {| d_chain := d_chain d;
                  d_cb := Some (set_state BS_NEED_BLOCKTYPE
                                  (hunting_block 0 0 0 1));
                  d_count := 1; d_nblocks := d_nblocks d + 1;
                  d_listing := d_listing d |}) ks.
Proof.
  intros Hcb Hok.
  rewrite (run_classes_arm _ _ d _ Hcb Hok).
  - match goal with
    | |- run_classes _ _ (Running ?d1) _ = _ =>
        rewrite (leader_sync_run _ _ n d1 new_block ks eq_refl eq_refl
                   (or_introl eq_refl))
    end.
    reflexivity.
  - destruct n; discriminate.
Qed.

End Tapes.

Lemma tape_frames (n : nat) (name : list Z) (ft af gf : Z) (ms ml : list Z)
    (lines : list line) :
  tape n name ft af gf ms ml lines
  = (repeat LEADERBYTE n ++ [SYNCBYTE])
    ++ ([BT_NAME; NAMEBLOCKLEN] ++ name_body name ft af gf ms ml
        ++ [sum8 (BT_NAME :: NAMEBLOCKLEN :: name_body name ft af gf ms ml)]
        ++ [LEADERBYTE])
    ++ (repeat LEADERBYTE n ++ [SYNCBYTE])
    ++ ([BT_DATA; Z.of_nat (List.length (program_bytes lines))]
        ++ program_bytes lines
        ++ [sum8 (BT_DATA :: Z.of_nat (List.length (program_bytes lines))
                  :: program_bytes lines)]
        ++ [LEADERBYTE])
    ++ (repeat LEADERBYTE n ++ [SYNCBYTE])
    ++ [BT_EOF; 0; BT_EOF; LEADERBYTE].
Proof.
  unfold tape, name_frame, data_frame, eof_frame.
  repeat (rewrite <- ?app_assoc; cbn [app]). reflexivity.
Qed.

(** Split the classes of a byte sequence after its first part. *)
Ltac split_bytes :=
  match goal with
  | |- run_classes _ _ _ (classes_of_bytes (?a ++ ?b)) = _ =>
      rewrite (classes_of_bytes_app a b)
  end.

(** The decode loop over a tape with one program: the listing is printed at
    the End of File block and the chain is empty afterwards. *)
Lemma tape_run (block_malloc_ok data_malloc_ok : Z -> bool) (cfg : config)
    (amp : Z) (l1 l0 : nat) (n : nat) (name : list Z) (ft af gf : Z)
    (ms ml : list Z) (lines : list line) :
  well_timed cfg amp l1 l0 -> classify cfg 0 <> One ->
  block_malloc_ok 0 = true -> block_malloc_ok 1 = true ->
  block_malloc_ok 2 = true ->
  data_malloc_ok (Z.of_nat (List.length (program_bytes lines)) + 1) = true ->
  List.length name = 8%nat -> List.length ms = 2%nat ->
  List.length ml = 2%nat -> bytes_ok (name_body name ft af gf ms ml) ->
  Forall line_ok lines ->
  Forall (fun ln => l_tag ln = hd 0 (program_bytes lines)
                    \/ l_tag ln = hd 0 (program_bytes lines) + 1) lines ->
  Z.of_nat (List.length (program_bytes lines)) <= 255 ->
  main_loop block_malloc_ok data_malloc_ok cfg
    (wave_of_bytes amp l1 l0 (tape n name ft af gf ms ml lines))
  = Running {| d_chain := []; d_cb := None; d_count := 1; d_nblocks := 3;
               d_listing :=
                 (("Program: " ++ pad_left 8 (c_string (name ++ [0]))
                   ++ newline) ++ render_lines lines)%string |}.
Proof.
  intros Htime Hfirst Hb0 Hb1 Hb2 Hmem Hname Hms Hml Hnok Hok Htags Hlen.
  rewrite (main_loop_bytes _ _ _ _ _ _ Htime).
  rewrite first_crossing_run by assumption.
  rewrite tape_frames.
  split_bytes.
  match goal with
  | |- run_classes _ _ (Running ?d1) _ = _ =>
      rewrite (leader_sync_run _ _ n d1 new_block _ eq_refl eq_refl
                 (or_introl eq_refl))
  end.
  split_bytes.
  match goal with
  | |- run_classes _ _ (Running ?d1) _ = _ =>
      rewrite (name_block_after_sync _ _ d1 0 0 0 LEADERBYTE name ft af gf
                 ms ml _ eq_refl)
  end; try assumption; [|unfold LEADERBYTE; lia].
  split_bytes.
  match goal with
  | |- run_classes _ _ (Running ?d1) _ = _ =>
      rewrite (next_frame_start _ _ d1 n _ eq_refl Hb1)
  end.
  split_bytes.
  cbn [d_chain d_nblocks d_listing d_cb d_count with_block set_count set_cb
       app Z.add Pos.add].
  assert (Hne : program_bytes lines <> [])
    by (unfold program_bytes; destruct (List.concat _); discriminate).
  assert (Hpok : bytes_ok (program_bytes lines)).
  { unfold program_bytes. apply Forall_app. split.
    - apply Forall_concat, Forall_map.
      eapply Forall_impl; [|exact Hok]. intros ln (H & _). exact H.
    - repeat constructor; lia. }
  match goal with
  | |- run_classes _ _ (Running ?d1) _ = _ =>
      rewrite (data_block_after_sync _ _ d1 0 0 0 LEADERBYTE
                 (program_bytes lines) _ eq_refl)
  end; try assumption; [|unfold LEADERBYTE; lia].
  split_bytes.
  match goal with
  | |- run_classes _ _ (Running ?d1) _ = _ =>
      rewrite (next_frame_start _ _ d1 n _ eq_refl Hb2)
  end.
  cbn [d_chain d_nblocks d_listing d_cb d_count with_block set_count set_cb
       app Z.add Pos.add].
  rewrite <- (app_nil_r (classes_of_bytes _)).
  match goal with
  | |- run_classes _ _ (Running ?d1) _ = _ =>
      rewrite (eof_block_after_sync _ _ d1 0 0 0 LEADERBYTE [] eq_refl)
  end; [|unfold LEADERBYTE; lia].
  unfold block_done.
  cbn [d_chain d_nblocks d_listing d_cb d_count with_block set_count set_cb].
  change (b_type decoded_eof =? BT_EOF) with true. cbv iota.
  change ([decoded_name name ft af gf ms ml;
           decoded_data (program_bytes lines)] ++ [decoded_eof])
    with ([decoded_name name ft af gf ms ml]
          ++ decoded_data (program_bytes lines) :: [decoded_eof]).
  rewrite (print_prog_lines [decoded_name name ft af gf ms ml]
             (decoded_data (program_bytes lines)) [decoded_eof] lines);
    try assumption; try reflexivity.
  repeat constructor. discriminate.
Qed.

(** X12. A recording of a whole program - a Name frame, a Data frame holding
    the line records and the two nulls that end them, and an End of File
    frame, each after a leader - makes the program print the name header
    and every line, and end with [exit(0)]. *)
Theorem tape_to_listing (block_malloc_ok data_malloc_ok : Z -> bool)
    (cfg : config) (amp : Z) (l1 l0 : nat) (n : nat) (name : list Z)
    (ft af gf : Z) (ms ml : list Z) (lines : list line) :
  well_timed cfg amp l1 l0 -> classify cfg 0 <> One ->
  block_malloc_ok 0 = true -> block_malloc_ok 1 = true ->
  block_malloc_ok 2 = true ->
  data_malloc_ok (Z.of_nat (List.length (program_bytes lines)) + 1) = true ->
  List.length name = 8%nat -> List.length ms = 2%nat ->
  List.length ml = 2%nat -> bytes_ok (name_body name ft af gf ms ml) ->
  Forall line_ok lines ->
  Forall (fun ln => l_tag ln = hd 0 (program_bytes lines)
                    \/ l_tag ln = hd 0 (program_bytes lines) + 1) lines ->
  Z.of_nat (List.length (program_bytes lines)) <= 255 ->
  main block_malloc_ok data_malloc_ok cfg
    (wave_of_bytes amp l1 l0 (tape n name ft af gf ms ml lines))
  = Exited 0
      (("Program: " ++ pad_left 8 (c_string (name ++ [0])) ++ newline)
       ++ render_lines lines)%string.
Proof.
  intros Htime Hfirst Hb0 Hb1 Hb2 Hmem Hname Hms Hml Hnok Hok Htags Hlen.
  unfold main.
  rewrite (tape_run block_malloc_ok data_malloc_ok cfg amp l1 l0 n name ft af
             gf ms ml lines) by assumption.
  cbn [chain_of d_chain d_cb app d_listing].
  change (print_prog []) with (PP_return EmptyString NoDataBlock).
  cbv iota. rewrite string_app_nil_r. reflexivity.
Qed.

Lemma tape_to_listing_witness :
  main always always default_config
    (wave_of_bytes 16000 18 37
       (tape 2 [72; 69; 76; 76; 79; 32; 32; 32] 0 0 0 [0; 0] [0; 0]
          [ {| l_tag := 0x1E; l_nlo := 0x0B; l_hi := 0; l_lo := 10;
               l_body := [0x87; 0x22; 0x48; 0x49; 0x22] |};
            {| l_tag := 0x1E; l_nlo := 0x11; l_hi := 0; l_lo := 20;
               l_body := [0x8A] |} ]))
  = Exited 0
      (("Program: "
        ++ pad_left 8 (c_string ([72; 69; 76; 76; 79; 32; 32; 32] ++ [0]))
        ++ newline)
       ++ render_lines
            [ {| l_tag := 0x1E; l_nlo := 0x0B; l_hi := 0; l_lo := 10;
                 l_body := [0x87; 0x22; 0x48; 0x49; 0x22] |};
              {| l_tag := 0x1E; l_nlo := 0x11; l_hi := 0; l_lo := 20;
                 l_body := [0x8A] |} ])%string.
Proof.
  apply tape_to_listing.
  - unfold well_timed. repeat split; try lia; reflexivity.
  - vm_compute. discriminate.
  - reflexivity.
  - reflexivity.
  - reflexivity.
  - reflexivity.
  - reflexivity.
  - reflexivity.
  - reflexivity.
  - repeat constructor; lia.
  - repeat constructor; cbn; try lia; try discriminate;
      intuition discriminate.
  - repeat constructor.
  - cbn. lia.
Defined.

(** X13. A recording of a leader, the sync byte and a Name block leaves one
    finished Name block on the chain: the eight name bytes are in
    [b_progname] before the NUL left by [memset], file type, flags and
    addresses are in their fields, and [b_length] has gone from 15 to 13,
    since every byte of the load address counts it down. *)
Theorem name_frame_round_trip (block_malloc_ok data_malloc_ok : Z -> bool)
    (cfg : config) (amp : Z) (l1 l0 : nat) (n : nat) (name : list Z)
    (ft af gf : Z) (ms ml : list Z) (trailer : Z) :
  well_timed cfg amp l1 l0 -> classify cfg 0 <> One ->
  block_malloc_ok 0 = true ->
  List.length name = 8%nat -> List.length ms = 2%nat ->
  List.length ml = 2%nat -> bytes_ok (name_body name ft af gf ms ml) ->
  0 <= trailer < 256 ->
  main_loop block_malloc_ok data_malloc_ok cfg
    (wave_of_bytes amp l1 l0
       ((repeat LEADERBYTE n ++ [SYNCBYTE])
        ++ [BT_NAME; NAMEBLOCKLEN] ++ name_body name ft af gf ms ml
        ++ [sum8 (BT_NAME :: NAMEBLOCKLEN :: name_body name ft af gf ms ml)]
        ++ [trailer]))
  = Running {| d_chain := [decoded_name name ft af gf ms ml]; d_cb := None;
               d_count := 1; d_nblocks := 1; d_listing := EmptyString |}
  /\ b_progname (decoded_name name ft af gf ms ml) = name ++ [0]
  /\ b_length (decoded_name name ft af gf ms ml) = 13.
Proof.
  intros Htime Hfirst Hb0 Hname Hms Hml Hnok Htr.
  split; [|split; reflexivity].
  rewrite (main_loop_bytes _ _ _ _ _ _ Htime).
  rewrite first_crossing_run by assumption.
  rewrite classes_of_bytes_app.
  match goal with
  | |- run_classes _ _ (Running ?d1) _ = _ =>
      rewrite (leader_sync_run _ _ n d1 new_block _ eq_refl eq_refl
                 (or_introl eq_refl))
  end.
  rewrite <- (app_nil_r (classes_of_bytes _)).
  match goal with
  | |- run_classes _ _ (Running ?d1) _ = _ =>
      rewrite (name_block_after_sync _ _ d1 0 0 0 trailer name ft af gf
                 ms ml [] eq_refl)
  end; try assumption.
  reflexivity.
Qed.

Lemma name_frame_round_trip_witness :
  main_loop always always default_config
    (wave_of_bytes 16000 18 37
       ((repeat LEADERBYTE 4 ++ [SYNCBYTE])
        ++ [BT_NAME; NAMEBLOCKLEN]
        ++ name_body [72; 69; 76; 76; 79; 32; 32; 32] 0 0 0 [0; 0] [0x1E; 0]
        ++ [sum8 (BT_NAME :: NAMEBLOCKLEN
                  :: name_body [72; 69; 76; 76; 79; 32; 32; 32] 0 0 0 [0; 0]
                       [0x1E; 0])]
        ++ [LEADERBYTE]))
  = Running {| d_chain := [decoded_name [72; 69; 76; 76; 79; 32; 32; 32] 0 0 0
                                         [0; 0] [0x1E; 0]];
               d_cb := None; d_count := 1; d_nblocks := 1;
               d_listing := EmptyString |}
  /\ b_progname (decoded_name [72; 69; 76; 76; 79; 32; 32; 32] 0 0 0 [0; 0]
                   [0x1E; 0])
     = [72; 69; 76; 76; 79; 32; 32; 32] ++ [0]
  /\ b_length (decoded_name [72; 69; 76; 76; 79; 32; 32; 32] 0 0 0 [0; 0]
                 [0x1E; 0]) = 13.
Proof.
  apply (name_frame_round_trip always always default_config 16000 18 37 4
           [72; 69; 76; 76; 79; 32; 32; 32] 0 0 0 [0; 0] [0x1E; 0]
           LEADERBYTE).
  - unfold well_timed. repeat split; try lia; reflexivity.
  - vm_compute. discriminate.
  - reflexivity.
  - reflexivity.
  - reflexivity.
  - reflexivity.
  - repeat constructor; lia.
  - unfold LEADERBYTE. lia.
Defined.

(** ** Rejected headers *)

Section Headers.

Variable block_malloc_ok : Z -> bool.
Variable data_malloc_ok : Z -> bool.

Local Abbreviation run_classes' := (run_classes block_malloc_ok data_malloc_ok).

(** The length byte of a Data block whose buffer cannot be allocated. *)
Lemma data_malloc_fails_run (d : decoder) (t l c len : Z) (ks : list cycle) :
  d_cb d = Some (set_state BS_NEED_BLOCKTYPE (hunting_block t l c 1)) ->
  0 <= len < 256 -> data_malloc_ok (len + 1) = false ->
  run_classes' (Running d) (classes_of_bytes [BT_DATA; len] ++ ks)
  = Exited 1 (d_listing d).
Proof.
  intros Hcb Hlen Hfail.
  rewrite classes_of_bytes_one, <- app_assoc.
  rewrite (byte_run _ _ d _ BT_DATA _ Hcb); try discriminate;
    try reflexivity; [|unfold BT_DATA; lia].
  change (on_byte data_malloc_ok d
            (set_state BS_NEED_BLOCKTYPE (hunting_block t l c 1)) BT_DATA)
    with (Running (set_count 1 (set_cb (Some
            (set_cksum BT_DATA (set_type BT_DATA (set_state BS_NEED_LENGTH
               (hunting_block t l c 1))))) d))).
  match goal with
  | |- run_classes _ _ (Running ?d1) _ = _ =>
      rewrite (byte_run _ _ d1 _ len ks eq_refl)
  end; try discriminate; try reflexivity; try assumption.
  unfold on_byte, process_bit, hunting_block. block_simpl.
  cbn [Z.eqb Pos.eqb BT_DATA BT_NAME BT_EOF]. rewrite Hfail.
  cbn [settle count_up]. apply run_classes_stopped. discriminate.
Qed.

(** The length byte of a Name block that is not 15, or of an End of File
    block that is not 0, sends the block back to the hunt for a sync byte;
    type, length and running sum stay as they were read. *)
Lemma bad_length_run (d : decoder) (t0 l0 c0 t len : Z) (ks : list cycle) :
  d_cb d = Some (set_state BS_NEED_BLOCKTYPE (hunting_block t0 l0 c0 1)) ->
  (t = BT_NAME /\ len <> NAMEBLOCKLEN) \/ (t = BT_EOF /\ len <> 0) ->
  0 <= len < 256 ->
  run_classes' (Running d) (classes_of_bytes [t; len] ++ ks)
  = run_classes'
      (Running (set_count 1
         (set_cb (Some (hunting_block t len (add8 t len) 1)) d))) ks.
Proof.
  intros Hcb Ht Hlen.
  rewrite classes_of_bytes_one, <- app_assoc.
  rewrite (byte_run _ _ d _ t _ Hcb); try discriminate; try reflexivity.
  2:{ destruct Ht as [[-> _] | [-> _]]; [unfold BT_NAME | unfold BT_EOF]; lia. }
  assert (Hstep : on_byte data_malloc_ok d
            (set_state BS_NEED_BLOCKTYPE (hunting_block t0 l0 c0 1)) t
          = Running (set_count 1 (set_cb (Some
              (set_cksum t (set_type t (set_state BS_NEED_LENGTH
                 (hunting_block t0 l0 c0 1))))) d))).
  { destruct Ht as [[-> _] | [-> _]]; reflexivity. }
  rewrite Hstep.
  match goal with
  | |- run_classes _ _ (Running ?d1) _ = _ =>
      rewrite (byte_run _ _ d1 _ len ks eq_refl)
  end; try discriminate; try reflexivity; try assumption.
  f_equal. unfold on_byte, process_bit, hunting_block. block_simpl.
  destruct Ht as [[-> Hne] | [-> Hne]];
    cbn [Z.eqb Pos.eqb BT_DATA BT_NAME BT_EOF].
  - destruct (Z.eqb_spec len NAMEBLOCKLEN); [congruence|]. reflexivity.
  - destruct (Z.eqb_spec len 0); [congruence|]. reflexivity.
Qed.

End Headers.

(** X14. When the buffer of a Data block cannot be allocated, the run ends
    with [exit(1)] at the length byte, whatever is recorded after it, and
    the listing printed by [print_prog] is the one printed before that
    byte.  (The [PRINT_ERROR] line printed before the return is diagnostic
    output, which the model leaves out.) *)
Theorem data_malloc_failure (block_malloc_ok data_malloc_ok : Z -> bool)
    (cfg : config) (amp : Z) (l1 l0 : nat) (pre : list Z) (d : decoder)
    (t0 len0 c0 len : Z) (rest : list Z) :
  well_timed cfg amp l1 l0 ->
  main_loop block_malloc_ok data_malloc_ok cfg (wave_of_bytes amp l1 l0 pre)
  = Running d ->
  d_cb d = Some (set_state BS_NEED_BLOCKTYPE (hunting_block t0 len0 c0 1)) ->
  0 <= len < 256 -> data_malloc_ok (len + 1) = false ->
  main block_malloc_ok data_malloc_ok cfg
    (wave_of_bytes amp l1 l0 (pre ++ BT_DATA :: len :: rest))
  = Exited 1 (d_listing d).
Proof.
  intros Htime Hpre Hcb Hlen Hfail. unfold main.
  rewrite (main_loop_bytes_app _ _ _ _ _ _ Htime), Hpre.
  change (BT_DATA :: len :: rest) with ([BT_DATA; len] ++ rest).
  rewrite classes_of_bytes_app.
  rewrite (data_malloc_fails_run _ _ d t0 len0 c0 len _ Hcb Hlen Hfail).
  reflexivity.
Qed.

Lemma data_malloc_failure_witness :
  main always (fun n => n <? 4) default_config
    (wave_of_bytes 16000 18 37 ([0x3C] ++ BT_DATA :: 3 :: [0x1E; 0x00; 0x41]))
  = Exited 1
      (d_listing {| d_chain := [];
                    d_cb := Some (set_state BS_NEED_BLOCKTYPE
                                    (hunting_block 0 0 0 1));
                    d_count := 1; d_nblocks := 1;
                    d_listing := EmptyString |}).
Proof.
  apply (data_malloc_failure always (fun n => n <? 4) default_config
           16000 18 37 [0x3C] _ 0 0 0 3 [0x1E; 0x00; 0x41]).
  - unfold well_timed. repeat split; try lia; reflexivity.
  - vm_compute. reflexivity.
  - reflexivity.
  - lia.
  - reflexivity.
Defined.

(** X15. A Name header whose length byte is not 15, or an End of File header
    whose length byte is not 0, is dropped: the block goes back to the hunt
    for a sync byte keeping the type, length and sum it read, and a Data
    frame recorded next is decoded into the same block structure, as if the
    header had not been there. *)
Theorem bad_length_is_dropped (block_malloc_ok data_malloc_ok : Z -> bool)
    (cfg : config) (amp : Z) (l1 l0 : nat) (pre : list Z) (d : decoder)
    (t0 len0 c0 t len : Z) (bytes : list Z) :
  well_timed cfg amp l1 l0 ->
  main_loop block_malloc_ok data_malloc_ok cfg (wave_of_bytes amp l1 l0 pre)
  = Running d ->
  d_cb d = Some (set_state BS_NEED_BLOCKTYPE (hunting_block t0 len0 c0 1)) ->
  (t = BT_NAME /\ len <> NAMEBLOCKLEN) \/ (t = BT_EOF /\ len <> 0) ->
  0 <= len < 256 ->
  bytes <> [] -> bytes_ok bytes -> Z.of_nat (List.length bytes) <= 255 ->
  data_malloc_ok (Z.of_nat (List.length bytes) + 1) = true ->
  main_loop block_malloc_ok data_malloc_ok cfg
    (wave_of_bytes amp l1 l0 (pre ++ [t; len]))
  = Running (set_count 1
      (set_cb (Some (hunting_block t len (add8 t len) 1)) d))
  /\ main_loop block_malloc_ok data_malloc_ok cfg
       (wave_of_bytes amp l1 l0 (pre ++ [t; len] ++ data_frame bytes))
     = Running (with_block (decoded_data bytes) d).
Proof.
  intros Htime Hpre Hcb Ht Hlen Hne Hok Hmax Hmem. split.
  - rewrite (main_loop_bytes_app _ _ _ _ _ _ Htime), Hpre.
    rewrite <- (app_nil_r (classes_of_bytes _)).
    rewrite (bad_length_run _ _ d t0 len0 c0 t len [] Hcb Ht Hlen).
    reflexivity.
  - rewrite (main_loop_bytes_app _ _ _ _ _ _ Htime), Hpre.
    rewrite classes_of_bytes_app.
    rewrite (bad_length_run _ _ d t0 len0 c0 t len _ Hcb Ht Hlen).
    rewrite <- (app_nil_r (classes_of_bytes _)).
    match goal with
    | |- run_classes _ _ (Running ?d1) _ = _ =>
        rewrite (data_frame_run _ _ d1 t len (add8 t len) 1 bytes []
                   eq_refl Hne Hok Hmax Hmem)
    end.
    destruct d. reflexivity.
Qed.

Lemma bad_length_is_dropped_witness :
  main_loop always always default_config
    (wave_of_bytes 16000 18 37 ([0x3C] ++ [BT_EOF; 7]))
  = Running (set_count 1
      (set_cb (Some (hunting_block BT_EOF 7 (add8 BT_EOF 7) 1))
         {| d_chain := [];
            d_cb := Some (set_state BS_NEED_BLOCKTYPE (hunting_block 0 0 0 1));
            d_count := 1; d_nblocks := 1; d_listing := EmptyString |}))
  /\ main_loop always always default_config
       (wave_of_bytes 16000 18 37
          ([0x3C] ++ [BT_EOF; 7] ++ data_frame [0x1E; 0x00; 0x41]))
     = Running (with_block (decoded_data [0x1E; 0x00; 0x41])
         {| d_chain := [];
            d_cb := Some (set_state BS_NEED_BLOCKTYPE (hunting_block 0 0 0 1));
            d_count := 1; d_nblocks := 1; d_listing := EmptyString |}).
Proof.
  apply (bad_length_is_dropped always always default_config 16000 18 37
           [0x3C] _ 0 0 0 BT_EOF 7 [0x1E; 0x00; 0x41]).
  - unfold well_timed. repeat split; try lia; reflexivity.
  - vm_compute. reflexivity.
  - reflexivity.
  - right. split; [reflexivity|lia].
  - lia.
  - discriminate.
  - repeat constructor; lia.
  - cbn. lia.
  - reflexivity.
Defined.

(** X16. An End of File block hands the whole chain, itself included, to
    [print_prog] at its trailing byte: when that returns the listing is
    printed, the chain is freed and the decoder has no current block, so a
    program recorded next starts a new chain; when it leaves through
    [exit(1)] the run ends there. *)
Theorem end_of_file_hands_over (block_malloc_ok data_malloc_ok : Z -> bool)
    (cfg : config) (amp : Z) (l1 l0 : nat) (pre : list Z) (d : decoder)
    (t0 len0 c0 trailer : Z) :
  well_timed cfg amp l1 l0 ->
  main_loop block_malloc_ok data_malloc_ok cfg (wave_of_bytes amp l1 l0 pre)
  = Running d ->
  d_cb d = Some (set_state BS_NEED_BLOCKTYPE (hunting_block t0 len0 c0 1)) ->
  0 <= trailer < 256 ->
  main_loop block_malloc_ok data_malloc_ok cfg
    (wave_of_bytes amp l1 l0 (pre ++ [BT_EOF; 0; BT_EOF; trailer]))
  = match print_prog (d_chain d ++ [decoded_eof]) with
    | PP_return text _ =>
        Running {| d_chain := []; d_cb := None; d_count := 1;
                   d_nblocks := d_nblocks d;
                   d_listing := (d_listing d ++ text)%string |}
    | PP_exit text _ => Exited 1 (d_listing d ++ text)%string
    | PP_fault | PP_out_of_fuel => Undefined
    end.
Proof.
  intros Htime Hpre Hcb Htr.
  rewrite (main_loop_bytes_app _ _ _ _ _ _ Htime), Hpre.
  rewrite <- (app_nil_r (classes_of_bytes _)).
  rewrite (eof_block_after_sync _ _ d t0 len0 c0 trailer [] Hcb Htr).
  unfold block_done. change (b_type decoded_eof =? BT_EOF) with true.
  cbv iota. cbn [set_count d_chain d_listing d_count d_nblocks].
  destruct (print_prog (d_chain d ++ [decoded_eof])); reflexivity.
Qed.

Lemma end_of_file_hands_over_witness :
  main_loop always always default_config
    (wave_of_bytes 16000 18 37
       ((data_frame (program_bytes
                       [ {| l_tag := 0x1E; l_nlo := 0x11; l_hi := 0;
                            l_lo := 20; l_body := [0x8A] |} ]) ++ [0x3C])
        ++ [BT_EOF; 0; BT_EOF; 0x55]))
  = match print_prog
            (d_chain
               {| d_chain := [decoded_data
                                (program_bytes
                                   [ {| l_tag := 0x1E; l_nlo := 0x11;
                                        l_hi := 0; l_lo := 20;
                                        l_body := [0x8A] |} ])];
                  d_cb := Some (set_state BS_NEED_BLOCKTYPE
                                  (hunting_block 0 0 0 1));
                  d_count := 1; d_nblocks := 2; d_listing := EmptyString |}
             ++ [decoded_eof]) with
    | PP_return text _ =>
        Running {| d_chain := []; d_cb := None; d_count := 1;
                   d_nblocks := 2;
                   d_listing := (EmptyString ++ text)%string |}
    | PP_exit text _ => Exited 1 (EmptyString ++ text)%string
    | PP_fault | PP_out_of_fuel => Undefined
    end.
Proof.
  apply (end_of_file_hands_over always always default_config 16000 18 37
           (data_frame (program_bytes
                          [ {| l_tag := 0x1E; l_nlo := 0x11; l_hi := 0;
                               l_lo := 20; l_body := [0x8A] |} ]) ++ [0x3C])
           {| d_chain := [decoded_data
                            (program_bytes
                               [ {| l_tag := 0x1E; l_nlo := 0x11;
                                    l_hi := 0; l_lo := 20;
                                    l_body := [0x8A] |} ])];
              d_cb := Some (set_state BS_NEED_BLOCKTYPE
                              (hunting_block 0 0 0 1));
              d_count := 1; d_nblocks := 2; d_listing := EmptyString |}
           0 0 0 0x55).
  - unfold well_timed. repeat split; try lia; reflexivity.
  - vm_compute. reflexivity.
  - reflexivity.
  - lia.
Defined.

(** ** More on [asciidump] *)

Lemma option_map_append_nil (o : option string) :
  option_map (append EmptyString) o = o.
Proof. destruct o; reflexivity. Qed.

Lemma option_map_cons_append (ch : ascii) (t : string) (o : option string) :
  option_map (String ch) (option_map (append t) o)
  = option_map (append (String ch t)) o.
Proof. destruct o; reflexivity. Qed.

Lemma option_map_append_append (kw t : string) (o : option string) :
  option_map (append kw) (option_map (append t) o)
  = option_map (append (kw ++ t)) o.
Proof. destruct o; cbn; [rewrite string_app_assoc|]; reflexivity. Qed.

Lemma option_map_some {A B : Type} (f : A -> B) (o : option A) (y : B) :
  option_map f o = Some y -> exists x, o = Some x /\ y = f x.
Proof. destruct o; [|discriminate]. intros [= <-]. eauto. Qed.

(** Bytes rendered without a fault are rendered the same with more bytes
    after them. *)
Lemma asciidump_app_bounded (n : nat) :
  forall (a b : list Z) (ta : string),
    (List.length a <= n)%nat -> asciidump a = Some ta ->
    asciidump (a ++ b) = option_map (append ta) (asciidump b).
Proof.
  induction n as [|n IH]; intros a b ta Hn Ha.
  - destruct a; [|cbn in Hn; lia]. injection Ha as <-.
    cbn [app]. rewrite option_map_append_nil. reflexivity.
  - destruct a as [|c rest].
    { injection Ha as <-. cbn [app]. rewrite option_map_append_nil.
      reflexivity. }
    cbn [List.length] in Hn. cbn [app asciidump] in *.
    destruct (isprint c).
    { apply option_map_some in Ha. destruct Ha as (tr & Hr & ->).
      rewrite (IH rest b tr) by (assumption || lia).
      apply option_map_cons_append. }
    destruct ((0x7f <? c) && (c <? 0xe0)).
    { destruct (keyword token (c - 0x80)) as [kw|]; [|discriminate].
      apply option_map_some in Ha. destruct Ha as (tr & Hr & ->).
      rewrite (IH rest b tr) by (assumption || lia).
      apply option_map_append_append. }
    destruct (c =? 0xff).
    { destruct rest as [|m rest']; [discriminate|]. cbn [app].
      destruct (keyword ftoken (m - 0x80)) as [kw|]; [|discriminate].
      apply option_map_some in Ha. destruct Ha as (tr & Hr & ->).
      rewrite (IH rest' b tr) by (assumption || cbn [List.length] in Hn; lia).
      apply option_map_append_append. }
    destruct (negb (c =? 0)).
    { apply option_map_some in Ha. destruct Ha as (tr & Hr & ->).
      rewrite (IH rest b tr) by (assumption || lia).
      apply option_map_append_append. }
    apply IH; [lia|assumption].
Qed.

(** X17. Rendering composes: what is printed for a run of bytes that is rendered
    without a fault does not depend on the bytes after it, and the bytes
    after it are rendered as they would be alone. *)
Theorem asciidump_app (a b : list Z) (ta : string) :
  asciidump a = Some ta ->
  asciidump (a ++ b) = option_map (append ta) (asciidump b).
Proof. apply (asciidump_app_bounded (List.length a)). lia. Qed.

Lemma asciidump_app_witness :
  asciidump ([0x87; 0x22; 0x48] ++ [0x49; 0x22])
  = option_map (append (append "PRINT" (String (char_of_byte 0x22) "H")))
      (asciidump [0x49; 0x22]).
Proof. apply asciidump_app. reflexivity. Defined.

(** X18. Without the byte 0xFF no read leaves the keyword tables: every byte
    sequence is rendered. *)
Theorem asciidump_without_ff (data : list Z) :
  ~ In 0xFF data -> exists text, asciidump data = Some text.
Proof.
  induction data as [|c rest IH]; intros Hff; [eexists; reflexivity|].
  destruct IH as [tr Hr]; [intros H; apply Hff; right; exact H|].
  cbn [asciidump]. rewrite Hr. cbn [option_map].
  destruct (isprint c); [eexists; reflexivity|].
  destruct (Z.ltb_spec 0x7f c), (Z.ltb_spec c 0xe0); cbn [andb].
  - destruct (keyword_token c) as [kw ->]; [lia|]. eexists; reflexivity.
  - destruct (Z.eqb_spec c 0xff) as [->|_];
      [destruct Hff; left; reflexivity|].
    destruct (negb (c =? 0)); eexists; reflexivity.
  - destruct (Z.eqb_spec c 0xff) as [->|_];
      [destruct Hff; left; reflexivity|].
    destruct (negb (c =? 0)); eexists; reflexivity.
  - lia.
Qed.

Lemma asciidump_without_ff_witness :
  exists text, asciidump [0x87; 0x22; 0xFE; 0x00; 0x7F; 0x22] = Some text.
Proof.
  apply asciidump_without_ff. cbn. intuition discriminate.
Defined.

(** X19. After 0xFF the next byte indexes [ftoken] at [n - 0x80] unchecked: for
    a byte below 0x80 or above 0xA6 the read is outside the table of 39
    function keywords, and an 0xFF that ends the data makes the function
    read [data[size]], past the bytes it was given. *)
Theorem function_token_outside_table (pre : list Z) (t : string) (n : Z)
    (rest : list Z) :
  asciidump pre = Some t -> n < 0x80 \/ 0xA6 < n ->
  asciidump (pre ++ 0xFF :: n :: rest) = None
  /\ asciidump (pre ++ [0xFF]) = None.
Proof.
  intros Hpre Hn.
  rewrite !(asciidump_app_bounded (List.length pre) pre _ t) by (lia || assumption).
  split; [|reflexivity].
  cbn [asciidump]. change (isprint 0xFF) with false.
  cbn [andb Z.ltb Z.eqb Pos.eqb Z.compare Pos.compare Pos.compare_cont].
  assert (Hkw : keyword ftoken (n - 0x80) = None).
  { unfold keyword. destruct (Z.ltb_spec (n - 0x80) 0); [reflexivity|].
    apply nth_error_None. cbn [List.length ftoken]. lia. }
  rewrite Hkw. reflexivity.
Qed.

Lemma function_token_outside_table_witness :
  asciidump ([0x87] ++ 0xFF :: 0x41 :: [0x22]) = None
  /\ asciidump ([0x87] ++ [0xFF]) = None.
Proof.
  apply (function_token_outside_table [0x87] "PRINT" 0x41 [0x22]).
  - reflexivity.
  - left. lia.
Defined.

(** ** Chains without a Data block *)

(** X20. Without a Data block on the chain [print_prog] prints the name header,
    if the chain starts with a finished Name block, and returns: no line is
    read. *)
Theorem no_data_block_no_lines (chain : list block) :
  Forall (fun b => b_type b <> BT_DATA) chain ->
  print_prog chain = PP_return (listing_header chain) NoDataBlock.
Proof.
  intros Hno. unfold print_prog. fold (listing_header chain).
  assert (Hskip : skip_to_data chain = []).
  { induction Hno as [|b rest Hb _ IH]; cbn [skip_to_data]; [reflexivity|].
    destruct (Z.eqb_spec (b_type b) BT_DATA); [congruence|]. exact IH. }
  rewrite Hskip. reflexivity.
Qed.

Lemma no_data_block_no_lines_witness :
  print_prog [decoded_name [72; 69; 76; 76; 79; 32; 32; 32] 0 0 0 [0; 0] [0; 0];
              decoded_eof]
  = PP_return
      (listing_header
         [decoded_name [72; 69; 76; 76; 79; 32; 32; 32] 0 0 0 [0; 0] [0; 0];
          decoded_eof])
      NoDataBlock.
Proof.
  apply no_data_block_no_lines. repeat constructor; discriminate.
Defined.

(** ** What holds of the current block at every turn *)

Section Reachable.

Variable block_malloc_ok : Z -> bool.
Variable data_malloc_ok : Z -> bool.
Variable cfg : config.

(** A property of blocks that a fresh block has and that [process_bit]
    keeps as long as the block is not finished. *)
Variable P : block -> Prop.
Hypothesis P_new : P new_block.
Hypothesis P_step :
  forall (cb cb' : block) (k : cycle),
    P cb ->
    process_bit data_malloc_ok (set_byte (shift_in k (b_byte cb)) cb)
    = PB_ok cb' ->
    b_state cb' <> BS_DONE -> P cb'.

Local Abbreviation holds_of_current' := (holds_of_current P).

Lemma settle_holds (d : decoder) (cb : block) (k : cycle) :
  P cb ->
  holds_of_current'
    (settle d (process_bit data_malloc_ok
                 (set_byte (shift_in k (b_byte cb)) cb))).
Proof.
  intros Hp.
  destruct (process_bit data_malloc_ok _) as [cb'|e|] eqn:E; cbn [settle];
    try exact I.
  destruct (block_state_eqb (b_state cb') BS_DONE) eqn:Hd.
  - unfold block_done. destruct (b_type cb' =? BT_EOF); [|exact I].
    destruct (print_prog _); exact I.
  - unfold holds_of_current; cbn [d_cb]. apply (P_step cb cb' k Hp E).
    intros Hs. rewrite Hs in Hd. discriminate Hd.
Qed.

Lemma loop_body_holds (d : decoder) (prev cur : Z) :
  holds_of_current' (Running d) ->
  holds_of_current' (loop_body block_malloc_ok data_malloc_ok cfg d prev cur).
Proof.
  intros Hd. unfold loop_body, ensure_block. unfold holds_of_current in Hd.
  destruct (d_cb d) as [cb|] eqn:Ecb.
  - destruct (falling_crossing prev cur).
    + pose proof (settle_holds d cb (classify cfg (d_count d)) Hd) as H.
      unfold on_cycle. destruct (settle d _); exact H.
    + unfold holds_of_current; cbn [count_up set_count d_cb]. rewrite Ecb. exact Hd.
  - destruct (block_malloc_ok (d_nblocks d)); [|exact I].
    destruct (falling_crossing prev cur).
    + match goal with
      | |- holds_of_current' (count_up (on_cycle _ ?d1 _ ?k)) =>
          pose proof (settle_holds d1 new_block k P_new) as H;
            unfold on_cycle; destruct (settle d1 _); exact H
      end.
    + exact P_new.
Qed.

Lemma sample_loop_holds (data : list Z) :
  forall (o : outcome) (prev : Z),
    holds_of_current' o ->
    holds_of_current'
      (sample_loop block_malloc_ok data_malloc_ok cfg o prev data).
Proof.
  induction data as [|s rest IH]; intros o prev Ho; [exact Ho|].
  destruct o as [d| |]; cbn [sample_loop]; try exact I.
  apply IH. apply loop_body_holds. exact Ho.
Qed.

Lemma main_loop_holds (data : list Z) (d : decoder) (cb : block) :
  main_loop block_malloc_ok data_malloc_ok cfg data = Running d ->
  d_cb d = Some cb -> P cb.
Proof.
  intros Hrun Hcb.
  assert (H : holds_of_current'
                (main_loop block_malloc_ok data_malloc_ok cfg data)).
  { unfold main_loop. destruct data as [|s0 rest]; [exact I|].
    apply sample_loop_holds. exact I. }
  rewrite Hrun in H. unfold holds_of_current in H. rewrite Hcb in H. exact H.
Qed.

End Reachable.

(** ** Stores stay inside their arrays *)

Lemma store_nat_in_bounds (a : list Z) :
  forall (n : nat) (v : Z),
    (n < List.length a)%nat ->
    exists a', store_nat a n v = Some a' /\ List.length a' = List.length a.
Proof.
  induction a as [|x a IH]; intros n v Hn; [cbn in Hn; lia|].
  destruct n as [|n]; cbn [store_nat].
  - eexists. split; reflexivity.
  - destruct (IH n v) as (a' & -> & Hlen); [cbn in Hn; lia|].
    eexists. split; [reflexivity|]. cbn. rewrite Hlen. reflexivity.
Qed.

Lemma store_in_bounds (a : list Z) (i v : Z) :
  0 <= i < Z.of_nat (List.length a) ->
  exists a', store a i v = Some a' /\ List.length a' = List.length a.
Proof.
  intros Hi. unfold store. destruct (Z.ltb_spec i 0); [lia|].
  apply store_nat_in_bounds. lia.
Qed.

Lemma store_length (a a' : list Z) (i v : Z) :
  store a i v = Some a' -> List.length a' = List.length a.
Proof.
  unfold store. destruct (Z.ltb_spec i 0); [discriminate|].
  generalize (Z.to_nat i). clear. intros n. revert n a'.
  induction a as [|x a IH]; intros n a'; [discriminate|].
  destruct n as [|n]; cbn [store_nat].
  - intros [= <-]. reflexivity.
  - destruct (store_nat a n v) as [t|] eqn:E; [|discriminate].
    intros [= <-]. cbn. rewrite (IH n t E). reflexivity.
Qed.

Lemma shift_in_range (k : cycle) (b : Z) :
  0 <= b < 256 -> 0 <= shift_in k b < 256.
Proof.
  intros Hb. destruct k; cbn [shift_in]; [| |assumption].
  - assert (H : ((0 <=? Z.lor (Z.shiftr b 1) 0x80)
                 && (Z.lor (Z.shiftr b 1) 0x80 <? 256)) = true)
      by (apply (byte_cases (fun b =>
            (0 <=? Z.lor (Z.shiftr b 1) 0x80)
            && (Z.lor (Z.shiftr b 1) 0x80 <? 256)));
          [vm_compute; reflexivity | assumption]).
    apply andb_true_iff in H. destruct H as [H1 H2]. lia.
  - rewrite Z.shiftr_div_pow2 by lia. change (2 ^ 1) with 2.
    split; [apply Z.div_pos; lia | apply Z.div_lt_upper_bound; lia].
Qed.

Ltac safe_finish :=
  repeat match goal with
         | |- context [if ?b then _ else _] => destruct b eqn:?
         end;
  cbv iota; block_simpl; cbv iota;
  unfold PROGNAMELEN, MLSTARTLEN, MLLOADLEN in *;
  try solve [intuition (try assumption; try lia)].

(** One call of [process_bit] on a safe block holding a byte. *)
Lemma process_bit_in_bounds (data_malloc_ok : Z -> bool) (cb : block) :
  block_safe cb ->
  match process_bit data_malloc_ok cb with
  | PB_ok cb' => block_safe cb'
  | PB_error _ => True
  | PB_fault => b_state cb = BS_NEED_DATA /\ b_length cb = 0
  end.
Proof.
  intros (Hpn & Hms & Hml & Hbyte & Hst).
  destruct cb as [st ty len ck dat pn ft af gf ms ml byte nbit di pi si li].
  unfold block_safe. cbn [b_state b_progname b_mlstart b_mlload b_byte
    b_progname_i b_mlstart_i b_mlload_i b_data_i b_data b_length] in *.
  unfold process_bit. block_simpl.
  destruct st.
  all: block_simpl.
  5:{ (* BS_NEED_DATA *)
    destruct (Z.eqb_spec nbit 8) as [Hn|Hn]; [|safe_finish].
    destruct Hst as [H0 | (buf & -> & Hlen & Hdi & Hmax)].
    - destruct dat as [buf|]; [|split; [reflexivity|assumption]].
      destruct (store buf di byte) as [buf'|];
        [|split; [reflexivity|assumption]].
      safe_finish.
    - destruct (store_in_bounds buf di byte) as (buf' & -> & Hlen');
        [lia|].
      destruct (Z.eqb_spec len (inc8 di)) as [He|He]; [safe_finish|].
      cbv iota. block_simpl. repeat split; try assumption; try lia.
      right. exists buf'. unfold inc8 in *.
      rewrite Z.mod_small in * by lia.
      repeat split; lia. }
  all: destruct (Z.eqb_spec nbit 8) as [Hn|Hn];
    try match goal with
        | |- context [store ?a ?i ?v] =>
            let a' := fresh "a'" in
            let L := fresh "L" in
            destruct (store_in_bounds a i v) as (a' & -> & L);
              [unfold PROGNAMELEN, MLSTARTLEN, MLLOADLEN in *; lia|]
        end;
    safe_finish.
  - destruct Hst as (_ & _ & _ & ->).
    repeat split; try assumption; try lia.
    destruct (Z.eq_dec byte 0) as [Hz|Hz]; [left; assumption|right].
    exists (repeat 0 (Z.to_nat (byte + 1))).
    rewrite repeat_length. repeat split; lia.
  - apply Z.eqb_neq in Heqb. unfold inc8 in *.
    rewrite Z.mod_small in * by lia. intuition lia.
  - apply Z.eqb_neq in Heqb. unfold inc8 in *.
    rewrite Z.mod_small in * by lia. intuition lia.
  - apply Z.eqb_neq in Heqb. unfold inc8 in *.
    rewrite Z.mod_small in * by lia. intuition lia.
Qed.

Lemma new_block_safe : block_safe new_block.
Proof. unfold block_safe. cbn. repeat split; lia. Qed.

Lemma set_byte_safe (cb : block) (v : Z) :
  block_safe cb -> 0 <= v < 256 -> block_safe (set_byte v cb).
Proof.
  intros (Hpn & Hms & Hml & _ & Hst) Hv. unfold block_safe. block_simpl.
  repeat split; assumption || lia.
Qed.

Lemma shifted_safe (cb : block) (k : cycle) :
  block_safe cb -> block_safe (set_byte (shift_in k (b_byte cb)) cb).
Proof.
  intros Hs. apply set_byte_safe; [assumption|].
  apply shift_in_range. destruct Hs as (_ & _ & _ & H & _). exact H.
Qed.

(** The current block of the decode loop is safe at every turn. *)
Lemma main_loop_safe (block_malloc_ok data_malloc_ok : Z -> bool)
    (cfg : config) (data : list Z) (d : decoder) (cb : block) :
  main_loop block_malloc_ok data_malloc_ok cfg data = Running d ->
  d_cb d = Some cb -> block_safe cb.
Proof.
  apply (main_loop_holds block_malloc_ok data_malloc_ok cfg block_safe).
  - exact new_block_safe.
  - intros cb0 cb' k Hs E _.
    pose proof (process_bit_in_bounds data_malloc_ok _ (shifted_safe cb0 k Hs))
      as Hstep.
    rewrite E in Hstep. exact Hstep.
Qed.

(** X21. Wherever the decode loop stands after any samples, the next call of
    [process_bit] can store outside an array only into the buffer of a Data
    block whose length byte was 0: the stores into the name and the two
    addresses, and into the buffer of a Data block of length 1 to 255, are
    always inside their arrays. *)
Theorem faults_need_zero_length_data
    (block_malloc_ok data_malloc_ok : Z -> bool) (cfg : config)
    (data : list Z) (d : decoder) (cb : block) (k : cycle) :
  main_loop block_malloc_ok data_malloc_ok cfg data = Running d ->
  d_cb d = Some cb ->
  process_bit data_malloc_ok (set_byte (shift_in k (b_byte cb)) cb)
  = PB_fault ->
  b_state cb = BS_NEED_DATA /\ b_length cb = 0.
Proof.
  intros Hrun Hcb Hfault.
  pose proof (main_loop_safe block_malloc_ok data_malloc_ok cfg data d cb
                Hrun Hcb) as Hs.
  pose proof (process_bit_in_bounds data_malloc_ok _ (shifted_safe cb k Hs))
    as Hstep.
  rewrite Hfault in Hstep. exact Hstep.
Qed.

Lemma faults_need_zero_length_data_witness :
  b_state overrun_block = BS_NEED_DATA /\ b_length overrun_block = 0.
Proof.
  apply (faults_need_zero_length_data always always default_config
           (wave 16000
              (lens_of_bits 18 37
                 (bits_of_bytes [0x3C; 0x01; 0x00; 0x41]
                  ++ firstn 7 (bits_of_byte 0x42))))
           overrun_decoder overrun_block Zero).
  - vm_compute. reflexivity.
  - reflexivity.
  - vm_compute. reflexivity.
Defined.

(** ** Programs in more than one block, and bad line starts *)

(** Lines that lie inside the payload of a block are printed one after the
    other, and the walk goes on behind them. *)
Lemma walk_block_lines (lines : list line) :
  forall (cb : block) (next : list block) (k : Z) (pre post : list Z)
         (out : string) (fuel : nat),
    b_data cb
    = Some (pre ++ List.concat (map encode_line lines) ++ post) ->
    Z.of_nat (List.length pre
              + List.length (List.concat (map encode_line lines)))
    < b_length cb ->
    Forall line_ok lines ->
    Forall (fun ln => l_tag ln = k \/ l_tag ln = k + 1) lines ->
    walk (List.length lines + fuel)
      {| cur := cb :: next; idx := Z.of_nat (List.length pre); blkn := k |} out
    = walk fuel
        {| cur := cb :: next;
           idx := Z.of_nat (List.length pre
                            + List.length
                                (List.concat (map encode_line lines)));
           blkn := k |}
        (out ++ render_lines lines).
Proof.
  induction lines as [|ln lines IH];
    intros cb next k pre post out fuel Hbuf Hlen Hok Htags.
  - cbn [map List.concat List.length Nat.add render_lines fold_right].
    rewrite Nat.add_0_r, string_app_nil_r. reflexivity.
  - inversion Hok as [|? ? Hln Hok']; subst.
    inversion Htags as [|? ? Htag Htags']; subst.
    cbn [map List.concat] in *. rewrite length_app in Hlen.
    pose proof (encode_line_length ln) as Henc.
    cbn [List.length Nat.add walk cur].
    rewrite <- app_assoc in Hbuf.
    rewrite (line_step_reads ln
               {| cur := cb :: next; idx := Z.of_nat (List.length pre);
                  blkn := k |}
               {| cur := cb :: next;
                  idx := Z.of_nat (List.length pre
                                   + List.length (encode_line ln));
                  blkn := k |} cb next eq_refl).
    + replace (Z.of_nat (List.length pre + List.length (encode_line ln)))
        with (Z.of_nat (List.length (pre ++ encode_line ln)))
        by (rewrite length_app; reflexivity).
      rewrite (IH cb next k (pre ++ encode_line ln) post
                 (out ++ render_line ln)%string fuel).
      * cbn [render_lines fold_right]. rewrite string_app_assoc.
        rewrite !length_app. do 3 f_equal. lia.
      * rewrite <- app_assoc. exact Hbuf.
      * rewrite length_app. lia.
      * assumption.
      * assumption.
    + apply three_nulls_not_two. cbn [idx]. lia.
    + assumption.
    + apply (reads_in_block (encode_line ln) cb next k pre
               (List.concat (map encode_line lines) ++ post) Hbuf). lia.
    + exact Htag.
Qed.

Lemma render_lines_app (a b : list line) :
  render_lines (a ++ b) = (render_lines a ++ render_lines b)%string.
Proof.
  induction a as [|l a IH]; cbn [app render_lines fold_right];
    [reflexivity|].
  fold (render_lines (a ++ b)). fold (render_lines a).
  rewrite IH, string_app_assoc. reflexivity.
Qed.

(** [print_prog] on a program held by two Data blocks. *)
Lemma print_prog_two_blocks (front : list block) (cb1 cb2 : block)
    (next : list block) (lines1 : list line) (ln : line)
    (lines2 : list line) (s1 s2 : list Z) (k : Z) :
  Forall (fun b => b_type b <> BT_DATA) front -> b_type cb1 = BT_DATA ->
  b_data cb1 = Some (List.concat (map encode_line lines1) ++ s1 ++ [0]) ->
  b_length cb1
  = Z.of_nat (List.length (List.concat (map encode_line lines1))
              + List.length s1) ->
  b_data cb2 = Some (s2 ++ program_bytes lines2 ++ [0]) ->
  b_length cb2
  = Z.of_nat (List.length s2 + List.length (program_bytes lines2)) ->
  encode_line ln = s1 ++ s2 -> s1 <> [] ->
  List.length s1 <> 2%nat \/ l_tag ln <> 0 ->
  hd 0 (List.concat (map encode_line lines1) ++ s1) = k ->
  Forall line_ok (lines1 ++ ln :: lines2) ->
  Forall (fun l => l_tag l = k \/ l_tag l = k + 1) (lines1 ++ [ln]) ->
  Forall (fun l => l_tag l = inc8 k \/ l_tag l = inc8 k + 1) lines2 ->
  print_prog (front ++ cb1 :: cb2 :: next)
  = PP_return
      (listing_header (front ++ cb1 :: cb2 :: next)
       ++ render_lines (lines1 ++ ln :: lines2))
      EndOfProgram.
Proof.
  intros Hfront Htype Hbuf1 Hlen1 Hbuf2 Hlen2 Hsplit Hne Hnulls Hk Hok
    Htags1 Htags2.
  apply Forall_app in Hok. destruct Hok as [Hok1 Hok2].
  inversion Hok2 as [|? ? Hln Hok3]; subst.
  apply Forall_app in Htags1. destruct Htags1 as [Htags1 Htagln].
  inversion Htagln as [|? ? Htag _]; subst.
  unfold print_prog.
  rewrite (skip_to_data_front front cb1 (cb2 :: next) Hfront Htype).
  fold (listing_header (front ++ cb1 :: cb2 :: next)).
  set (k := hd 0 (List.concat (map encode_line lines1) ++ s1)) in *.
  assert (Hfirst : data_at cb1 0 = Some k).
  { unfold data_at. rewrite Hbuf1. unfold k.
    destruct (List.concat (map encode_line lines1)) as [|x l];
      [destruct s1; [congruence|reflexivity] | reflexivity]. }
  rewrite Hfirst.
  set (out := listing_header (front ++ cb1 :: cb2 :: next)).
  assert (Hs1 : (0 < List.length s1)%nat)
    by (destruct s1; [congruence|cbn; lia]).
  pose proof (lines_fit lines1) as Hfit1.
  pose proof (lines_fit lines2) as Hfit2.
  pose proof (chain_room_nonneg next) as Hnext.
  assert (Hroom : (List.length lines1 + S (S (List.length lines2))
                   <= Z.to_nat (chain_room (cb1 :: cb2 :: next)))%nat).
  { cbn [chain_room]. unfold buffer_size. rewrite Hbuf1, Hbuf2.
    unfold program_bytes. rewrite !length_app. cbn [List.length]. lia. }
  remember (Z.to_nat (chain_room (cb1 :: cb2 :: next))) as fuel0 eqn:Hf0.
  replace fuel0
    with (List.length lines1 + S (fuel0 - List.length lines1 - 1))%nat
    by lia.
  rewrite (walk_block_lines lines1 cb1 (cb2 :: next) k [] (s1 ++ [0]) out);
    [ | exact Hbuf1 | cbn [List.length]; lia | assumption | assumption ].
  cbn [walk cur List.length Nat.add].
  rewrite (line_step_across cb1 cb2 next ln k
             (List.concat (map encode_line lines1)) s1 [0] s2
             (program_bytes lines2 ++ [0]));
    [ | assumption | lia | assumption | | assumption | assumption
      | assumption | assumption | assumption ].
  2:{ unfold program_bytes in *. rewrite !length_app in Hlen2.
      cbn [List.length] in Hlen2. lia. }
  rewrite (walk_lines lines2 cb2 next (inc8 k) s2);
    [ | assumption | assumption | assumption | assumption | lia ].
  rewrite render_lines_app. cbn [render_lines fold_right].
  rewrite !string_app_assoc. reflexivity.
Qed.



(** [print_prog] on a block whose lines are followed by a byte that cannot
    start a line. *)
Lemma print_prog_bad_start (front : list block) (cb : block)
    (next : list block) (lines : list line) (x : Z) (post : list Z) (k : Z) :
  Forall (fun b => b_type b <> BT_DATA) front -> b_type cb = BT_DATA ->
  b_data cb = Some (List.concat (map encode_line lines) ++ x :: post) ->
  Z.of_nat (List.length (List.concat (map encode_line lines))) < b_length cb ->
  hd 0 (List.concat (map encode_line lines) ++ [x]) = k ->
  Forall line_ok lines ->
  Forall (fun l => l_tag l = k \/ l_tag l = k + 1) lines ->
  x <> k -> x <> k + 1 ->
  x <> 0
  \/ b_length cb
     <> Z.of_nat (List.length (List.concat (map encode_line lines))) + 2 ->
  print_prog (front ++ cb :: next)
  = PP_exit (listing_header (front ++ cb :: next) ++ render_lines lines)
      BadStartOfLine.
Proof.
  intros Hfront Htype Hbuf Hlen Hk Hok Htags Hx0 Hx1 Hnz.
  unfold print_prog.
  rewrite (skip_to_data_front front cb next Hfront Htype).
  fold (listing_header (front ++ cb :: next)).
  assert (Hfirst : data_at cb 0 = Some k).
  { unfold data_at. rewrite Hbuf. rewrite <- Hk.
    destruct (List.concat (map encode_line lines)); reflexivity. }
  rewrite Hfirst.
  pose proof (lines_fit lines) as Hfit.
  pose proof (chain_room_nonneg next) as Hnext.
  assert (Hroom : (List.length lines + 1
                   <= Z.to_nat (chain_room (cb :: next)))%nat).
  { cbn [chain_room]. unfold buffer_size. rewrite Hbuf.
    rewrite !length_app. cbn [List.length]. lia. }
  remember (Z.to_nat (chain_room (cb :: next))) as fuel0 eqn:Hf0.
  replace fuel0
    with (List.length lines + S (fuel0 - List.length lines - 1))%nat by lia.
  rewrite (walk_block_lines lines cb next k [] (x :: post));
    [ | exact Hbuf | cbn [List.length]; lia | assumption | assumption ].
  cbn [walk cur List.length Nat.add]. unfold line_step. cbn [cur idx].
  assert (Hd : data_at cb
                 (Z.of_nat (List.length (List.concat (map encode_line lines))))
               = Some x).
  { unfold data_at. rewrite Hbuf. apply load_middle. }
  assert (H3 : three_nulls cb
                 (Z.of_nat (List.length (List.concat (map encode_line lines))))
               = Some false).
  { destruct Hnz as [Hnz|Hnz];
      [apply (three_nulls_tag cb _ x Hd Hnz) | apply three_nulls_not_two; lia]. }
  rewrite H3.
  unfold read_line. cbn [idx blkn]. rewrite Hd.
  destruct (Z.eqb_spec x k); [congruence|].
  destruct (Z.eqb_spec x (k + 1)); [congruence|].
  reflexivity.
Qed.

(** X23. A byte that is neither the block number nor the block number plus one
    where a line should start makes [print_prog] leave through [exit(1)]
    after the lines before it have been printed, unless it is a zero with
    exactly two bytes left in the block (the test for the closing nulls).
    This is also what becomes of closing nulls that are split between two
    blocks: the first null, as the last byte of its block, is taken for a
    bad start of line. *)
Theorem bad_start_of_line (front : list block) (cb : block)
    (next : list block) (lines : list line) (x : Z) (post : list Z) (k : Z) :
  Forall (fun b => b_type b <> BT_DATA) front -> b_type cb = BT_DATA ->
  b_data cb = Some (List.concat (map encode_line lines) ++ x :: post) ->
  Z.of_nat (List.length (List.concat (map encode_line lines))) < b_length cb ->
  hd 0 (List.concat (map encode_line lines) ++ [x]) = k ->
  Forall line_ok lines ->
  Forall (fun l => l_tag l = k \/ l_tag l = k + 1) lines ->
  x <> k -> x <> k + 1 ->
  x <> 0
  \/ b_length cb
     <> Z.of_nat (List.length (List.concat (map encode_line lines))) + 2 ->
  print_prog (front ++ cb :: next)
  = PP_exit (listing_header (front ++ cb :: next) ++ render_lines lines)
      BadStartOfLine.
Proof. apply print_prog_bad_start. Qed.

Lemma bad_start_of_line_witness :
  print_prog
    ([] ++ decoded_data
             (List.concat
                (map encode_line
                   [ {| l_tag := 0x1E; l_nlo := 0x0B; l_hi := 0; l_lo := 10;
                        l_body := [0x87; 0x22; 0x48; 0x49; 0x22] |} ])
              ++ [0x00])
        :: [decoded_data [0x00]])
  = PP_exit
      (listing_header
         ([] ++ decoded_data
                  (List.concat
                     (map encode_line
                        [ {| l_tag := 0x1E; l_nlo := 0x0B; l_hi := 0;
                             l_lo := 10;
                             l_body := [0x87; 0x22; 0x48; 0x49; 0x22] |} ])
                   ++ [0x00])
             :: [decoded_data [0x00]])
       ++ render_lines
            [ {| l_tag := 0x1E; l_nlo := 0x0B; l_hi := 0; l_lo := 10;
                 l_body := [0x87; 0x22; 0x48; 0x49; 0x22] |} ])
      BadStartOfLine.
Proof.
  apply (bad_start_of_line [] _ [decoded_data [0x00]] _ 0x00 [0] 0x1E).
  - constructor.
  - reflexivity.
  - reflexivity.
  - cbn. lia.
  - reflexivity.
  - repeat constructor; cbn; try lia; try discriminate;
      intuition discriminate.
  - repeat constructor.
  - lia.
  - lia.
  - right. cbn. lia.
Defined.

(** ** The hunt for the sync byte *)

Section Hunt.

Variable block_malloc_ok : Z -> bool.
Variable data_malloc_ok : Z -> bool.

Local Abbreviation run_classes' := (run_classes block_malloc_ok data_malloc_ok).

(** While no bit completes the sync byte the hunting block only shifts. *)
Lemma hunt_run (bits : list bool) :
  forall (d : decoder) (cb : block) (ks : list cycle),
    d_cb d = Some cb -> b_state cb = BS_NEED_SYNCBYTE ->
    no_sync_in bits (b_byte cb) = true -> bits <> [] ->
    run_classes' (Running d) (map class_of_bit bits ++ ks)
    = run_classes'
        (Running (set_count 1
           (set_cb (Some (set_byte (assemble bits (b_byte cb)) cb)) d))) ks.
Proof.
  induction bits as [|b bits IH]; intros d cb ks Hcb Hs Hno Hne;
    [congruence|].
  cbn [no_sync_in] in Hno. apply andb_true_iff in Hno.
  destruct Hno as [Hb Hrest]. apply negb_true_iff in Hb.
  cbn [map app run_classes fold_left obind].
  change (fold_left _ ?l ?o) with (run_classes' o l).
  rewrite (on_class_current _ _ d cb _ Hcb).
  assert (Hstep : process_bit data_malloc_ok
                    (set_byte (shift_in (class_of_bit b) (b_byte cb)) cb)
                  = PB_ok (set_byte (shift_in (class_of_bit b) (b_byte cb)) cb)).
  { unfold process_bit. block_simpl. rewrite Hs, Hb. reflexivity. }
  rewrite Hstep. unfold settle. block_simpl. rewrite Hs.
  cbn [block_state_eqb count_up].
  destruct bits as [|b' bits'].
  - cbn [map app assemble fold_left]. destruct d; reflexivity.
  - match goal with
    | |- run_classes _ _ (Running ?d1) _ = _ =>
        rewrite (IH d1 (set_byte (shift_in (class_of_bit b) (b_byte cb)) cb)
                   ks eq_refl)
    end; [ | exact Hs | exact Hrest | discriminate ].
    block_simpl. cbn [assemble fold_left]. destruct d, cb. reflexivity.
Qed.

(** The bit that completes the sync byte ends the hunt. *)
Lemma hunt_ends (d : decoder) (cb : block) (b : bool) (ks : list cycle) :
  d_cb d = Some cb -> b_state cb = BS_NEED_SYNCBYTE ->
  shift_in (class_of_bit b) (b_byte cb) = SYNCBYTE ->
  run_classes' (Running d) (class_of_bit b :: ks)
  = run_classes'
      (Running (set_count 1
         (set_cb (Some (set_state BS_NEED_BLOCKTYPE
                          (set_nbit 1 (set_byte 0 cb)))) d))) ks.
Proof.
  intros Hcb Hs Hb.
  cbn [run_classes fold_left obind].
  change (fold_left _ ?l ?o) with (run_classes' o l).
  rewrite (on_class_current _ _ d cb _ Hcb).
  unfold process_bit. block_simpl. rewrite Hs, Hb.
  change (SYNCBYTE =? SYNCBYTE) with true. cbv iota.
  unfold settle. block_simpl. cbn [block_state_eqb count_up].
  destruct d, cb. reflexivity.
Qed.

End Hunt.

Lemma assemble_app (a b : list bool) (byte : Z) :
  assemble (a ++ b) byte = assemble b (assemble a byte).
Proof. unfold assemble. apply fold_left_app. Qed.

Lemma assemble_range (bits : list bool) :
  forall byte, 0 <= byte < 256 -> 0 <= assemble bits byte < 256.
Proof.
  induction bits as [|b bits IH]; intros byte Hb; [exact Hb|].
  cbn [assemble fold_left]. apply IH. apply shift_in_range. exact Hb.
Qed.

(** The last eight bits decide the byte. *)
Lemma assemble_byte (old v : Z) :
  0 <= old < 256 -> 0 <= v < 256 -> assemble (bits_of_byte v) old = v.
Proof.
  intros Hold Hv. apply Z.eqb_eq.
  pose (P := fun v =>
    forallb (fun old => assemble (bits_of_byte v) old =? v)
      (map Z.of_nat (seq 0 256))).
  assert (HP : P v = true)
    by (apply byte_cases; [vm_compute; reflexivity | assumption]).
  unfold P in HP. rewrite forallb_forall in HP. apply HP.
  replace old with (Z.of_nat (Z.to_nat old)) by lia.
  apply in_map, in_seq. lia.
Qed.

(** The decode loop over a recording of a bit sequence is a run over the
    classes of the bits, after the class of the very first crossing. *)
Lemma main_loop_bits (block_malloc_ok data_malloc_ok : Z -> bool)
    (cfg : config) (amp : Z) (l1 l0 : nat) (bits : list bool) :
  well_timed cfg amp l1 l0 ->
  main_loop block_malloc_ok data_malloc_ok cfg
    (wave amp (lens_of_bits l1 l0 bits))
  = run_classes block_malloc_ok data_malloc_ok (Running initial_decoder)
      (classify cfg 0 :: map class_of_bit bits).
Proof.
  intros Htime. pose proof Htime as (Hamp & Hl1 & Hl0 & _ & _).
  rewrite main_loop_wave; [|assumption|].
  - rewrite run_cycles_classes. cbn [map].
    rewrite (classify_lens cfg amp l1 l0 Htime). reflexivity.
  - unfold lens_of_bits. apply Forall_map, Forall_forall.
    intros [|] _; assumption.
Qed.

(** X24. The hunt for the sync byte works bit by bit: whatever bits are
    recorded before a Data frame, if none of them - nor any of the first
    seven bits of the sync byte after them - completes the pattern 0x3C,
    the sync byte is found at its eighth bit and the frame is decoded; the
    frame needs no byte alignment with the start of the recording. *)
Theorem frame_after_any_bits (block_malloc_ok data_malloc_ok : Z -> bool)
    (cfg : config) (amp : Z) (l1 l0 : nat) (junk : list bool)
    (bytes : list Z) (trailer : Z) :
  well_timed cfg amp l1 l0 -> classify cfg 0 <> One ->
  block_malloc_ok 0 = true ->
  no_sync_in (junk ++ removelast (bits_of_byte SYNCBYTE)) 0 = true ->
  bytes <> [] -> bytes_ok bytes -> Z.of_nat (List.length bytes) <= 255 ->
  data_malloc_ok (Z.of_nat (List.length bytes) + 1) = true ->
  0 <= trailer < 256 ->
  main_loop block_malloc_ok data_malloc_ok cfg
    (wave amp
       (lens_of_bits l1 l0
          (junk
           ++ bits_of_bytes
                ([SYNCBYTE]
                 ++ [BT_DATA; Z.of_nat (List.length bytes)] ++ bytes
                 ++ [sum8 (BT_DATA :: Z.of_nat (List.length bytes) :: bytes)]
                 ++ [trailer]))))
  = Running {| d_chain := [decoded_data bytes]; d_cb := None; d_count := 1;
               d_nblocks := 1; d_listing := EmptyString |}.
Proof.
  intros Htime Hfirst Hblock Hno Hne Hok Hlen Hmem Htr.
  rewrite (main_loop_bits _ _ _ _ _ _ _ Htime).
  rewrite first_crossing_run by assumption.
  set (frame := [BT_DATA; Z.of_nat (List.length bytes)] ++ bytes
                ++ [sum8 (BT_DATA :: Z.of_nat (List.length bytes) :: bytes)]
                ++ [trailer]).
  change (bits_of_bytes ([SYNCBYTE] ++ frame))
    with ((removelast (bits_of_byte SYNCBYTE) ++ [false])
          ++ bits_of_bytes frame).
  rewrite <- app_assoc, app_assoc, map_app.
  match goal with
  | |- run_classes _ _ (Running ?d1) _ = _ =>
      rewrite (hunt_run _ _ _ d1 new_block _ eq_refl eq_refl Hno)
  end.
  2:{ intros H. apply app_eq_nil in H. destruct H as [_ H]. discriminate H. }
  cbn [app map].
  match goal with
  | |- run_classes _ _ (Running ?d1) _ = _ =>
      rewrite (hunt_ends _ _ d1 _ false _ eq_refl eq_refl)
  end.
  - change (map class_of_bit (bits_of_bytes frame))
      with (classes_of_bytes frame).
    rewrite <- (app_nil_r (classes_of_bytes frame)).
    match goal with
    | |- run_classes _ _ (Running ?d1) _ = _ =>
        rewrite (data_block_after_sync _ _ d1 0 0 0 trailer bytes []
                   eq_refl)
    end; try assumption.
    reflexivity.
  - block_simpl.
    change (shift_in (class_of_bit false) ?x) with (assemble [false] x).
    rewrite <- assemble_app, <- app_assoc, assemble_app.
    change (removelast (bits_of_byte SYNCBYTE) ++ [false])
      with (bits_of_byte SYNCBYTE).
    apply assemble_byte; [|unfold SYNCBYTE; lia].
    apply assemble_range. cbn. lia.
Qed.

Lemma frame_after_any_bits_witness :
  main_loop always always default_config
    (wave 16000
       (lens_of_bits 18 37
          ([true; false; false; true; true; false; true; true; true]
           ++ bits_of_bytes
                ([SYNCBYTE]
                 ++ [BT_DATA; Z.of_nat (List.length [0x1E; 0x00; 0x41])]
                 ++ [0x1E; 0x00; 0x41]
                 ++ [sum8 (BT_DATA :: Z.of_nat (List.length [0x1E; 0x00; 0x41])
                           :: [0x1E; 0x00; 0x41])]
                 ++ [0x55]))))
  = Running {| d_chain := [decoded_data [0x1E; 0x00; 0x41]]; d_cb := None;
               d_count := 1; d_nblocks := 1; d_listing := EmptyString |}.
Proof.
  apply (frame_after_any_bits always always default_config 16000 18 37
           [true; false; false; true; true; false; true; true; true]
           [0x1E; 0x00; 0x41] 0x55).
  - unfold well_timed. repeat split; try lia; reflexivity.
  - vm_compute. discriminate.
  - reflexivity.
  - vm_compute. reflexivity.
  - discriminate.
  - repeat constructor; lia.
  - cbn. lia.
  - reflexivity.
  - lia.
Defined.

(** X25. The decode loop never hands a finished block to [process_bit]: a block
    that reaches [BS_DONE] is taken off at once, so the default branch of
    the state machine ("Bad Block state") is never taken. *)
Theorem bad_block_state_unreachable
    (block_malloc_ok data_malloc_ok : Z -> bool) (cfg : config)
    (data : list Z) (d : decoder) (cb : block) (k : cycle) :
  main_loop block_malloc_ok data_malloc_ok cfg data = Running d ->
  d_cb d = Some cb ->
  b_state cb <> BS_DONE
  /\ process_bit data_malloc_ok (set_byte (shift_in k (b_byte cb)) cb)
     <> PB_error BadBlockState.
Proof.
  intros Hrun Hcb.
  assert (Hs : b_state cb <> BS_DONE).
  { apply (main_loop_holds block_malloc_ok data_malloc_ok cfg
             (fun cb => b_state cb <> BS_DONE)) with (data := data) (d := d);
      try assumption.
    - discriminate.
    - intros ? ? ? _ _ H. exact H. }
  split; [exact Hs|].
  unfold process_bit. block_simpl.
  destruct (b_state cb); try congruence;
    repeat match goal with
           | |- context [if ?b then _ else _] => destruct b
           | |- context [match ?x with Some _ => _ | None => _ end] =>
               destruct x
           end; discriminate.
Qed.

Lemma bad_block_state_unreachable_witness :
  b_state new_block <> BS_DONE
  /\ process_bit always (set_byte (shift_in Zero (b_byte new_block)) new_block)
     <> PB_error BadBlockState.
Proof.
  apply (bad_block_state_unreachable always always default_config [1; 2]
           {| d_chain := []; d_cb := Some new_block; d_count := 1;
              d_nblocks := 1; d_listing := EmptyString |} new_block Zero).
  - reflexivity.
  - reflexivity.
Defined.

(** ** Programs without closing nulls *)

(** Lines that fill the payload of a block to its last byte are printed,
    and the walk goes on at the start of the next block. *)
Lemma walk_to_block_end (lines : list line) :
  forall (cb : block) (next : list block) (k : Z) (pre guard : list Z)
         (out : string) (fuel : nat),
    lines <> [] ->
    b_data cb
    = Some (pre ++ List.concat (map encode_line lines) ++ guard) ->
    b_length cb
    = Z.of_nat (List.length pre
                + List.length (List.concat (map encode_line lines))) ->
    Forall line_ok lines ->
    Forall (fun ln => l_tag ln = k \/ l_tag ln = k + 1) lines ->
    walk (List.length lines + fuel)
      {| cur := cb :: next; idx := Z.of_nat (List.length pre); blkn := k |} out
    = walk fuel {| cur := next; idx := 0; blkn := inc8 k |}
        (out ++ render_lines lines).
Proof.
  induction lines as [|ln lines IH];
    intros cb next k pre guard out fuel Hne Hbuf Hlen Hok Htags;
    [congruence|].
  inversion Hok as [|? ? Hln Hok']; subst.
  inversion Htags as [|? ? Htag Htags']; subst.
  cbn [map List.concat] in *. rewrite length_app in Hlen.
  pose proof (encode_line_length ln) as Henc.
  cbn [List.length Nat.add walk cur].
  rewrite <- app_assoc in Hbuf.
  destruct lines as [|l2 lines'].
  - cbn [map List.concat app List.length] in *.
    rewrite Nat.add_0_r in Hlen.
    rewrite (line_step_reads ln
               {| cur := cb :: next; idx := Z.of_nat (List.length pre);
                  blkn := k |}
               {| cur := next; idx := 0; blkn := inc8 k |} cb next eq_refl).
    + cbn [render_lines fold_right]. rewrite string_app_nil_r. reflexivity.
    + apply three_nulls_not_two. cbn [idx]. lia.
    + assumption.
    + apply (reads_to_block_end (encode_line ln) cb next k pre guard);
        [ | exact Hbuf | lia ].
      unfold encode_line. discriminate.
    + exact Htag.
  - assert (Hmore : (0 < List.length
                           (List.concat (map encode_line (l2 :: lines'))))%nat).
    { cbn [map List.concat]. rewrite length_app, encode_line_length. lia. }
    rewrite (line_step_reads ln
               {| cur := cb :: next; idx := Z.of_nat (List.length pre);
                  blkn := k |}
               {| cur := cb :: next;
                  idx := Z.of_nat (List.length pre
                                   + List.length (encode_line ln));
                  blkn := k |} cb next eq_refl).
    + replace (Z.of_nat (List.length pre + List.length (encode_line ln)))
        with (Z.of_nat (List.length (pre ++ encode_line ln)))
        by (rewrite length_app; reflexivity).
      rewrite (IH cb next k (pre ++ encode_line ln) guard
                 (out ++ render_line ln)%string fuel).
      * cbn [render_lines fold_right]. rewrite string_app_assoc.
        reflexivity.
      * discriminate.
      * rewrite <- app_assoc. exact Hbuf.
      * rewrite length_app. rewrite Hlen. f_equal. lia.
      * assumption.
      * assumption.
    + apply three_nulls_not_two. cbn [idx]. lia.
    + assumption.
    + apply (reads_in_block (encode_line ln) cb next k pre
               (List.concat (map encode_line (l2 :: lines')) ++ guard) Hbuf).
      lia.
    + exact Htag.
Qed.

(** [print_prog] on a Data block whose payload ends with its last line. *)
Lemma print_prog_unclosed (front : list block) (cb : block)
    (next : list block) (lines : list line) (guard : list Z) (k : Z) :
  Forall (fun b => b_type b <> BT_DATA) front -> b_type cb = BT_DATA ->
  lines <> [] ->
  b_data cb = Some (List.concat (map encode_line lines) ++ guard) ->
  b_length cb
  = Z.of_nat (List.length (List.concat (map encode_line lines))) ->
  hd 0 (List.concat (map encode_line lines)) = k ->
  Forall line_ok lines ->
  Forall (fun l => l_tag l = k \/ l_tag l = k + 1) lines ->
  print_prog (front ++ cb :: next)
  = walk (Z.to_nat (chain_room (cb :: next)) - List.length lines)
      {| cur := next; idx := 0; blkn := inc8 k |}
      (listing_header (front ++ cb :: next) ++ render_lines lines).
Proof.
  intros Hfront Htype Hne Hbuf Hlen Hk Hok Htags.
  unfold print_prog.
  rewrite (skip_to_data_front front cb next Hfront Htype).
  fold (listing_header (front ++ cb :: next)).
  assert (Hfirst : data_at cb 0 = Some k).
  { unfold data_at. rewrite Hbuf. rewrite <- Hk.
    destruct lines as [|ln lines]; [congruence|]. reflexivity. }
  rewrite Hfirst.
  pose proof (lines_fit lines) as Hfit.
  pose proof (chain_room_nonneg next) as Hnext.
  assert (Hroom : (List.length lines
                   <= Z.to_nat (chain_room (cb :: next)))%nat).
  { cbn [chain_room]. unfold buffer_size. rewrite Hbuf.
    rewrite !length_app. lia. }
  remember (Z.to_nat (chain_room (cb :: next))) as fuel0 eqn:Hf0.
  replace fuel0
    with (List.length lines + (fuel0 - List.length lines))%nat at 1 by lia.
  apply (walk_to_block_end lines cb next k [] guard); try assumption.
Qed.

(** X26. A Data block whose payload ends with its last line, without the
    two closing nulls: all lines are printed; then, if the block is the last
    of the chain, the loop ends with the chain, and if a block without a
    buffer follows (the End of File block), [print_prog] reads through its
    null [b_data]. *)
Theorem missing_closing_nulls (front : list block) (cb : block)
    (lines : list line) (guard : list Z) (k : Z) :
  Forall (fun b => b_type b <> BT_DATA) front -> b_type cb = BT_DATA ->
  lines <> [] ->
  b_data cb = Some (List.concat (map encode_line lines) ++ guard) ->
  b_length cb
  = Z.of_nat (List.length (List.concat (map encode_line lines))) ->
  hd 0 (List.concat (map encode_line lines)) = k ->
  Forall line_ok lines ->
  Forall (fun l => l_tag l = k \/ l_tag l = k + 1) lines ->
  print_prog (front ++ [cb])
  = PP_return (listing_header (front ++ [cb]) ++ render_lines lines)
      EndOfChain
  /\ forall (nb : block) (rest : list block),
       b_data nb = None ->
       print_prog (front ++ cb :: nb :: rest) = PP_fault.
Proof.
  intros Hfront Htype Hne Hbuf Hlen Hk Hok Htags. split.
  - rewrite (print_prog_unclosed front cb [] lines guard k) by assumption.
    destruct (Z.to_nat (chain_room [cb]) - List.length lines)%nat;
      reflexivity.
  - intros nb rest Hnb.
    rewrite (print_prog_unclosed front cb (nb :: rest) lines guard k)
      by assumption.
    pose proof (lines_fit lines) as Hfit.
    pose proof (chain_room_nonneg rest) as Hrest.
    assert (Hroom : (List.length lines
                     < Z.to_nat (chain_room (cb :: nb :: rest)))%nat).
    { cbn [chain_room]. unfold buffer_size. rewrite Hbuf, Hnb.
      rewrite !length_app. lia. }
    destruct (Z.to_nat (chain_room (cb :: nb :: rest)) - List.length lines)%nat
      as [|fuel] eqn:Hfuel; [lia|].
    cbn [walk cur]. unfold line_step. cbn [cur idx].
    unfold three_nulls, read_line, data_at. rewrite Hnb.
    cbn [is_null option_map and_then idx].
    destruct (b_length nb - 0 =? 2); reflexivity.
Qed.

Lemma missing_closing_nulls_witness :
  print_prog
    ([] ++ [decoded_data
              (List.concat
                 (map encode_line
                    [ {| l_tag := 0x1E; l_nlo := 0x0B; l_hi := 0; l_lo := 10;
                         l_body := [0x87; 0x22; 0x48; 0x49; 0x22] |} ]))])
  = PP_return
      (listing_header
         ([] ++ [decoded_data
                   (List.concat
                      (map encode_line
                         [ {| l_tag := 0x1E; l_nlo := 0x0B; l_hi := 0;
                              l_lo := 10;
                              l_body := [0x87; 0x22; 0x48; 0x49; 0x22] |} ]))])
       ++ render_lines
            [ {| l_tag := 0x1E; l_nlo := 0x0B; l_hi := 0; l_lo := 10;
                 l_body := [0x87; 0x22; 0x48; 0x49; 0x22] |} ])
      EndOfChain
  /\ forall (nb : block) (rest : list block),
       b_data nb = None ->
       print_prog
         ([] ++ decoded_data
                  (List.concat
                     (map encode_line
                        [ {| l_tag := 0x1E; l_nlo := 0x0B; l_hi := 0;
                             l_lo := 10;
                             l_body := [0x87; 0x22; 0x48; 0x49; 0x22] |} ]))
             :: nb :: rest)
       = PP_fault.
Proof.
  apply (missing_closing_nulls [] _ _ [0] 0x1E).
  - constructor.
  - reflexivity.
  - discriminate.
  - reflexivity.
  - reflexivity.
  - reflexivity.
  - repeat constructor; cbn; try lia; try discriminate;
      intuition discriminate.
  - repeat constructor.
Defined.

(** ** More than one program on a tape *)

(** Split the classes of a byte sequence after its first part, in front of
    other classes. *)
Ltac split_bytes_before :=
  match goal with
  | |- run_classes _ _ _ (classes_of_bytes (?a ++ ?b) ++ _) = _ =>
      rewrite (classes_of_bytes_app a b), <- app_assoc
  end.

(** A program recorded where the decoder has an empty chain and no current
    block: the listing is printed at the End of File block, and the decoder
    has an empty chain and no current block again. *)
Lemma program_run (block_malloc_ok data_malloc_ok : Z -> bool) (d : decoder)
    (n : nat) (name : list Z) (ft af gf : Z) (ms ml : list Z)
    (lines : list line) (ks : list cycle) :
  d_cb d = None -> d_chain d = [] ->
  block_malloc_ok (d_nblocks d) = true ->
  block_malloc_ok (d_nblocks d + 1) = true ->
  block_malloc_ok (d_nblocks d + 1 + 1) = true ->
  data_malloc_ok (Z.of_nat (List.length (program_bytes lines)) + 1) = true ->
  List.length name = 8%nat -> List.length ms = 2%nat ->
  List.length ml = 2%nat -> bytes_ok (name_body name ft af gf ms ml) ->
  Forall line_ok lines ->
  Forall (fun ln => l_tag ln = hd 0 (program_bytes lines)
                    \/ l_tag ln = hd 0 (program_bytes lines) + 1) lines ->
  Z.of_nat (List.length (program_bytes lines)) <= 255 ->
  run_classes block_malloc_ok data_malloc_ok (Running d)
    (classes_of_bytes (tape n name ft af gf ms ml lines) ++ ks)
  = run_classes block_malloc_ok data_malloc_ok
      (Running {| d_chain := []; d_cb := None; d_count := 1;
                  d_nblocks := d_nblocks d + 1 + 1 + 1;
                  d_listing :=
                    (d_listing d
                     ++ ("Program: " ++ pad_left 8 (c_string (name ++ [0]))
                         ++ newline) ++ render_lines lines)%string |}) ks.
Proof.
  intros Hcb Hchain Hb0 Hb1 Hb2 Hmem Hname Hms Hml Hnok Hok Htags Hlen.
  rewrite tape_frames.
  split_bytes_before.
  rewrite (next_frame_start _ _ d n _ Hcb Hb0).
  split_bytes_before.
  match goal with
  | |- run_classes _ _ (Running ?d1) _ = _ =>
      rewrite (name_block_after_sync _ _ d1 0 0 0 LEADERBYTE name ft af gf
                 ms ml _ eq_refl)
  end; try assumption; [|unfold LEADERBYTE; lia].
  split_bytes_before.
  match goal with
  | |- run_classes _ _ (Running ?d1) _ = _ =>
      rewrite (next_frame_start _ _ d1 n _ eq_refl Hb1)
  end.
  split_bytes_before.
  cbn [d_chain d_nblocks d_listing d_cb d_count with_block set_count set_cb].
  assert (Hne : program_bytes lines <> [])
    by (unfold program_bytes; destruct (List.concat _); discriminate).
  assert (Hpok : bytes_ok (program_bytes lines)).
  { unfold program_bytes. apply Forall_app. split.
    - apply Forall_concat, Forall_map.
      eapply Forall_impl; [|exact Hok]. intros ln (H & _). exact H.
    - repeat constructor; lia. }
  match goal with
  | |- run_classes _ _ (Running ?d1) _ = _ =>
      rewrite (data_block_after_sync _ _ d1 0 0 0 LEADERBYTE
                 (program_bytes lines) _ eq_refl)
  end; try assumption; [|unfold LEADERBYTE; lia].
  split_bytes_before.
  match goal with
  | |- run_classes _ _ (Running ?d1) _ = _ =>
      rewrite (next_frame_start _ _ d1 n _ eq_refl Hb2)
  end.
  cbn [d_chain d_nblocks d_listing d_cb d_count with_block set_count set_cb].
  match goal with
  | |- run_classes _ _ (Running ?d1) _ = _ =>
      rewrite (eof_block_after_sync _ _ d1 0 0 0 LEADERBYTE ks eq_refl)
  end; [|unfold LEADERBYTE; lia].
  unfold block_done.
  cbn [d_chain d_nblocks d_listing d_cb d_count with_block set_count set_cb].
  change (b_type decoded_eof =? BT_EOF) with true. cbv iota.
  rewrite Hchain. cbn [app].
  change ([decoded_name name ft af gf ms ml;
           decoded_data (program_bytes lines); decoded_eof])
    with ([decoded_name name ft af gf ms ml]
          ++ decoded_data (program_bytes lines) :: [decoded_eof]).
  rewrite (print_prog_lines [decoded_name name ft af gf ms ml]
             (decoded_data (program_bytes lines)) [decoded_eof] lines);
    try assumption; try reflexivity.
  repeat constructor. discriminate.
Qed.

(** X27. Two programs recorded one after the other are listed one after
    the other: the End of File block of the first frees its chain, so the
    second is decoded and printed as if it were alone, and [main] ends with
    [exit(0)]. *)
Theorem two_programs_on_a_tape (block_malloc_ok data_malloc_ok : Z -> bool)
    (cfg : config) (amp : Z) (l1 l0 : nat) (n m : nat)
    (name1 : list Z) (ft1 af1 gf1 : Z) (ms1 ml1 : list Z) (lines1 : list line)
    (name2 : list Z) (ft2 af2 gf2 : Z) (ms2 ml2 : list Z)
    (lines2 : list line) :
  well_timed cfg amp l1 l0 -> classify cfg 0 <> One ->
  (forall i, 0 <= i < 6 -> block_malloc_ok i = true) ->
  data_malloc_ok (Z.of_nat (List.length (program_bytes lines1)) + 1) = true ->
  data_malloc_ok (Z.of_nat (List.length (program_bytes lines2)) + 1) = true ->
  List.length name1 = 8%nat -> List.length ms1 = 2%nat ->
  List.length ml1 = 2%nat -> bytes_ok (name_body name1 ft1 af1 gf1 ms1 ml1) ->
  List.length name2 = 8%nat -> List.length ms2 = 2%nat ->
  List.length ml2 = 2%nat -> bytes_ok (name_body name2 ft2 af2 gf2 ms2 ml2) ->
  Forall line_ok lines1 -> Forall line_ok lines2 ->
  Forall (fun ln => l_tag ln = hd 0 (program_bytes lines1)
                    \/ l_tag ln = hd 0 (program_bytes lines1) + 1) lines1 ->
  Forall (fun ln => l_tag ln = hd 0 (program_bytes lines2)
                    \/ l_tag ln = hd 0 (program_bytes lines2) + 1) lines2 ->
  Z.of_nat (List.length (program_bytes lines1)) <= 255 ->
  Z.of_nat (List.length (program_bytes lines2)) <= 255 ->
  main block_malloc_ok data_malloc_ok cfg
    (wave_of_bytes amp l1 l0
       (tape n name1 ft1 af1 gf1 ms1 ml1 lines1
        ++ tape m name2 ft2 af2 gf2 ms2 ml2 lines2))
  = Exited 0
      ((("Program: " ++ pad_left 8 (c_string (name1 ++ [0])) ++ newline)
        ++ render_lines lines1)
       ++ ("Program: " ++ pad_left 8 (c_string (name2 ++ [0])) ++ newline)
       ++ render_lines lines2)%string.
Proof.
  intros Htime Hfirst Hblocks Hmem1 Hmem2 Hn1 Hms1 Hml1 Hnok1 Hn2 Hms2 Hml2
    Hnok2 Hok1 Hok2 Htags1 Htags2 Hlen1 Hlen2.
  unfold main.
  rewrite (main_loop_bytes_app _ _ _ _ _ _ Htime).
  rewrite (tape_run block_malloc_ok data_malloc_ok cfg amp l1 l0 n name1 ft1
             af1 gf1 ms1 ml1 lines1);
    try assumption; try (apply Hblocks; lia).
  rewrite <- (app_nil_r (classes_of_bytes _)).
  rewrite (program_run block_malloc_ok data_malloc_ok _ m name2 ft2 af2 gf2
             ms2 ml2 lines2 []);
    try assumption; try reflexivity; try (apply Hblocks; cbn; lia).
  cbn [run_classes fold_left chain_of d_chain d_cb app d_listing].
  change (print_prog []) with (PP_return EmptyString NoDataBlock).
  cbv iota. rewrite string_app_nil_r. reflexivity.
Qed.

Lemma two_programs_on_a_tape_witness :
  main always always default_config
    (wave_of_bytes 16000 18 37
       (tape 2 [72; 69; 76; 76; 79; 32; 32; 32] 0 0 0 [0; 0] [0; 0]
          [ {| l_tag := 0x1E; l_nlo := 0x0B; l_hi := 0; l_lo := 10;
               l_body := [0x87; 0x22; 0x48; 0x49; 0x22] |} ]
        ++ tape 3 [66; 89; 69; 32; 32; 32; 32; 32] 0 0 0 [0; 0] [0; 0]
             [ {| l_tag := 0x1E; l_nlo := 0x07; l_hi := 0; l_lo := 20;
                  l_body := [0x8A] |} ]))
  = Exited 0
      ((("Program: "
         ++ pad_left 8 (c_string ([72; 69; 76; 76; 79; 32; 32; 32] ++ [0]))
         ++ newline)
        ++ render_lines
             [ {| l_tag := 0x1E; l_nlo := 0x0B; l_hi := 0; l_lo := 10;
                  l_body := [0x87; 0x22; 0x48; 0x49; 0x22] |} ])
       ++ ("Program: "
           ++ pad_left 8 (c_string ([66; 89; 69; 32; 32; 32; 32; 32] ++ [0]))
           ++ newline)
       ++ render_lines
            [ {| l_tag := 0x1E; l_nlo := 0x07; l_hi := 0; l_lo := 20;
                 l_body := [0x8A] |} ])%string.
Proof.
  apply two_programs_on_a_tape; try reflexivity.
  - unfold well_timed. repeat split; try lia; reflexivity.
  - vm_compute. discriminate.
  - repeat constructor; lia.
  - repeat constructor; lia.
  - repeat constructor; cbn; try lia; try discriminate;
      intuition discriminate.
  - repeat constructor; cbn; try lia; try discriminate;
      intuition discriminate.
  - repeat constructor.
  - repeat constructor.
  - cbn. lia.
  - cbn. lia.
Defined.

(** ** The verbose report *)

Lemma verbose_lines_all_but_last (chain : list block) :
  forall (cb last : block),
    verbose_lines cb (chain ++ [last])
    = fold_right (fun b s => (block_report b ++ s)%string) EmptyString
        (cb :: chain).
Proof.
  induction chain as [|b chain IH]; intros cb last; cbn [app verbose_lines].
  - reflexivity.
  - rewrite IH. reflexivity.
Qed.

(** X28. The report printed with [-v] has a line for every block of the
    chain but the last one: the loop runs while [cb->b_next] is not null,
    so it stops at the last block without printing it. *)
Theorem verbose_report_skips_last (nblocks : Z) (chain : list block)
    (last : block) :
  verbose_report nblocks (chain ++ [last])
  = Some ("Decoded " ++ decimal nblocks ++ " blocks" ++ newline
          ++ fold_right (fun b s => (block_report b ++ s)%string)
               EmptyString chain)%string.
Proof.
  destruct chain as [|cb chain]; [reflexivity|].
  cbn [app verbose_report]. rewrite verbose_lines_all_but_last. reflexivity.
Qed.

(** X29. After a recording that ends with the End of File frame of a whole
    program the chain has been freed and [blocks] is null, so the report
    printed with [-v] starts by reading [cb->b_next] through a null
    pointer. *)
Theorem verbose_report_after_program
    (block_malloc_ok data_malloc_ok : Z -> bool) (cfg : config) (amp : Z)
    (l1 l0 : nat) (n : nat) (name : list Z) (ft af gf : Z) (ms ml : list Z)
    (lines : list line) :
  well_timed cfg amp l1 l0 -> classify cfg 0 <> One ->
  block_malloc_ok 0 = true -> block_malloc_ok 1 = true ->
  block_malloc_ok 2 = true ->
  data_malloc_ok (Z.of_nat (List.length (program_bytes lines)) + 1) = true ->
  List.length name = 8%nat -> List.length ms = 2%nat ->
  List.length ml = 2%nat -> bytes_ok (name_body name ft af gf ms ml) ->
  Forall line_ok lines ->
  Forall (fun ln => l_tag ln = hd 0 (program_bytes lines)
                    \/ l_tag ln = hd 0 (program_bytes lines) + 1) lines ->
  Z.of_nat (List.length (program_bytes lines)) <= 255 ->
  exists d,
    main_loop block_malloc_ok data_malloc_ok cfg
      (wave_of_bytes amp l1 l0 (tape n name ft af gf ms ml lines))
    = Running d
    /\ chain_of d = []
    /\ verbose_report (d_nblocks d) (chain_of d) = None.
Proof.
  intros Htime Hfirst Hb0 Hb1 Hb2 Hmem Hname Hms Hml Hnok Hok Htags Hlen.
  eexists. split; [|split].
  - apply (tape_run block_malloc_ok data_malloc_ok cfg amp l1 l0 n name ft af
             gf ms ml lines); assumption.
  - reflexivity.
  - reflexivity.
Qed.

Lemma verbose_report_after_program_witness :
  exists d,
    main_loop always always default_config
      (wave_of_bytes 16000 18 37
         (tape 2 [72; 69; 76; 76; 79; 32; 32; 32] 0 0 0 [0; 0] [0; 0]
            [ {| l_tag := 0x1E; l_nlo := 0x0B; l_hi := 0; l_lo := 10;
                 l_body := [0x87; 0x22; 0x48; 0x49; 0x22] |} ]))
    = Running d
    /\ chain_of d = []
    /\ verbose_report (d_nblocks d) (chain_of d) = None.
Proof.
  apply verbose_report_after_program; try reflexivity.
  - unfold well_timed. repeat split; try lia; reflexivity.
  - vm_compute. discriminate.
  - repeat constructor; lia.
  - repeat constructor; cbn; try lia; try discriminate;
      intuition discriminate.
  - repeat constructor.
  - cbn. lia.
Defined.
